(** * Phynteny: data preparation and masked-example generation

    A shallow embedding of [format_data.py] (filtering, dereplication,
    orientation flipping, feature scaling, one-hot masking, prediction
    inputs, the two dataset samplers), of [statistics.get_masked] and
    [statistics.known_category], of [train_model.feature_check] and
    [train_model.select_features], and of the chunking step of
    [generate_training_data.py], with the properties of the pipeline
    stated and proved over it.

    Conventions of the embedding:
    - Python [int] is [Z]; container sizes and column numbers are [nat];
    - a Python [dict] is an insertion-ordered association list ([pydict]);
    - a raised exception is [Raise e] in the [result] monad;
    - [generate_data] reads the name [phrog_encoding], which is neither its
      parameter nor bound by the module: what the lookup finds in the
      module's globals is an [option], [None] being the module as shipped
      (the read raises NameError);
    - a numpy [float64] is [npfloat]: an exact rational for a finite value
      (rounding is not modelled) or one of [inf], [-inf], [nan];
    - [random.randint] reads a draw oracle [nat -> nat] through a cursor;
    - the only unbounded loop (the redraw loop of [generate_dataset]) takes
      fuel, [None] meaning that the fuel ran out. *)

From Stdlib Require Import ZArith QArith Lia Sorted.
From stdpp Require Import gmap strings list pretty.

Open Scope Z_scope.

(** ** Exceptions and the result monad *)

Inductive exn : Set :=
  | IndexError
  | ValueError
  | AttributeError
  | NameError.

Inductive result (A : Type) : Type :=
  | Ok (a : A)
  | Raise (e : exn).
Arguments Ok {A} a.
Arguments Raise {A} e.

#[global] Instance result_ret : MRet result := fun A a => Ok a.
#[global] Instance result_bind : MBind result := fun A B f m =>
  match m with
  | Ok a => f a
  | Raise e => Raise e
  end.
#[global] Instance result_fmap : FMap result := fun A B f m =>
  match m with
  | Ok a => Ok (f a)
  | Raise e => Raise e
  end.

Definition is_Ok {A} (r : result A) : Prop := exists a, r = Ok a.

(** [for x in l: acc = body(acc, x)] with exceptions. *)
Fixpoint foldM {A B} (body : A -> B -> result A) (acc : A) (l : list B)
  : result A :=
  match l with
  | [] => Ok acc
  | x :: l' => acc' ← body acc x; foldM body acc' l'
  end.

(** ** Python sequences *)

Module Py.

(** Normalisation of a subscript: [l[i]] accepts [-len <= i < len]. *)
Definition norm_index (len : nat) (i : Z) : result nat :=
  if decide (0 <= i < Z.of_nat len) then Ok (Z.to_nat i)
  else if decide (- Z.of_nat len <= i < 0) then Ok (Z.to_nat (Z.of_nat len + i))
  else Raise IndexError.

(** [l[i]] *)
Definition getitem {A} (l : list A) (i : Z) : result A :=
  n ← norm_index (length l) i;
  match l !! n with
  | Some x => Ok x
  | None => Raise IndexError
  end.

(** [l[i] = x] *)
Definition setitem {A} (l : list A) (i : Z) (x : A) : result (list A) :=
  n ← norm_index (length l) i;
  Ok (<[n := x]> l).

(** [''.join(l)] *)
Definition join (l : list string) : string := String.concat "" l.

(** [str(x)] of an [int], and of the [None] that [dict.get] returns for
    a missing key. *)
Definition str (x : option Z) : string :=
  match x with
  | Some z => pretty z
  | None => "None"
  end.

End Py.

(** ** Python dictionaries: insertion-ordered association lists *)

Section pydict.
Context {K V : Type} `{EqDecision K}.

Definition pydict_keys (d : list (K * V)) : list K := d.*1.
Definition pydict_values (d : list (K * V)) : list V := d.*2.

(** [d.get(k)] *)
Fixpoint pydict_get (d : list (K * V)) (k : K) : option V :=
  match d with
  | [] => None
  | (k', v) :: d' => if decide (k = k') then Some v else pydict_get d' k
  end.

(** [d[k] = v]: an existing key keeps its place, a new key goes last. *)
Fixpoint pydict_set (d : list (K * V)) (k : K) (v : V) : list (K * V) :=
  match d with
  | [] => [(k, v)]
  | (k', v') :: d' =>
      if decide (k = k') then (k', v) :: d' else (k', v') :: pydict_set d' k v
  end.

(** [dict(items)] *)
Definition pydict_of_items (items : list (K * V)) : list (K * V) :=
  foldl (fun d kv => pydict_set d kv.1 kv.2) [] items.

End pydict.

Abbreviation pydict K V := (list (K * V)) (only parsing).

(** ** Data model *)

(** One genome of the training dictionary: the value stored under a genome
    key, with the five fields the extraction step fills in. *)
Record genome : Type := Genome {
  g_length : Z;
  g_phrogs : list string;
  g_protein_id : list string;
  g_sense : list string;
  g_position : list (Z * Z)
}.

#[global] Instance genome_eq_dec : EqDecision genome.
Proof. solve_decision. Defined.

(** [[phrog_encoding.get(i) for i in genome.get('phrogs')]]: a label that is
    not a key of the encoding yields [None]. *)
Definition categories (phrog_encoding : gmap string Z) (g : genome)
  : list (option Z) :=
  (fun i => phrog_encoding !! i) <$> g_phrogs g.

(** ** generate_data: the inclusion filter (lines 41-58) *)

Record filter_state : Type := FilterState {
  included : nat;
  not_included : nat;
  data : pydict string genome
}.

(** [categories_present]: the set of categories with 0 removed. *)
Definition categories_present (cats : list (option Z)) : gset (option Z) :=
  list_to_set cats ∖ {[ Some 0 ]}.

(** [training_data.get(key)] followed by a field access ([.get('phrogs')]
    on the [None] of a missing key is an AttributeError). *)
Definition get_genome (training_data : pydict string genome) (key : string)
  : result genome :=
  match pydict_get training_data key with
  | Some g => Ok g
  | None => Raise AttributeError
  end.

(** [generate_data(data)] has no parameter [phrog_encoding], and
    [format_data.py] binds no such name, unlike its sibling functions, which
    all take the encoding as a parameter. Where lines 43 and 64 read the
    name, Python looks it up among the module's globals at that moment.
    [module_phrog_encoding] stands for what the lookup finds: [None] in the
    module as it is shipped, where the read raises NameError, and [Some e]
    once a caller has bound the name to the encoding [e] in the module. *)
Definition lookup_phrog_encoding (module_phrog_encoding : option (gmap string Z))
  : result (gmap string Z) :=
  match module_phrog_encoding with
  | Some phrog_encoding => Ok phrog_encoding
  | None => Raise NameError
  end.

(** Line 43, [[phrog_encoding.get(i) for i in this_genome.get('phrogs')]]:
    the name is read once for every label, so a genome without labels gives
    [[]] even where the name is unbound. *)
Definition module_categories (module_phrog_encoding : option (gmap string Z))
    (this_genome : genome) : result (list (option Z)) :=
  mapM (fun i =>
          phrog_encoding ← lookup_phrog_encoding module_phrog_encoding;
          Ok (phrog_encoding !! i))
       (g_phrogs this_genome).

(** The body of [for g in list(genomes.keys())]. Both subscripts of
    [categories[0] == 1 or categories[-1] == 1] are read here; they raise
    together, on an empty list only, so the short circuit changes nothing. *)
Definition filter_step (module_phrog_encoding : option (gmap string Z))
    (genomes : pydict string genome) (st : filter_state) (g : string)
  : result filter_state :=
  this_genome ← get_genome genomes g;
  cats ← module_categories module_phrog_encoding this_genome;
  if decide (4 <= size (categories_present cats))%nat then
    first ← Py.getitem cats 0;
    last ← Py.getitem cats (-1);
    if decide (first = Some 1 \/ last = Some 1) then
      Ok (FilterState (S (included st)) (not_included st)
                      (pydict_set (data st) g this_genome))
    else
      Ok (FilterState (included st) (S (not_included st)) (data st))
  else Ok st.

(** The loop over the genomes of one file. *)
Definition filter_genomes (module_phrog_encoding : option (gmap string Z))
    (genomes : pydict string genome) : result filter_state :=
  foldM (filter_step module_phrog_encoding genomes) (FilterState 0 0 [])
        (pydict_keys genomes).

(** ** derep_trainingdata *)

Definition derep_trainingdata (training_data : pydict string genome)
    (phrog_encoding : gmap string Z) : result (pydict string genome) :=
  let training_keys := pydict_keys training_data in
  genomes ← mapM (get_genome training_data) training_keys;
  let training_encodings := categories phrog_encoding <$> genomes in
  let training_str := (fun i => Py.join (Py.str <$> i)) <$> training_encodings in
  let training_sense := (fun g => Py.join (g_sense g)) <$> genomes in
  let training_hash := zip_with (fun s e => s +:+ e) training_sense training_str in
  let dedup_keys := pydict_values (pydict_of_items (zip training_hash training_keys)) in
  (* every key of [dedup_keys] was dereferenced above: [get] finds it *)
  kept ← mapM (get_genome training_data) dedup_keys;
  Ok (pydict_of_items (zip dedup_keys kept)).

(** ** flip_genomes *)

(** [(np.abs(i[1] - length), np.abs(i[0] - length))] over the reversed
    position list. *)
Definition flip_positions (length : Z) (position : list (Z * Z)) : list (Z * Z) :=
  (fun i => (Z.abs (i.2 - length), Z.abs (i.1 - length))) <$> reverse position.

(** [['-' if i == '+' else '+' for i in sense[::-1]]] *)
Definition flip_sense (sense : list string) : list string :=
  (fun i => if decide (i = "+") then "-" else "+") <$> reverse sense.

(** The body of the loop of [flip_genomes] for one genome. *)
Definition flip_genome (phrog_encoding : gmap string Z) (g : genome)
  : result genome :=
  let encoding := categories phrog_encoding g in
  last ← Py.getitem encoding (-1);
  if decide (last = Some 1) then
    Ok {| g_length := g_length g;
          g_phrogs := reverse (g_phrogs g);
          g_protein_id := reverse (g_protein_id g);
          g_sense := flip_sense (g_sense g);
          g_position := flip_positions (g_length g) (g_position g) |}
  else Ok g.

Definition flip_genomes (training_data : pydict string genome)
    (phrog_encoding : gmap string Z) : result (pydict string genome) :=
  foldM (fun data key =>
           genome ← get_genome training_data key;
           g' ← flip_genome phrog_encoding genome;
           Ok (pydict_set data key g'))
        [] (pydict_keys training_data).

(** ** numpy values *)

(** A [float64]: finite values are exact rationals. *)
Inductive npfloat : Type :=
  | Finite (q : Q)
  | PosInf
  | NegInf
  | NaN.

Definition of_int (z : Z) : npfloat := Finite (inject_Z z).

(** [n / d] on integers (true division). Under numpy's default error state
    a zero divisor does not raise: it gives [inf], [-inf] or [nan]. *)
Definition true_divide (n d : Z) : npfloat :=
  if decide (d = 0) then
    if decide (0 < n) then PosInf
    else if decide (n < 0) then NegInf
    else NaN
  else Finite (inject_Z n / inject_Z d).

(** [x == 0] on a float. *)
Definition is_zero (x : npfloat) : Prop :=
  match x with
  | Finite q => Qeq q 0
  | _ => False
  end.

#[global] Instance is_zero_dec x : Decision (is_zero x).
Proof. destruct x; simpl; try (right; tauto). apply Qeq_dec. Defined.

(** [np.max] of a one-dimensional integer array; empty arrays raise. *)
Definition np_max (l : list Z) : result Z :=
  match l with
  | [] => Raise ValueError
  | x :: l' => Ok (foldl Z.max x l')
  end.

(** ** format_data *)

(** [encode_strand]: the indicator of code 1 first, of code 2 second. *)
Definition encode_strand (strand : list Z) : list Z * list Z :=
  ((fun i => if decide (i = 1) then 1 else 0) <$> strand,
   (fun i => if decide (i = 2) then 1 else 0) <$> strand).

(** [[i[1] - i[0] for i in position]] *)
Definition gene_lengths (g : genome) : list Z :=
  (fun i => i.2 - i.1) <$> g_position g.

(** [[2 if i == '+' else 1 for i in sense]] *)
Definition strand_codes (g : genome) : list Z :=
  (fun i => if decide (i = "+") then 2 else 1) <$> g_sense g.

(** [[i[0] - position[0][0] + 1 for i in position]]: [position[0][0]] is
    only evaluated inside the comprehension, so never on an empty list. *)
Definition gene_starts (g : genome) : list Z :=
  match g_position g with
  | [] => []
  | first :: _ => (fun i => i.1 - first.1 + 1) <$> g_position g
  end.

(** [[position[i+1][0] - position[i][1] for i in range(len(position)-1)]] *)
Fixpoint gaps (position : list (Z * Z)) : list Z :=
  match position with
  | p :: ((q :: _) as rest) => (q.1 - p.2) :: gaps rest
  | _ => []
  end.

(** ... followed by [intergenic.insert(0, 0)]. *)
Definition intergenic_distances (g : genome) : list Z :=
  0 :: gaps (g_position g).

(** [np.max([np.max(l) for l in length_encodings])] *)
Definition max_of_maxes (arrays : list (list Z)) : result Z :=
  maxes ← mapM np_max arrays;
  np_max maxes.

(** The two dataset-wide denominators of [format_data]:
    [np.max([np.max(l) for l in length_encodings])] and
    [np.max([np.max(np.abs(i)) for i in intergenic_encodings])]. *)
Definition dataset_max_length (genomes : list genome) : result Z :=
  let length_encodings := gene_lengths <$> genomes in
  max_of_maxes length_encodings.

Definition dataset_max_intergenic (genomes : list genome) : result Z :=
  let intergenic_encodings := intergenic_distances <$> genomes in
  max_of_maxes ((fun i => Z.abs <$> i) <$> intergenic_encodings).

(** [[[f[j] for f in features] for j in range(n)]] *)
Definition transpose_features {A} (n : nat) (features : list (list A))
  : result (list (list A)) :=
  mapM (fun j => mapM (fun f => Py.getitem f (Z.of_nat j)) features) (seq 0 n).

Definition format_data (training_data : pydict string genome)
    (phrog_encoding : gmap string Z)
  : result (list (list (option Z)) * list (list (list npfloat))) :=
  let training_keys := pydict_keys training_data in
  genomes ← mapM (get_genome training_data) training_keys;
  let training_encodings := categories phrog_encoding <$> genomes in
  let sense_encodings := strand_codes <$> genomes in
  let start_encodings := gene_starts <$> genomes in
  let intergenic_encodings := intergenic_distances <$> genomes in
  let length_encodings := gene_lengths <$> genomes in
  (* scale the lengths such that the maximum length is 1 *)
  max_length ← dataset_max_length genomes;
  let length_encodings :=
    (fun l => (fun x => true_divide x max_length) <$> l) <$> length_encodings in
  (* divide intergenic distance by the absolute maximum *)
  max_intergenic ← dataset_max_intergenic genomes;
  let intergenic_encodings :=
    (fun i => (fun x => true_divide x max_intergenic) <$> i) <$> intergenic_encodings in
  (* scale the start positions *)
  start_encodings ←
    mapM (fun s => m ← np_max s; Ok ((fun x => true_divide x m) <$> s))
         start_encodings;
  (* split the sense into two separate features *)
  let sense_encodings := encode_strand <$> sense_encodings in
  let strand1s := (fun s => of_int <$> s.1) <$> sense_encodings in
  let strand2s := (fun s => of_int <$> s.2) <$> sense_encodings in
  let features :=
    [strand1s; strand2s; length_encodings; start_encodings; intergenic_encodings] in
  features ← transpose_features (length training_encodings) features;
  Ok (training_encodings, features).

(** ** format_data_flipped: the per-genome part (lines 251-293) *)

Record raw_features : Type := RawFeatures {
  rf_encoding : list (option Z);
  rf_length : list Z;
  rf_sense : list Z;
  rf_start : list Z;
  rf_intergenic : list Z
}.

(** The body of the loop of [format_data_flipped]. In the flipped branch the
    intergenic distances are taken from the position list in its original
    order ([position[::-1]] only serves for its length). *)
Definition raw_features_flipped (phrog_encoding : gmap string Z) (g : genome)
  : result raw_features :=
  let encoding := categories phrog_encoding g in
  let length := gene_lengths g in
  last ← Py.getitem encoding (-1);
  if decide (last = Some 1) then
    let sense := (fun i => if decide (i = "+") then 1 else 2) <$> g_sense g in
    let start := (fun i => g_length g - i.2 + 1) <$> g_position g in
    let intergenic := 0 :: gaps (g_position g) in
    Ok (RawFeatures (reverse encoding) (reverse length) (reverse sense)
                    (reverse start) intergenic)
  else
    Ok (RawFeatures encoding length (strand_codes g) (gene_starts g)
                    (intergenic_distances g)).

(** ** One-hot encoding and masking *)

Abbreviation matrix := (list (list npfloat)) (only parsing).

(** Keras [pad_sequences([sequence], padding='post', maxlen=maxlen)[0]] with
    its defaults [truncating='pre'] and [value=0]: a longer sequence keeps
    its last [maxlen] entries ([s[-maxlen:]]), a shorter one is filled with
    0 on the right. For [maxlen = 0] the slice [s[-0:]] is all of [s], which
    is then assigned to an empty row: one entry broadcasts, more do not fit.
    The cast to int32 is not modelled. *)
Definition pad_sequences_post (sequence : list Z) (maxlen : nat)
  : result (list Z) :=
  match maxlen, sequence with
  | O, [] => Ok []
  | O, [_] => Ok []
  | O, _ :: _ :: _ => Raise ValueError
  | _, _ =>
      let trunc := drop (length sequence - maxlen) sequence in
      Ok (trunc ++ replicate (maxlen - length trunc) 0)
  end.

Definition one_hot_encode (sequence : list Z) (n_features : nat)
  : result (list (list Z)) :=
  mapM (fun value =>
          let vector := replicate n_features 0 in
          Py.setitem vector value 1)
       sequence.

(** [encoding.astype('float64')] *)
Definition astype_float64 (encoding : list (list Z)) : matrix :=
  (fun row : list Z => of_int <$> row) <$> encoding.

(** [encoding[:len(feature), column] = feature]. The array built from an
    empty list is one-dimensional, so the subscript raises; a feature longer
    than the matrix cannot be broadcast into the clipped slice. *)
Definition encode_feature (encoding : matrix) (feature : list npfloat)
    (column : nat) : result matrix :=
  match encoding with
  | [] => Raise IndexError
  | row0 :: _ =>
      if decide (column < length row0)%nat then
        if decide (length feature <= length encoding)%nat then
          Ok (imap (fun i row =>
                      match feature !! i with
                      | Some v => <[column := v]> row
                      | None => row
                      end) encoding)
        else Raise ValueError
      else Raise IndexError
  end.

(** [for f in range(len(features)): X = encode_feature(X, features[f],
    num_functions + f)], with [column] standing for [num_functions + f]. *)
Fixpoint encode_features (X : matrix) (features : list (list npfloat))
    (column : nat) : result matrix :=
  match features with
  | [] => Ok X
  | feature :: rest =>
      X' ← encode_feature X feature column;
      encode_features X' rest (S column)
  end.

(** [X[idx, 0:num_functions] = np.zeros(num_functions)] *)
Definition mask_row (X : matrix) (idx : Z) (num_functions : nat)
  : result matrix :=
  r ← Py.norm_index (length X) idx;
  match X !! r with
  | Some row =>
      if decide (num_functions <= length row)%nat then
        Ok (<[r := replicate num_functions (of_int 0) ++ drop num_functions row]> X)
      else Raise ValueError
  | None => Raise IndexError
  end.

(** The cast to float64, which [encode_feature] performs on entry, is applied
    once before the features are written: it is exact on the 0/1 entries.
    The two results carry the leading batch axis of size 1 that the final
    [reshape] adds. *)
Definition generate_example (sequence : list Z) (features : list (list npfloat))
    (num_functions n_features max_length : nat) (idx : Z)
  : result (list matrix * list (list (list Z))) :=
  padded_sequence ← pad_sequences_post sequence max_length;
  y ← one_hot_encode padded_sequence num_functions;
  X ← one_hot_encode padded_sequence n_features;
  X ← encode_features (astype_float64 X) features num_functions;
  X ← mask_row X idx num_functions;
  Ok ([X], [y]).

(** ** statistics.get_masked *)

(** [np.all(encoding[:, :num_categories] == 0, axis=1)] at one row. *)
Definition category_block_zero (num_categories : nat) (row : list npfloat)
  : Prop :=
  Forall is_zero (take num_categories row).

#[global] Instance category_block_zero_dec n row :
  Decision (category_block_zero n row).
Proof. unfold category_block_zero. apply _. Defined.

(** [np.where(...)[0][0]]: the first such row; none is an IndexError. *)
Definition get_masked (encoding : matrix) (num_categories : nat) : result nat :=
  match list_find (category_block_zero num_categories) encoding with
  | Some (i, _) => Ok i
  | None => Raise IndexError
  end.

(** ** generate_dataset (uniform policy) *)

(** [random.randint(a, b)]: the next draw of the oracle, brought into
    [a..b]; an empty range raises. The state is the cursor into the
    oracle. *)
Definition randint (draws : nat -> nat) (a b : Z) (cursor : nat)
  : result (Z * nat) :=
  if decide (a <= b)
  then Ok (a + Z.of_nat (draws cursor) mod (b - a + 1), S cursor)
  else Raise ValueError.

(** [while sequences[i][idx] == 0: idx = random.randint(1, len - 1)];
    [None] when the fuel runs out before the loop exits. *)
Fixpoint redraw (fuel : nat) (draws : nat -> nat) (sequence : list Z)
    (idx : Z) (cursor : nat) : option (result (Z * nat)) :=
  match fuel with
  | O => None
  | S fuel' =>
      match Py.getitem sequence idx with
      | Raise e => Some (Raise e)
      | Ok v =>
          if decide (v = 0) then
            match randint draws 1 (Z.of_nat (length sequence) - 1) cursor with
            | Raise e => Some (Raise e)
            | Ok (idx', cursor') => redraw fuel' draws sequence idx' cursor'
            end
          else Some (Ok (idx, cursor))
      end
  end.

(** Lines 498-502: the first draw, then the redraw loop. *)
Definition choose_mask_index (fuel : nat) (draws : nat -> nat)
    (sequence : list Z) (cursor : nat) : option (result (Z * nat)) :=
  match randint draws 1 (Z.of_nat (length sequence) - 1) cursor with
  | Raise e => Some (Raise e)
  | Ok (idx, cursor') => redraw fuel draws sequence idx cursor'
  end.

Record dataset : Type := Dataset {
  ds_X : list (list matrix);
  ds_y : list (list (list (list Z)));
  ds_masked_func : list Z
}.

(** The loop [for i in range(len(sequences))], over the remaining indices
    [todo]; [acc] holds the lists [X], [y] and [masked_func]. *)
Fixpoint generate_dataset_loop (fuel : nat) (draws : nat -> nat)
    (sequences : list (list Z)) (all_features : list (list (list npfloat)))
    (num_functions n_features max_length : nat)
    (todo : list nat) (acc : dataset) (cursor : nat)
  : option (result dataset) :=
  match todo with
  | [] => Some (Ok acc)
  | i :: todo' =>
      match sequences !! i with
      | None => Some (Raise IndexError)
      | Some sequence =>
          match choose_mask_index fuel draws sequence cursor with
          | None => None
          | Some (Raise e) => Some (Raise e)
          | Some (Ok (idx, cursor')) =>
              match
                (features ← Py.getitem all_features (Z.of_nat i);
                 example ← generate_example sequence features num_functions
                             n_features max_length idx;
                 masked ← Py.getitem sequence idx;
                 Ok (Dataset (ds_X acc ++ [example.1]) (ds_y acc ++ [example.2])
                             (ds_masked_func acc ++ [masked])))
              with
              | Raise e => Some (Raise e)
              | Ok acc' =>
                  generate_dataset_loop fuel draws sequences all_features
                    num_functions n_features max_length todo' acc' cursor'
              end
          end
      end
  end.

(** The final [reshape] merges the per-example batch axes. *)
Definition generate_dataset (fuel : nat) (draws : nat -> nat)
    (sequences : list (list Z)) (all_features : list (list (list npfloat)))
    (num_functions n_features max_length : nat)
  : option (result (list matrix * list (list (list Z)) * list Z)) :=
  match
    generate_dataset_loop fuel draws sequences all_features num_functions
      n_features max_length (seq 0 (length sequences)) (Dataset [] [] []) 0
  with
  | None => None
  | Some (Raise e) => Some (Raise e)
  | Some (Ok acc) =>
      Some (Ok (concat (ds_X acc), concat (ds_y acc), ds_masked_func acc))
  end.

(** ** one_hot_decode and statistics.known_category *)

(** [np.argmax] of a one-dimensional integer array: the first index that
    holds the maximum; an empty array raises. *)
Fixpoint argmax_from (best_index : nat) (best : Z) (i : nat) (l : list Z) : nat :=
  match l with
  | [] => best_index
  | x :: l' =>
      if decide (best < x) then argmax_from i x (S i) l'
      else argmax_from best_index best (S i) l'
  end.

Definition np_argmax (vector : list Z) : result nat :=
  match vector with
  | [] => Raise ValueError
  | x :: l => Ok (argmax_from 0 x 1 l)
  end.

(** [[np.argmax(vector) for vector in encoded_seq]], on an integer
    encoding such as [one_hot_encode] returns. *)
Definition one_hot_decode (encoded_seq : list (list Z)) : result (list nat) :=
  mapM np_argmax encoded_seq.

(** One entry per instance: the label row of the masked position. *)
Definition known_category (X_encodings : list (list (list npfloat)))
    (y_encodings : list (list (list Z))) (num_categories : nat)
  : result (list nat) :=
  mapM (fun i =>
          X ← Py.getitem X_encodings (Z.of_nat i);
          zero_row ← get_masked X num_categories;
          y ← Py.getitem y_encodings (Z.of_nat i);
          row ← Py.getitem y (Z.of_nat zero_row);
          np_argmax row)
       (seq 0 (length X_encodings)).

(** ** generate_prediction *)

(** [[i for i, x in enumerate(sequence) if x == value]] *)
Definition occurrences (value : Z) (sequence : list Z) : list nat :=
  fst <$> filter (fun p => p.2 = value) (imap (fun i x => (i, x)) sequence).

Definition generate_prediction (sequence : list Z)
    (features : list (list npfloat)) (num_functions n_features max_length : nat)
  : result (list (list (list npfloat))) :=
  padded_sequence ← pad_sequences_post sequence max_length;
  X ← one_hot_encode padded_sequence n_features;
  X ← encode_features (astype_float64 X) features num_functions;
  (* mask each unknown in the sequence *)
  let unknown_idx := occurrences 0 sequence in
  X ← foldM (fun X unk => mask_row X (Z.of_nat unk) num_functions) X unknown_idx;
  Ok [X].

(** ** generate_dataset_unbiased_category (category-balanced policy) *)

(** [random.choice(seq)]: the entry at the next draw, brought below
    [len(seq)]; an empty sequence raises. *)
Definition random_choice {A} (draws : nat -> nat) (l : list A) (cursor : nat)
  : result (A * nat) :=
  match l with
  | [] => Raise IndexError
  | _ =>
      x ← Py.getitem l (Z.of_nat (draws cursor) mod Z.of_nat (length l));
      Ok (x, S cursor)
  end.

Record balanced_dataset : Type := BalancedDataset {
  bd_X : list (list (list (list npfloat)));
  bd_y : list (list (list (list Z)));
  bd_genome_included : list Z;
  bd_masked_func : list Z
}.

(** The loop [for i in range(len(sequences))] over the remaining indices
    [todo], with the current target category [func]. *)
Fixpoint unbiased_category_loop (draws : nat -> nat)
    (sequences : list (list Z)) (all_features : list (list (list npfloat)))
    (num_functions n_features max_length : nat)
    (todo : list nat) (acc : balanced_dataset) (func : Z) (cursor : nat)
  : result balanced_dataset :=
  match todo with
  | [] => Ok acc
  | i :: todo' =>
      sequence ← Py.getitem sequences (Z.of_nat i);
      if decide (func ∈ sequence) then
        let occurence := occurrences func sequence in
        chosen ← random_choice draws occurence cursor;
        features ← Py.getitem all_features (Z.of_nat i);
        example ← generate_example sequence features num_functions n_features
                    max_length (Z.of_nat chosen.1);
        (* generate a new function for the next training example *)
        next ← randint draws 1 (Z.of_nat num_functions - 1) chosen.2;
        unbiased_category_loop draws sequences all_features num_functions
          n_features max_length todo'
          (BalancedDataset (bd_X acc ++ [example.1]) (bd_y acc ++ [example.2])
                           (bd_genome_included acc ++ [1])
                           (bd_masked_func acc ++ [func]))
          next.1 next.2
      else
        unbiased_category_loop draws sequences all_features num_functions
          n_features max_length todo'
          (BalancedDataset (bd_X acc) (bd_y acc)
                           (bd_genome_included acc ++ [0]) (bd_masked_func acc))
          func cursor
  end.

(** The first target category is drawn before the loop; the final
    [reshape] merges the per-example batch axes. *)
Definition generate_dataset_unbiased_category (draws : nat -> nat)
    (sequences : list (list Z)) (all_features : list (list (list npfloat)))
    (num_functions n_features max_length : nat)
  : result (list (list (list npfloat)) * list (list (list Z)) * list Z * list Z) :=
  first ← randint draws 1 (Z.of_nat num_functions - 1) 0;
  acc ← unbiased_category_loop draws sequences all_features num_functions
          n_features max_length (seq 0 (length sequences))
          (BalancedDataset [] [] [] []) first.1 first.2;
  Ok (concat (bd_X acc), concat (bd_y acc), bd_genome_included acc,
      bd_masked_func acc).

(** ** format_data_flipped: the whole function *)

Definition format_data_flipped (training_data : pydict string genome)
    (phrog_encoding : gmap string Z)
  : result (list (list (option Z)) * list (list (list npfloat))) :=
  let training_keys := pydict_keys training_data in
  raws ← mapM (fun key =>
                 g ← get_genome training_data key;
                 raw_features_flipped phrog_encoding g)
              training_keys;
  let training_encodings := rf_encoding <$> raws in
  let sense_encodings := rf_sense <$> raws in
  let start_encodings := rf_start <$> raws in
  let intergenic_encodings := rf_intergenic <$> raws in
  let length_encodings := rf_length <$> raws in
  max_length ← max_of_maxes length_encodings;
  let length_encodings :=
    (fun l => (fun x => true_divide x max_length) <$> l) <$> length_encodings in
  max_intergenic ← max_of_maxes ((fun i => Z.abs <$> i) <$> intergenic_encodings);
  let intergenic_encodings :=
    (fun i => (fun x => true_divide x max_intergenic) <$> i) <$> intergenic_encodings in
  start_encodings ←
    mapM (fun s => m ← np_max s; Ok ((fun x => true_divide x m) <$> s))
         start_encodings;
  let sense_encodings := encode_strand <$> sense_encodings in
  let strand1s := (fun s => of_int <$> s.1) <$> sense_encodings in
  let strand2s := (fun s => of_int <$> s.2) <$> sense_encodings in
  let features :=
    [strand1s; strand2s; length_encodings; start_encodings; intergenic_encodings] in
  features ← transpose_features (length training_encodings) features;
  Ok (training_encodings, features).

(** ** generate_data: filter, then dereplicate *)

(** [files] stands for the dictionaries that [pickle.load] returns, in the
    order in which the three nested [glob] loops visit the files. The name
    [phrog_encoding] is read from the module in the loop (line 43) and once
    more for the argument of [derep_trainingdata] (line 64). *)
Definition generate_data (module_phrog_encoding : option (gmap string Z))
    (files : list (pydict string genome)) : result (pydict string genome) :=
  st ← foldM (fun st genomes =>
                foldM (filter_step module_phrog_encoding genomes) st
                      (pydict_keys genomes))
             (FilterState 0 0 []) files;
  (* dereplicate the filtered data *)
  phrog_encoding ← lookup_phrog_encoding module_phrog_encoding;
  derep_trainingdata (data st) phrog_encoding.

(** ** train_model.feature_check and train_model.select_features *)

(** The outcome of a check that either returns its argument or raises a
    plain [Exception] (the message is not modelled). *)
Inductive checked (A : Type) : Type :=
  | Accepted (a : A)
  | Rejected.
Arguments Accepted {A} a.
Arguments Rejected {A}.

Definition feature_check (features_include : string) : checked string :=
  if decide (features_include ∈
               ["all"; "strand"; "none"; "intergenic"; "gene_length";
                "position"; "orientation_count"])
  then Accepted features_include
  else Rejected.

(** [data[i][:2]] for ["strand"], everything for ["all"], nothing
    otherwise. *)
Definition select_features (data : list (list (list npfloat)))
    (features : string) : list (list (list npfloat)) :=
  if decide (features = "all") then data
  else if decide (features = "strand") then take 2 <$> data
  else (fun _ => []) <$> data.

(** ** generate_training_data.py: the chunks for cross-validation *)

(** [l[start:stop]] for bounds that are not negative. *)
Definition slice {A} (l : list A) (start stop : nat) : list A :=
  take (stop - start) (drop start l).

(** [n = int(len(data)/11)], then for [i] in [range(k)] the dictionary
    [dict(list(data.items())[i * n: (i + 1) * n])]. The float quotient is
    exact for any dataset that fits in memory, so [int] of it is the
    integer quotient. With the default [k = 0] no chunk is written. *)
Definition chunk_folds {K V} `{EqDecision K} (data : pydict K V) (k : nat)
  : list (pydict K V) :=
  let n := (length data / 11)%nat in
  (fun i => pydict_of_items (slice data (i * n) ((i + 1) * n))) <$> seq 0 k.

(** ** Notions of the specification, for comparison with the code *)

(** The signature of a genome: its strand sequence rendered as a string,
    followed by its encoded category sequence rendered as a string. *)
Definition signature (phrog_encoding : gmap string Z) (g : genome) : string :=
  Py.join (g_sense g) +:+ Py.join (Py.str <$> categories phrog_encoding g).

(** The one-hot vector of category [v] over [n] classes. *)
Definition spec_one_hot (n : nat) (v : Z) : list Z :=
  <[Z.to_nat v := 1]> (replicate n 0).

(** The inclusion test of the filter: at least [threshold] distinct
    categories other than 0, and the boundary marker 1 at the first or at
    the last gene position. *)
Definition spec_filter_keeps (threshold : nat) (cats : list (option Z)) : Prop :=
  (threshold <= size (list_to_set cats ∖ {[ Some 0%Z ]} : gset (option Z)))%nat /\
  (head cats = Some (Some 1) \/ last cats = Some (Some 1)).

#[global] Instance spec_filter_keeps_dec threshold cats :
  Decision (spec_filter_keeps threshold cats).
Proof. unfold spec_filter_keeps. apply _. Defined.

(** Coordinate reflection of one span: [(s, e)] goes to
    [(|length - e|, |length - s|)]. *)
Definition spec_reflect_span (length : Z) (span : Z * Z) : Z * Z :=
  (Z.abs (length - span.2), Z.abs (length - span.1)).

(** The reversed genome: gene order, protein identifiers and strands
    reversed, every ['+'] turned into ['-'] and every other strand symbol
    into ['+'], spans reflected and listed in reverse order. *)
Definition spec_reversed_genome (g : genome) : genome :=
  {| g_length := g_length g;
     g_phrogs := reverse (g_phrogs g);
     g_protein_id := reverse (g_protein_id g);
     g_sense := reverse ((fun s => if decide (s = "+") then "-" else "+") <$> g_sense g);
     g_position := reverse (spec_reflect_span (g_length g) <$> g_position g) |}.

(** The feature arrays of one genome in the order of their columns, given
    the dataset-wide length and intergenic denominators and the genome's own
    start denominator: indicator of a strand other than ['+'], indicator of
    the ['+'] strand, scaled lengths, scaled starts, scaled intergenic
    distances. *)
Definition spec_genome_features (max_length max_start max_intergenic : Z)
    (g : genome) : list (list npfloat) :=
  [ (fun s => of_int (if decide (s = "+") then 0 else 1)) <$> g_sense g;
    (fun s => of_int (if decide (s = "+") then 1 else 0)) <$> g_sense g;
    (fun x => true_divide x max_length) <$> gene_lengths g;
    (fun x => true_divide x max_start) <$> gene_starts g;
    (fun x => true_divide x max_intergenic) <$> intergenic_distances g ].

(** The invariant of a genome record: every span has start <= end, starts
    are non-decreasing, and no gene ends beyond the genome length. *)
Definition spec_genome_record (g : genome) : Prop :=
  Forall (fun span => span.1 <= span.2) (g_position g) /\
  Sorted Z.le (fst <$> g_position g) /\
  Forall (fun span => span.2 <= g_length g) (g_position g).

(** A finite value in the closed interval [lo, hi]. *)
Definition float_in (lo hi : Q) (v : npfloat) : Prop :=
  match v with
  | Finite q => (lo <= q <= hi)%Q
  | _ => False
  end.

(** A finite value in the half-open interval (lo, hi]. *)
Definition float_in_open_closed (lo hi : Q) (v : npfloat) : Prop :=
  match v with
  | Finite q => (lo < q <= hi)%Q
  | _ => False
  end.

(** The claimed layout of the strand columns of an input matrix: forward
    indicator in column [num_functions], reverse indicator in the next. *)
Definition spec_forward_first (num_functions : nat) (g : genome)
    (X : list (list npfloat)) : Prop :=
  forall i s row, g_sense g !! i = Some s -> X !! i = Some row ->
    (row !! num_functions = Some (of_int 1) <-> s = "+") /\
    (row !! S num_functions = Some (of_int 1) <-> s = "-").

(** The mask index that the draw at [cursor] yields for a genome of [len]
    genes: a position in 1..len-1. *)
Definition drawn_index (draws : nat -> nat) (len : nat) (cursor : nat) : Z :=
  1 + Z.of_nat (draws cursor) mod (Z.of_nat len - 1).

(** A genome without eligible mask position: every position from 1 on
    carries category 0. *)
Definition spec_no_eligible_position (sequence : list Z) : Prop :=
  forall (p : nat) (v : Z), (1 <= p)%nat -> sequence !! p = Some v -> v = 0.

(** ** Row-wise description of the matrix operations *)

(** What the feature loop of [generate_example] leaves in row [i]: feature
    [f] is written to column [column + f] when it has an entry for the
    row. *)
Fixpoint write_features (features : list (list npfloat)) (column i : nat)
    (row : list npfloat) : list npfloat :=
  match features with
  | [] => row
  | feature :: rest =>
      write_features rest (S column) i
        (match feature !! i with
         | Some v => <[column := v]> row
         | None => row
         end)
  end.

(** A row with its category block set to zero. *)
Definition zero_block (num_functions : nat) (row : list npfloat) : list npfloat :=
  replicate num_functions (of_int 0) ++ drop num_functions row.

(** ** Sample data *)

(** A small category encoding: 0 is the unknown class, 1 the
    integration/excision class. *)
Definition sample_encoding : gmap string Z :=
  list_to_map [("unknown", 0); ("integrase", 1); ("tail", 2); ("head", 3);
               ("lysis", 4); ("connector", 5)].

(** Integrase at the last position only. *)
Definition genome_marker_last : genome :=
  {| g_length := 50;
     g_phrogs := ["head"; "tail"; "integrase"];
     g_protein_id := ["p1"; "p2"; "p3"];
     g_sense := ["+"; "+"; "-"];
     g_position := [(0, 10); (20, 30); (40, 50)] |}.

(** Integrase at the last position only, uneven gaps, and the last gene
    ending before the end of the genome. *)
Definition genome_marker_last_offset : genome :=
  {| g_length := 100;
     g_phrogs := ["head"; "tail"; "integrase"];
     g_protein_id := ["t1"; "t2"; "t3"];
     g_sense := ["+"; "-"; "-"];
     g_position := [(5, 10); (12, 30); (50, 60)] |}.

(** Integrase at both ends. *)
Definition genome_marker_both : genome :=
  {| g_length := 50;
     g_phrogs := ["integrase"; "tail"; "integrase"];
     g_protein_id := ["p1"; "p2"; "p3"];
     g_sense := ["+"; "+"; "-"];
     g_position := [(0, 10); (20, 30); (40, 50)] |}.

Definition sample_training_data : pydict string genome :=
  [("phage_A", genome_marker_last); ("phage_B", genome_marker_both)].

(** Five genes with categories [3,1,5,0,2]: the marker only inside. *)
Definition genome_marker_inside : genome :=
  {| g_length := 100;
     g_phrogs := ["head"; "integrase"; "connector"; "unknown"; "tail"];
     g_protein_id := ["q1"; "q2"; "q3"; "q4"; "q5"];
     g_sense := ["+"; "+"; "-"; "-"; "+"];
     g_position := [(0, 10); (20, 30); (40, 50); (60, 70); (80, 90)] |}.

(** Four categories and the marker first. *)
Definition genome_four_categories : genome :=
  {| g_length := 100;
     g_phrogs := ["integrase"; "head"; "unknown"; "tail"; "lysis"];
     g_protein_id := ["r1"; "r2"; "r3"; "r4"; "r5"];
     g_sense := ["+"; "+"; "-"; "-"; "+"];
     g_position := [(0, 10); (20, 30); (40, 50); (60, 70); (80, 90)] |}.

Definition sample_genomes : pydict string genome :=
  [("phage_C", genome_marker_inside); ("phage_D", genome_four_categories);
   ("phage_A", genome_marker_last)].

(** Two keys with the same gene order and orientation. *)
Definition sample_duplicates : pydict string genome :=
  [("phage_A", genome_marker_last); ("phage_B", genome_marker_both);
   ("phage_E", genome_marker_last)].

(** One genome with one gene: no intergenic distance but the leading 0. *)
Definition genome_single_gene : genome :=
  {| g_length := 10;
     g_phrogs := ["integrase"];
     g_protein_id := ["s1"];
     g_sense := ["+"];
     g_position := [(0, 10)] |}.

Definition sample_single_gene : pydict string genome :=
  [("phage_S", genome_single_gene)].

(** One genome whose genes all have length 0. *)
Definition genome_zero_lengths : genome :=
  {| g_length := 20;
     g_phrogs := ["integrase"; "tail"];
     g_protein_id := ["z1"; "z2"];
     g_sense := ["+"; "-"];
     g_position := [(5, 5); (9, 9)] |}.

Definition sample_zero_lengths : pydict string genome :=
  [("phage_Z", genome_zero_lengths)].

(** * Properties *)

(** ** The result monad *)

Lemma bind_Ok {A B} (m : result A) (f : A -> result B) (b : B) :
  m ≫= f = Ok b <-> exists a, m = Ok a /\ f a = Ok b.
Proof.
  destruct m as [a|e]; simpl.
  - split; [eauto | intros (a' & [= <-] & H); exact H].
  - split; [discriminate | intros (a' & [=] & _)].
Qed.

Lemma mapM_Ok_fmap {A B} (f : A -> result B) (g : A -> B) (l : list A) :
  Forall (fun x => f x = Ok (g x)) l -> mapM f l = Ok (g <$> l).
Proof.
  induction 1 as [|x l Hx _ IH]; simpl; [reflexivity|].
  rewrite Hx; simpl. rewrite IH. reflexivity.
Qed.

Lemma mapM_Ok_length {A B} (f : A -> result B) (l : list A) (l' : list B) :
  mapM f l = Ok l' -> length l' = length l.
Proof.
  revert l'. induction l as [|x l IH]; intros l'; simpl.
  - intros [= <-]. reflexivity.
  - intros (y & _ & H)%bind_Ok. apply bind_Ok in H as (k & Hk & [= <-]).
    simpl. f_equal. apply IH, Hk.
Qed.

Lemma mapM_Ok_lookup {A B} (f : A -> result B) (l : list A) (l' : list B)
    (i : nat) (x : A) :
  mapM f l = Ok l' -> l !! i = Some x ->
  exists y, l' !! i = Some y /\ f x = Ok y.
Proof.
  revert l' i. induction l as [|x0 l IH]; intros l' i; simpl; [by intros _ ?|].
  intros (y & Hy & H)%bind_Ok. apply bind_Ok in H as (k & Hk & [= <-]).
  destruct i as [|i]; simpl.
  - intros [= ->]. eauto.
  - intros Hi. apply (IH _ _ Hk Hi).
Qed.

(** ** Python subscripts *)

Lemma norm_index_nat (len i : nat) :
  (i < len)%nat -> Py.norm_index len (Z.of_nat i) = Ok i.
Proof.
  intros Hi. unfold Py.norm_index.
  rewrite decide_True by lia. by rewrite Nat2Z.id.
Qed.

Lemma getitem_nat {A} (l : list A) (i : nat) (x : A) :
  l !! i = Some x -> Py.getitem l (Z.of_nat i) = Ok x.
Proof.
  intros Hi. unfold Py.getitem.
  rewrite norm_index_nat by (eapply lookup_lt_Some, Hi). simpl. by rewrite Hi.
Qed.

Lemma getitem_first {A} (x : A) (l : list A) : Py.getitem (x :: l) 0 = Ok x.
Proof. apply (getitem_nat (x :: l) 0). reflexivity. Qed.

Lemma getitem_last {A} (l : list A) (x : A) :
  last l = Some x -> Py.getitem l (-1) = Ok x.
Proof.
  intros Hl. unfold Py.getitem, Py.norm_index.
  assert (0 < length l)%nat as Hlen by (destruct l; [discriminate | simpl; lia]).
  rewrite decide_False by lia. rewrite decide_True by lia. simpl.
  rewrite last_lookup in Hl.
  replace (Z.to_nat (Z.of_nat (length l) + -1)) with (pred (length l)) by lia.
  by rewrite Hl.
Qed.

Lemma getitem_last_nil {A} : Py.getitem (@nil A) (-1) = Raise IndexError.
Proof. reflexivity. Qed.

(** ** Dictionaries *)

Section pydict_facts.
Context {K V : Type} `{EqDecision K}.
Implicit Types (d : list (K * V)) (k : K) (v : V).

Lemma pydict_get_set d k k' v :
  pydict_get (pydict_set d k v) k' =
  if decide (k' = k) then Some v else pydict_get d k'.
Proof.
  induction d as [|[k0 v0] d IH]; simpl.
  - reflexivity.
  - destruct (decide (k = k0)) as [->|Hne]; simpl.
    + destruct (decide (k' = k0)); reflexivity.
    + rewrite IH. destruct (decide (k' = k0)) as [->|]; [|reflexivity].
      rewrite decide_False; [reflexivity | congruence].
Qed.

Lemma pydict_keys_set d k v :
  pydict_keys (pydict_set d k v) =
  if decide (k ∈ pydict_keys d) then pydict_keys d else pydict_keys d ++ [k].
Proof.
  unfold pydict_keys. induction d as [|[k0 v0] d IH].
  - destruct (decide (k ∈ ([] : list (K * V)).*1)) as [[]%elem_of_nil|];
      reflexivity.
  - cbn [pydict_set]. destruct (decide (k = k0)) as [->|Hne].
    + rewrite decide_True; [reflexivity | left].
    + rewrite !fmap_cons, IH. cbn [fst].
      destruct (decide (k ∈ d.*1)) as [Hin|Hnin].
      * rewrite decide_True; [reflexivity | by right].
      * rewrite decide_False; [reflexivity|].
        intros [?|?]%elem_of_cons; congruence.
Qed.

Lemma pydict_get_None d k : pydict_get d k = None <-> k ∉ pydict_keys d.
Proof.
  unfold pydict_keys. induction d as [|[k0 v0] d IH]; simpl.
  - split; [intros _; apply not_elem_of_nil | reflexivity].
  - destruct (decide (k = k0)) as [->|Hne].
    + split; [discriminate | intros []; left].
    + rewrite IH. rewrite not_elem_of_cons. tauto.
Qed.

Lemma pydict_get_elem_of d k v :
  NoDup (pydict_keys d) -> (k, v) ∈ d <-> pydict_get d k = Some v.
Proof.
  unfold pydict_keys. induction d as [|[k0 v0] d IH]; simpl.
  - intros _. split; [intros []%elem_of_nil | discriminate].
  - intros [Hnin Hnd]%NoDup_cons. rewrite elem_of_cons, (IH Hnd).
    destruct (decide (k = k0)) as [->|Hne].
    + split.
      * intros [[= ->]|Hget]; [reflexivity|].
        exfalso. apply Hnin. apply IH in Hget; [|done].
        apply list_elem_of_fmap. by exists (k0, v).
      * intros [= ->]. by left.
    + split; [intros [[= ? ?]|?]; [congruence | done] | by right].
Qed.
Lemma pydict_set_fresh d k v :
  k ∉ pydict_keys d -> pydict_set d k v = d ++ [(k, v)].
Proof.
  unfold pydict_keys. induction d as [|[k0 v0] d IH]; [reflexivity|].
  rewrite fmap_cons. intros [Hne Hnin]%not_elem_of_cons. cbn [pydict_set].
  rewrite decide_False by exact Hne. rewrite IH by exact Hnin. reflexivity.
Qed.
End pydict_facts.

Section pydict_loops.
Context {K V : Type} `{EqDecision K}.
Implicit Types (d : list (K * V)) (k : K) (v : V).

Lemma pydict_get_fmap {W} (f : V -> W) d k :
  pydict_get (prod_map id f <$> d) k = f <$> pydict_get d k.
Proof.
  induction d as [|[k0 v0] d IH]; [reflexivity|].
  rewrite fmap_cons. cbn. destruct (decide (k = k0)); [reflexivity | exact IH].
Qed.

Lemma pydict_keys_fmap {W} (f : V -> W) d :
  pydict_keys (prod_map id f <$> d) = pydict_keys d.
Proof.
  unfold pydict_keys. rewrite <- list_fmap_compose.
  apply list_fmap_ext. intros _ [k v] _. reflexivity.
Qed.

(** A loop that looks every key up, transforms the value and stores it
    under the same key rebuilds the dictionary entry by entry. *)
Lemma foldM_rebuild {W} (lookup : K -> result V) (F : V -> result W)
    (f : V -> W) (seen todo : list (K * V)) :
  NoDup (pydict_keys (seen ++ todo)) ->
  (forall k v, (k, v) ∈ todo -> lookup k = Ok v /\ F v = Ok (f v)) ->
  foldM (fun data key => x ← lookup key; y ← F x; Ok (pydict_set data key y))
        (prod_map id f <$> seen) (pydict_keys todo)
  = Ok (prod_map id f <$> (seen ++ todo)).
Proof.
  revert seen. induction todo as [|[k v] todo IH]; intros seen Hnd Hall.
  - by rewrite app_nil_r.
  - cbn [pydict_keys fmap list_fmap foldM fst].
    destruct (Hall k v) as [Hl HF]; [left|].
    rewrite Hl. cbn. rewrite HF. cbn.
    rewrite pydict_set_fresh.
    + replace (prod_map id f <$> seen ++ (k, v) :: todo)
        with (prod_map id f <$> (seen ++ [(k, v)]) ++ todo)
        by (by rewrite <- app_assoc).
      rewrite <- (IH (seen ++ [(k, v)])).
      * by rewrite fmap_app.
      * by rewrite <- app_assoc.
      * intros k' v' Hin. apply Hall. by right.
    + rewrite pydict_keys_fmap. unfold pydict_keys in *.
      rewrite fmap_app, fmap_cons in Hnd.
      apply NoDup_app in Hnd as (_ & Hdisj & _).
      intros Hin. apply (Hdisj _ Hin). left.
Qed.
End pydict_loops.

Lemma get_genome_elem_of (training_data : pydict string genome) key g :
  NoDup (pydict_keys training_data) -> (key, g) ∈ training_data ->
  get_genome training_data key = Ok g.
Proof.
  intros Hnd Hin. unfold get_genome.
  apply (pydict_get_elem_of _ _ _ Hnd) in Hin. by rewrite Hin.
Qed.

(** ** Orientation: flip_genomes *)

Lemma flip_positions_reflects length position :
  flip_positions length position
  = reverse (spec_reflect_span length <$> position).
Proof.
  unfold flip_positions. rewrite fmap_reverse. f_equal.
  apply list_fmap_ext. intros _ [s e] _. unfold spec_reflect_span. cbn.
  f_equal; rewrite <- Z.abs_opp; f_equal; lia.
Qed.

Lemma flip_genome_cases phrog_encoding g :
  g_phrogs g <> [] ->
  flip_genome phrog_encoding g =
  Ok (if decide (last (categories phrog_encoding g) = Some (Some 1))
      then spec_reversed_genome g else g).
Proof.
  intros Hne. unfold flip_genome.
  destruct (last (categories phrog_encoding g)) as [c|] eqn:Hlast.
  - rewrite (getitem_last _ _ Hlast). cbn.
    destruct (decide (c = Some 1)) as [->|Hc].
    + rewrite decide_True by reflexivity. f_equal.
      unfold spec_reversed_genome, flip_sense.
      by rewrite flip_positions_reflects, fmap_reverse.
    + rewrite decide_False by congruence. reflexivity.
  - exfalso. apply Hne. unfold categories in Hlast.
    apply last_None in Hlast. by apply fmap_nil_inv in Hlast.
Qed.

(** The whole dictionary: every genome is replaced by its flipped form,
    under its own key and in its own place. *)
Lemma flip_genomes_fmap training_data phrog_encoding :
  NoDup (pydict_keys training_data) ->
  (forall key g, (key, g) ∈ training_data -> g_phrogs g <> []) ->
  flip_genomes training_data phrog_encoding =
  Ok (prod_map id
        (fun g => if decide (last (categories phrog_encoding g) = Some (Some 1))
                  then spec_reversed_genome g else g)
      <$> training_data).
Proof.
  intros Hnd Hne. unfold flip_genomes.
  apply (foldM_rebuild (get_genome training_data) (flip_genome phrog_encoding)
           _ [] training_data Hnd).
  intros key g Hin. split.
  - by apply get_genome_elem_of.
  - apply flip_genome_cases. by apply (Hne key).
Qed.

(** The feature path [format_data_flipped] decides by the same test. *)
Lemma raw_features_flipped_cases phrog_encoding g :
  g_phrogs g <> [] ->
  exists rf,
    raw_features_flipped phrog_encoding g = Ok rf /\
    rf_encoding rf =
      if decide (last (categories phrog_encoding g) = Some (Some 1))
      then reverse (categories phrog_encoding g)
      else categories phrog_encoding g.
Proof.
  intros Hne. unfold raw_features_flipped.
  destruct (last (categories phrog_encoding g)) as [c|] eqn:Hlast.
  - rewrite (getitem_last _ _ Hlast). cbn.
    destruct (decide (c = Some 1)) as [->|Hc].
    + rewrite decide_True by reflexivity. by eexists.
    + rewrite decide_False by congruence. by eexists.
  - exfalso. apply Hne. unfold categories in Hlast.
    apply last_None in Hlast. by apply fmap_nil_inv in Hlast.
Qed.

(** C3, as the code has it: [flip_genomes] returns every non-empty genome
    under its key, reversed (gene order, protein identifiers, strands with
    '+' turned into '-' and anything else into '+', spans reflected to
    (|length - e|, |length - s|) in reverse order) exactly when category 1
    is at the last gene position, whatever stands at the first position;
    otherwise the genome is returned unchanged. The feature path
    [format_data_flipped] reverses the category sequence under the same
    test. *)
Theorem flip_genomes_reverses_iff_marker_last training_data phrog_encoding :
  NoDup (pydict_keys training_data) ->
  (forall key g, (key, g) ∈ training_data -> g_phrogs g <> []) ->
  exists out,
    flip_genomes training_data phrog_encoding = Ok out /\
    pydict_keys out = pydict_keys training_data /\
    forall key g, (key, g) ∈ training_data ->
      (last (categories phrog_encoding g) = Some (Some 1) ->
       pydict_get out key = Some (spec_reversed_genome g) /\
       rf_encoding <$> raw_features_flipped phrog_encoding g
       = Ok (reverse (categories phrog_encoding g))) /\
      (last (categories phrog_encoding g) <> Some (Some 1) ->
       pydict_get out key = Some g /\
       rf_encoding <$> raw_features_flipped phrog_encoding g
       = Ok (categories phrog_encoding g)).
Proof.
  intros Hnd Hne. eexists. split; [by apply flip_genomes_fmap|].
  split; [apply pydict_keys_fmap|].
  intros key g Hin. rewrite pydict_get_fmap.
  destruct (raw_features_flipped_cases phrog_encoding g (Hne key g Hin))
    as (rf & -> & Hrf).
  apply (pydict_get_elem_of _ _ _ Hnd) in Hin. rewrite Hin. cbn.
  split; intros Hlast.
  - rewrite decide_True in Hrf by exact Hlast. rewrite Hrf.
    by rewrite decide_True.
  - rewrite decide_False in Hrf by exact Hlast. rewrite Hrf.
    by rewrite decide_False.
Qed.

Lemma sample_training_data_keys : NoDup (pydict_keys sample_training_data).
Proof. refine (bool_decide_unpack _ _). vm_compute. exact I. Qed.

Lemma sample_training_data_nonempty key g :
  (key, g) ∈ sample_training_data -> g_phrogs g <> [].
Proof.
  unfold sample_training_data.
  intros Hin. repeat (apply elem_of_cons in Hin as [[= -> ->]|Hin]; [done|]).
  by apply elem_of_nil in Hin.
Qed.

Lemma flip_genomes_reverses_iff_marker_last_witness :
  exists out,
    flip_genomes sample_training_data sample_encoding = Ok out /\
    pydict_keys out = pydict_keys sample_training_data /\
    forall key g, (key, g) ∈ sample_training_data ->
      (last (categories sample_encoding g) = Some (Some 1) ->
       pydict_get out key = Some (spec_reversed_genome g) /\
       rf_encoding <$> raw_features_flipped sample_encoding g
       = Ok (reverse (categories sample_encoding g))) /\
      (last (categories sample_encoding g) <> Some (Some 1) ->
       pydict_get out key = Some g /\
       rf_encoding <$> raw_features_flipped sample_encoding g
       = Ok (categories sample_encoding g)).
Proof.
  apply (flip_genomes_reverses_iff_marker_last sample_training_data
           sample_encoding).
  - exact sample_training_data_keys.
  - exact sample_training_data_nonempty.
Defined.

(** C3 as stated fails: a genome with the boundary marker at both ends is
    not left unchanged, it is reversed. *)
Lemma flip_genomes_both_ends_reversed :
  categories sample_encoding genome_marker_both = [Some 1; Some 2; Some 1] /\
  ~ (flip_genomes [("phage_B", genome_marker_both)] sample_encoding
     = Ok [("phage_B", genome_marker_both)]).
Proof. split; [reflexivity|]. vm_compute. discriminate. Qed.

(** ** Coordinate reflection *)

Lemma reflect_coordinate_twice (length x : Z) :
  0 <= x <= length -> Z.abs (Z.abs (x - length) - length) = x.
Proof. lia. Qed.

(** Reflecting twice is the identity on coordinates between 0 and the
    genome length. *)
Lemma flip_positions_twice (length : Z) (position : list (Z * Z)) :
  Forall (fun span => 0 <= span.1 <= length /\ 0 <= span.2 <= length) position ->
  flip_positions length (flip_positions length position) = position.
Proof.
  intros Hall. unfold flip_positions.
  rewrite <- fmap_reverse, reverse_involutive, <- list_fmap_compose.
  induction Hall as [|[s e] position [Hs He] _ IH]; [reflexivity|].
  rewrite fmap_cons, IH. cbn.
  by rewrite !reflect_coordinate_twice.
Qed.

(** C9: for the gene spans of a genome, which are sequence coordinates
    with 0 <= start <= end, whose ends do not exceed the genome length,
    applying the coordinate reflection of [flip_genomes] twice (each span
    (s, e) to (|length - e|, |length - s|), the list reversed, and the same
    again) gives the original position list back exactly. *)
Theorem flip_positions_involutive (length : Z) (position : list (Z * Z)) :
  Forall (fun span => 0 <= span.1 <= span.2) position ->
  Forall (fun span => span.2 <= length) position ->
  flip_positions length (flip_positions length position) = position.
Proof.
  intros Hspan Hend. apply flip_positions_twice.
  rewrite Forall_forall in Hspan, Hend. apply Forall_forall.
  intros span Hin. specialize (Hspan span Hin). specialize (Hend span Hin).
  cbn in *. lia.
Qed.

Lemma flip_positions_involutive_witness :
  flip_positions 60 (flip_positions 60 [(0, 10); (20, 30); (40, 50)])
  = [(0, 10); (20, 30); (40, 50)].
Proof.
  apply (flip_positions_involutive 60 [(0, 10); (20, 30); (40, 50)]);
    repeat constructor; cbn; lia.
Defined.

(** ** The inclusion filter of generate_data *)

Lemma categories_present_nonempty (cats : list (option Z)) :
  (4 <= size (categories_present cats))%nat -> cats <> [].
Proof.
  intros Hsize ->. unfold categories_present in Hsize.
  rewrite list_to_set_nil, difference_disjoint_L, size_empty in Hsize;
    [lia | set_solver].
Qed.

(** With the name bound, line 43 is the list of categories. *)
Lemma module_categories_bound (phrog_encoding : gmap string Z) (g : genome) :
  module_categories (Some phrog_encoding) g = Ok (categories phrog_encoding g).
Proof.
  unfold module_categories, categories. apply mapM_Ok_fmap, Forall_true.
  intros i. reflexivity.
Qed.

(** With the name unbound, line 43 raises on the first label. *)
Lemma module_categories_unbound (g : genome) :
  module_categories None g
  = if decide (g_phrogs g = []) then Ok [] else Raise NameError.
Proof.
  unfold module_categories. destruct (g_phrogs g) as [|i phrogs]; [done|].
  by rewrite decide_False.
Qed.

(** One iteration with the name bound: the subscripts never raise, and the
    genome is stored exactly when the inclusion test holds. *)
Lemma filter_step_cases phrog_encoding genomes st g this_genome :
  get_genome genomes g = Ok this_genome ->
  filter_step (Some phrog_encoding) genomes st g =
  Ok (let cats := categories phrog_encoding this_genome in
      if decide (spec_filter_keeps 4 cats)
      then FilterState (S (included st)) (not_included st)
                       (pydict_set (data st) g this_genome)
      else if decide (4 <= size (categories_present cats))%nat
      then FilterState (included st) (S (not_included st)) (data st)
      else st).
Proof.
  intros Hget. unfold filter_step. rewrite Hget. cbn.
  rewrite module_categories_bound. cbn.
  generalize (categories phrog_encoding this_genome). intros cats.
  destruct (decide (4 <= size (categories_present cats))%nat) as [Hsize|Hsize].
  - pose proof (categories_present_nonempty _ Hsize) as Hne.
    destruct cats as [|c rest]; [done|].
    rewrite getitem_first. cbn.
    assert (exists l, last (c :: rest) = Some l) as [l Hlast].
    { destruct (last (c :: rest)) as [l|] eqn:Hlast; [by exists l|].
      by apply last_None in Hlast. }
    rewrite (getitem_last _ _ Hlast). cbn.
    destruct (decide (c = Some 1 \/ l = Some 1)) as [Hm|Hm].
    + rewrite decide_True; [reflexivity|].
      split; [exact Hsize|]. rewrite Hlast. cbn.
      destruct Hm as [->| ->]; [by left | by right].
    + rewrite decide_False; [reflexivity|].
      intros [_ Hm']. rewrite Hlast in Hm'. cbn in Hm'.
      apply Hm. destruct Hm' as [[= ->]|[= ->]]; [by left | by right].
  - rewrite decide_False; [reflexivity|]. intros [Hsize' _]. by apply Hsize.
Qed.

(** The loop: the stored dictionary is the input dictionary restricted to
    the genomes that pass the test, in the input order. *)
Lemma filter_loop_data phrog_encoding genomes (seen todo : pydict string genome)
    (st : filter_state) :
  NoDup (pydict_keys (seen ++ todo)) ->
  (forall g this_genome, (g, this_genome) ∈ todo ->
     get_genome genomes g = Ok this_genome) ->
  data st = filter (fun e => spec_filter_keeps 4 (categories phrog_encoding e.2)) seen ->
  exists st',
    foldM (filter_step (Some phrog_encoding) genomes) st (pydict_keys todo)
    = Ok st' /\
    data st' = filter (fun e => spec_filter_keeps 4 (categories phrog_encoding e.2))
                      (seen ++ todo).
Proof.
  revert seen st. induction todo as [|[g this_genome] todo IH];
    intros seen st Hnd Hget Hdata.
  - exists st. by rewrite app_nil_r.
  - cbn [pydict_keys fmap list_fmap foldM fst].
    rewrite (filter_step_cases _ _ _ _ this_genome) by (apply Hget; left).
    cbn.
    replace (seen ++ (g, this_genome) :: todo)
      with ((seen ++ [(g, this_genome)]) ++ todo) in * by (by rewrite <- app_assoc).
    apply IH; [done | intros; apply Hget; by right |].
    rewrite filter_app.
    destruct (decide (spec_filter_keeps 4 (categories phrog_encoding this_genome)))
      as [Hk|Hk].
    + rewrite filter_cons_True by exact Hk. cbn. rewrite <- Hdata.
      apply pydict_set_fresh. rewrite Hdata.
      unfold pydict_keys in *. rewrite !fmap_app in Hnd.
      apply NoDup_app in Hnd as (Hnd & _ & _).
      apply NoDup_app in Hnd as (_ & Hdisj & _).
      intros Hin. apply (Hdisj g); [|left].
      eapply elem_of_sublist; [exact Hin|]. apply fmap_sublist, sublist_filter.
    + rewrite filter_cons_False by exact Hk. cbn. rewrite app_nil_r.
      by destruct (decide (4 <= size _)%nat).
Qed.

Lemma filter_genomes_data phrog_encoding genomes :
  NoDup (pydict_keys genomes) ->
  exists st,
    filter_genomes (Some phrog_encoding) genomes = Ok st /\
    data st = filter (fun e => spec_filter_keeps 4 (categories phrog_encoding e.2))
                     genomes.
Proof.
  intros Hnd. unfold filter_genomes.
  apply (filter_loop_data phrog_encoding genomes [] genomes); [done | | done].
  intros g this_genome Hin. by apply get_genome_elem_of.
Qed.

(** X29: what the filter does once a caller has bound the name
    [phrog_encoding] in the module to an encoding. On a dictionary of genomes
    the loop returns, and its output holds a genome under its key if and
    only if the genome has at least 4 distinct categories other than 0 and
    has category 1 at its first or last gene position; a genome failing
    either test has no entry in the output, and the output holds nothing
    else. In particular a genome with categories [3,1,5,0,2] is excluded. *)
Theorem filter_keeps_iff phrog_encoding (genomes : pydict string genome) :
  NoDup (pydict_keys genomes) ->
  exists st,
    filter_genomes (Some phrog_encoding) genomes = Ok st /\
    (forall g this_genome, (g, this_genome) ∈ genomes ->
       let cats := categories phrog_encoding this_genome in
       (pydict_get (data st) g = Some this_genome <-> spec_filter_keeps 4 cats) /\
       (~ spec_filter_keeps 4 cats -> pydict_get (data st) g = None) /\
       (cats = [Some 3; Some 1; Some 5; Some 0; Some 2] ->
        pydict_get (data st) g = None)) /\
    (forall g this_genome, (g, this_genome) ∈ data st ->
       (g, this_genome) ∈ genomes).
Proof.
  intros Hnd. destruct (filter_genomes_data phrog_encoding genomes Hnd)
    as (st & Hrun & Hdata).
  exists st. split; [exact Hrun|].
  set (P := fun e : string * genome =>
              spec_filter_keeps 4 (categories phrog_encoding e.2)) in *.
  assert (NoDup (pydict_keys (data st))) as Hnd'.
  { rewrite Hdata. apply (sublist_NoDup _ (pydict_keys genomes)); [exact Hnd|].
    apply fmap_sublist. apply sublist_filter. }
  assert (forall g this_genome, (g, this_genome) ∈ genomes ->
            ~ P (g, this_genome) -> pydict_get (data st) g = None) as Habsent.
  { intros g this_genome Hin Hk. apply pydict_get_None. intros Hkey.
    apply list_elem_of_fmap in Hkey as ([g' other] & -> & Hin').
    rewrite Hdata in Hin'. apply list_elem_of_filter in Hin' as [Hk' Hin'].
    cbn in *.
    assert (other = this_genome) as ->; [|done].
    apply (pydict_get_elem_of _ _ _ Hnd) in Hin, Hin'. congruence. }
  split.
  - intros g this_genome Hin cats. split; [|split].
    + rewrite <- (pydict_get_elem_of _ _ _ Hnd'), Hdata, list_elem_of_filter.
      subst P cats. cbn. tauto.
    + apply (Habsent g this_genome Hin).
    + intros Hcats. apply (Habsent g this_genome Hin).
      subst P cats. cbn. rewrite Hcats. intros [_ [[=]|[=]]].
  - intros g this_genome Hin. rewrite Hdata in Hin.
    by apply list_elem_of_filter in Hin as [_ Hin].
Qed.

Lemma sample_genomes_keys : NoDup (pydict_keys sample_genomes).
Proof. refine (bool_decide_unpack _ _). vm_compute. exact I. Qed.

Lemma filter_keeps_iff_witness :
  exists st,
    filter_genomes (Some sample_encoding) sample_genomes = Ok st /\
    (forall g this_genome, (g, this_genome) ∈ sample_genomes ->
       let cats := categories sample_encoding this_genome in
       (pydict_get (data st) g = Some this_genome <-> spec_filter_keeps 4 cats) /\
       (~ spec_filter_keeps 4 cats -> pydict_get (data st) g = None) /\
       (cats = [Some 3; Some 1; Some 5; Some 0; Some 2] ->
        pydict_get (data st) g = None)) /\
    (forall g this_genome, (g, this_genome) ∈ data st ->
       (g, this_genome) ∈ sample_genomes).
Proof.
  apply (filter_keeps_iff sample_encoding sample_genomes).
  exact sample_genomes_keys.
Defined.

(** ** The filter in the module as shipped *)

Lemma get_genome_key (genomes : pydict string genome) (g : string) :
  g ∈ pydict_keys genomes ->
  exists this_genome, get_genome genomes g = Ok this_genome.
Proof.
  intros Hin. unfold get_genome.
  destruct (pydict_get genomes g) as [this_genome|] eqn:Hget; [by eexists|].
  by apply pydict_get_None in Hget.
Qed.

(** One iteration with the name unbound: NameError at a genome that has a
    gene label; a genome without any is passed over. *)
Lemma filter_step_unbound (genomes : pydict string genome) (st : filter_state)
    (g : string) :
  g ∈ pydict_keys genomes ->
  filter_step None genomes st g = Raise NameError \/
  filter_step None genomes st g = Ok st.
Proof.
  intros [this_genome Hget]%get_genome_key. unfold filter_step.
  rewrite Hget. cbn [mbind result_bind]. rewrite module_categories_unbound.
  destruct (decide (g_phrogs this_genome = [])) as [Hnil|Hgene];
    cbn [mbind result_bind]; [|by left].
  right.
  destruct (decide (4 <= size (categories_present []))%nat) as [Hsize|Hsize];
    [|done].
  by apply categories_present_nonempty in Hsize.
Qed.

Lemma filter_loop_unbound (genomes : pydict string genome) (todo : list string)
    (st : filter_state) :
  Forall (fun g => g ∈ pydict_keys genomes) todo ->
  foldM (filter_step None genomes) st todo = Raise NameError \/
  foldM (filter_step None genomes) st todo = Ok st.
Proof.
  induction 1 as [|g todo Hg _ IH]; cbn [foldM]; [by right|].
  destruct (filter_step_unbound genomes st g Hg) as [-> | ->];
    cbn [mbind result_bind]; [by left | exact IH].
Qed.

Lemma generate_data_loop_unbound (files : list (pydict string genome))
    (st : filter_state) :
  foldM (fun st genomes =>
           foldM (filter_step None genomes) st (pydict_keys genomes))
        st files = Raise NameError \/
  foldM (fun st genomes =>
           foldM (filter_step None genomes) st (pydict_keys genomes))
        st files = Ok st.
Proof.
  induction files as [|genomes files IH]; cbn [foldM]; [by right|].
  assert (Forall (fun g => g ∈ pydict_keys genomes) (pydict_keys genomes))
    as Hkeys by (by apply Forall_forall).
  destruct (filter_loop_unbound genomes (pydict_keys genomes) st Hkeys)
    as [-> | ->]; cbn [mbind result_bind]; [by left | exact IH].
Qed.

(** C2, in the module as shipped: the name [phrog_encoding] that
    [generate_data] reads is bound nowhere, so the filter keeps no genome.
    The loop over a dictionary raises NameError, at the first genome that
    has a gene label, or else stores nothing; [generate_data] raises
    NameError on every input, at the latest where line 64 reads the name.
    In particular the genome with categories [1,3,0,2,4], which has four
    categories besides 0 and the marker at its first gene, is not kept. *)
Theorem generate_data_name_error :
  (forall genomes : pydict string genome,
     filter_genomes None genomes = Raise NameError \/
     filter_genomes None genomes = Ok (FilterState 0 0 [])) /\
  (forall files : list (pydict string genome),
     generate_data None files = Raise NameError) /\
  categories sample_encoding genome_four_categories
  = [Some 1; Some 3; Some 0; Some 2; Some 4] /\
  spec_filter_keeps 4 (categories sample_encoding genome_four_categories) /\
  filter_genomes None [("phage_D", genome_four_categories)] = Raise NameError.
Proof.
  split; [|split; [|split; [|split]]].
  - intros genomes. unfold filter_genomes.
    apply filter_loop_unbound. by apply Forall_forall.
  - intros files. unfold generate_data.
    by destruct (generate_data_loop_unbound files (FilterState 0 0 []))
      as [-> | ->].
  - reflexivity.
  - refine (bool_decide_unpack _ _). vm_compute. exact I.
  - reflexivity.
Qed.

(** ** Dereplication *)

Section pydict_of_items_facts.
Context {K V : Type} `{EqDecision K}.
Implicit Types (d items : list (K * V)) (k : K) (v : V).

Lemma pydict_set_NoDup d k v :
  NoDup (pydict_keys d) -> NoDup (pydict_keys (pydict_set d k v)).
Proof.
  intros Hnd. rewrite pydict_keys_set.
  destruct (decide (k ∈ pydict_keys d)) as [|Hnin]; [exact Hnd|].
  apply NoDup_app. split; [exact Hnd|]. split.
  - intros x Hx [->|[]%elem_of_nil]%elem_of_cons. by apply Hnin.
  - apply NoDup_singleton.
Qed.

Lemma foldl_set_NoDup d items :
  NoDup (pydict_keys d) ->
  NoDup (pydict_keys (foldl (fun d kv => pydict_set d kv.1 kv.2) d items)).
Proof.
  revert d. induction items as [|[k v] items IH]; intros d Hnd; [exact Hnd|].
  cbn. apply IH. by apply pydict_set_NoDup.
Qed.

Lemma pydict_of_items_NoDup items : NoDup (pydict_keys (pydict_of_items items)).
Proof. apply foldl_set_NoDup. constructor. Qed.

Lemma pydict_get_app d1 d2 k :
  pydict_get (d1 ++ d2) k =
  match pydict_get d1 k with Some v => Some v | None => pydict_get d2 k end.
Proof.
  induction d1 as [|[k0 v0] d1 IH]; [reflexivity|]. cbn.
  destruct (decide (k = k0)); [reflexivity | exact IH].
Qed.

(** Later items win. *)
Lemma foldl_set_get d items k :
  pydict_get (foldl (fun d kv => pydict_set d kv.1 kv.2) d items) k =
  match pydict_get (reverse items) k with
  | Some v => Some v
  | None => pydict_get d k
  end.
Proof.
  revert d. induction items as [|[k0 v0] items IH]; intros d; [reflexivity|].
  cbn [foldl fst snd]. rewrite IH, reverse_cons, pydict_get_app, pydict_get_set.
  destruct (pydict_get (reverse items) k); [reflexivity|]. cbn.
  destruct (decide (k = k0)); reflexivity.
Qed.

Lemma pydict_get_first d k v :
  pydict_get d k = Some v ->
  exists before after, d = before ++ (k, v) :: after /\ k ∉ pydict_keys before.
Proof.
  unfold pydict_keys. induction d as [|[k0 v0] d IH]; [discriminate|]. cbn.
  destruct (decide (k = k0)) as [->|Hne].
  - intros [= ->]. exists [], d. split; [reflexivity | apply not_elem_of_nil].
  - intros (before & after & -> & Hnin)%IH.
    exists ((k0, v0) :: before), after. split; [reflexivity|].
    rewrite fmap_cons. by apply not_elem_of_cons.
Qed.

(** An entry of [dict(items)] is the last item with its key. *)
Lemma pydict_of_items_last items k v :
  (k, v) ∈ pydict_of_items items ->
  exists before after,
    items = before ++ (k, v) :: after /\ k ∉ pydict_keys after.
Proof.
  intros Hin.
  apply (pydict_get_elem_of _ _ _ (pydict_of_items_NoDup items)) in Hin.
  unfold pydict_of_items in Hin. rewrite foldl_set_get in Hin. cbn in Hin.
  destruct (pydict_get (reverse items) k) as [v'|] eqn:Hget; [|discriminate].
  injection Hin as ->.
  apply pydict_get_first in Hget as (before & after & Hrev & Hnin).
  exists (reverse after), (reverse before). split.
  - rewrite <- (reverse_involutive items), Hrev, reverse_app, reverse_cons.
    by rewrite <- app_assoc.
  - unfold pydict_keys in *. rewrite fmap_reverse, elem_of_reverse. exact Hnin.
Qed.

Lemma pydict_get_is_Some d k : is_Some (pydict_get d k) <-> k ∈ pydict_keys d.
Proof.
  rewrite <- not_eq_None_Some, pydict_get_None.
  split; [apply dec_stable | tauto].
Qed.

Lemma pydict_of_items_keys items k :
  k ∈ pydict_keys (pydict_of_items items) <-> k ∈ pydict_keys items.
Proof.
  rewrite <- (elem_of_reverse k (pydict_keys items)).
  unfold pydict_keys at 2. rewrite <- fmap_reverse.
  fold (pydict_keys (reverse items)).
  rewrite <- !pydict_get_is_Some. unfold pydict_of_items.
  rewrite foldl_set_get. cbn.
  destruct (pydict_get (reverse items) k); [done|].
  split; intros []; discriminate.
Qed.

Lemma foldl_set_distinct (seen todo : list (K * V)) :
  NoDup (pydict_keys (seen ++ todo)) ->
  foldl (fun d kv => pydict_set d kv.1 kv.2) seen todo = seen ++ todo.
Proof.
  revert seen. induction todo as [|[k v] todo IH]; intros seen Hnd.
  - by rewrite app_nil_r.
  - cbn [foldl fst snd]. rewrite pydict_set_fresh.
    + rewrite IH; rewrite <- app_assoc; done.
    + unfold pydict_keys in *. rewrite fmap_app, fmap_cons in Hnd.
      apply NoDup_app in Hnd as (_ & Hdisj & _).
      intros Hin. apply (Hdisj _ Hin). left.
Qed.

Lemma pydict_of_items_distinct items :
  NoDup (pydict_keys items) -> pydict_of_items items = items.
Proof. apply (foldl_set_distinct [] items). Qed.
End pydict_of_items_facts.

Lemma mapM_get_genome (training_data sub : pydict string genome) :
  NoDup (pydict_keys training_data) ->
  (forall e, e ∈ sub -> e ∈ training_data) ->
  mapM (get_genome training_data) (pydict_keys sub) = Ok (pydict_values sub).
Proof.
  intros Hnd. unfold pydict_keys, pydict_values.
  induction sub as [|[key g] sub IH]; intros Hsub; [reflexivity|].
  rewrite !fmap_cons. cbn.
  rewrite (get_genome_elem_of _ key g Hnd) by (apply Hsub; left). cbn.
  rewrite IH by (intros; apply Hsub; by right). reflexivity.
Qed.

(** The hash list built by the three comprehensions is the list of
    signatures. *)
Lemma training_hash_signature phrog_encoding (genomes : list genome) :
  zip_with (fun s e => s +:+ e)
    ((fun g => Py.join (g_sense g)) <$> genomes)
    ((fun i => Py.join (Py.str <$> i)) <$> (categories phrog_encoding <$> genomes))
  = signature phrog_encoding <$> genomes.
Proof.
  induction genomes as [|g genomes IH]; [reflexivity|].
  rewrite !fmap_cons. cbn. by rewrite IH.
Qed.

Lemma zip_hash_keys phrog_encoding (training_data : pydict string genome) :
  zip (signature phrog_encoding <$> pydict_values training_data)
      (pydict_keys training_data)
  = (fun e => (signature phrog_encoding e.2, e.1)) <$> training_data.
Proof.
  unfold pydict_keys, pydict_values.
  induction training_data as [|[key g] training_data IH]; [reflexivity|].
  rewrite !fmap_cons. cbn. by rewrite IH.
Qed.

(** Each entry of the hash dictionary stands for the last genome of the
    input with that signature. *)
Lemma dedup_selection phrog_encoding (training_data : pydict string genome)
    (d : pydict string string) :
  (forall e, e ∈ d ->
     e ∈ pydict_of_items ((fun e => (signature phrog_encoding e.2, e.1))
                           <$> training_data)) ->
  exists sel : pydict string genome,
    pydict_keys sel = pydict_values d /\
    signature phrog_encoding <$> pydict_values sel = pydict_keys d /\
    forall e, e ∈ sel ->
      exists before after,
        training_data = before ++ e :: after /\
        forall e', e' ∈ after ->
          signature phrog_encoding e'.2 <> signature phrog_encoding e.2.
Proof.
  unfold pydict_keys, pydict_values.
  induction d as [|[h key] d IH]; intros Hd.
  - exists []. repeat split. intros e []%elem_of_nil.
  - destruct IH as (sel & Hkeys & Hsigs & Hlast);
      [intros; apply Hd; by right|].
    destruct (pydict_of_items_last _ h key (Hd _ (list_elem_of_here _ _)))
      as (b & a & Hsplit & Hnin).
    apply fmap_app_inv in Hsplit as (before & rest & -> & Hrest & ->).
    symmetry in Hrest.
    apply fmap_cons_inv in Hrest as (e & after & [= -> ->] & -> & ->).
    exists (e :: sel). rewrite !fmap_cons. cbn.
    split; [by rewrite Hkeys|]. split; [by rewrite Hsigs|].
    intros e0 [->|Hin]%elem_of_cons; [|by apply Hlast].
    exists before, after. split; [reflexivity|].
    intros e' Hin' Heq. apply Hnin. unfold pydict_keys.
    rewrite <- list_fmap_compose. apply list_elem_of_fmap.
    exists e'. split; [|exact Hin']. cbn. by rewrite Heq.
Qed.

Lemma derep_trainingdata_selection training_data phrog_encoding :
  NoDup (pydict_keys training_data) ->
  exists out,
    derep_trainingdata training_data phrog_encoding = Ok out /\
    NoDup (signature phrog_encoding <$> pydict_values out) /\
    (forall h, h ∈ signature phrog_encoding <$> pydict_values out <->
               h ∈ signature phrog_encoding <$> pydict_values training_data) /\
    forall e, e ∈ out ->
      exists before after,
        training_data = before ++ e :: after /\
        forall e', e' ∈ after ->
          signature phrog_encoding e'.2 <> signature phrog_encoding e.2.
Proof.
  intros Hnd. unfold derep_trainingdata.
  rewrite (mapM_get_genome training_data training_data Hnd) by done. cbn.
  rewrite training_hash_signature, zip_hash_keys.
  set (d := pydict_of_items _).
  destruct (dedup_selection phrog_encoding training_data d) as
    (sel & Hkeys & Hsigs & Hlast); [done|].
  assert (forall e, e ∈ sel -> e ∈ training_data) as Hsub.
  { intros e (before & after & -> & _)%Hlast.
    apply elem_of_app. right. left. }
  assert (NoDup (pydict_keys d)) as Hd by apply pydict_of_items_NoDup.
  assert (NoDup (pydict_keys sel)) as Hsel.
  { apply NoDup_fmap_2_strong.
    - intros [k1 g1] [k2 g2] H1%Hsub H2%Hsub. cbn. intros <-.
      apply (pydict_get_elem_of _ _ _ Hnd) in H1, H2. congruence.
    - apply (NoDup_fmap_1 (fun e => signature phrog_encoding e.2)).
      rewrite <- Hsigs in Hd. unfold pydict_values in Hd.
      by rewrite <- list_fmap_compose in Hd. }
  rewrite <- Hkeys, (mapM_get_genome training_data sel Hnd Hsub). cbn.
  unfold pydict_keys at 1, pydict_values at 1.
  rewrite zip_fst_snd, (pydict_of_items_distinct sel Hsel).
  eexists. split; [reflexivity|]. rewrite Hsigs.
  split; [exact Hd|]. split; [|exact Hlast].
  intros h. subst d. rewrite pydict_of_items_keys.
  unfold pydict_keys, pydict_values.
  by rewrite <- !list_fmap_compose.
Qed.

(** C4: dereplication returns; the genomes of its output have pairwise
    different signatures (strand string followed by category string); a
    signature occurs in the output exactly when it occurs in the input, and
    then once; and each genome kept is the last genome of the input, in
    insertion order, with its signature. *)
Theorem derep_unique_signatures training_data phrog_encoding :
  NoDup (pydict_keys training_data) ->
  exists out,
    derep_trainingdata training_data phrog_encoding = Ok out /\
    NoDup (signature phrog_encoding <$> pydict_values out) /\
    (forall h, h ∈ signature phrog_encoding <$> pydict_values training_data <->
               h ∈ signature phrog_encoding <$> pydict_values out) /\
    (forall key g, (key, g) ∈ out ->
       exists before after,
         training_data = before ++ (key, g) :: after /\
         forall key' g', (key', g') ∈ after ->
           signature phrog_encoding g' <> signature phrog_encoding g).
Proof.
  intros Hnd.
  destruct (derep_trainingdata_selection training_data phrog_encoding Hnd)
    as (out & Hrun & Hdistinct & Hsame & Hlast).
  exists out. split; [exact Hrun|]. split; [exact Hdistinct|].
  split; [intros h; symmetry; apply Hsame|].
  intros key g (before & after & -> & Hafter)%Hlast.
  exists before, after. split; [reflexivity|].
  intros key' g' Hin. apply (Hafter (key', g') Hin).
Qed.

Lemma sample_duplicates_keys : NoDup (pydict_keys sample_duplicates).
Proof. refine (bool_decide_unpack _ _). vm_compute. exact I. Qed.

Lemma derep_unique_signatures_witness :
  exists out,
    derep_trainingdata sample_duplicates sample_encoding = Ok out /\
    NoDup (signature sample_encoding <$> pydict_values out) /\
    (forall h, h ∈ signature sample_encoding <$> pydict_values sample_duplicates <->
               h ∈ signature sample_encoding <$> pydict_values out) /\
    (forall key g, (key, g) ∈ out ->
       exists before after,
         sample_duplicates = before ++ (key, g) :: after /\
         forall key' g', (key', g') ∈ after ->
           signature sample_encoding g' <> signature sample_encoding g).
Proof.
  apply (derep_unique_signatures sample_duplicates sample_encoding).
  exact sample_duplicates_keys.
Defined.

(** ** One-hot encoding and masking *)

Lemma pad_sequences_post_short (sequence : list Z) (maxlen : nat) :
  (length sequence <= maxlen)%nat ->
  pad_sequences_post sequence maxlen
  = Ok (sequence ++ replicate (maxlen - length sequence) 0).
Proof.
  intros Hlen. unfold pad_sequences_post.
  replace (length sequence - maxlen)%nat with 0%nat by lia. rewrite drop_0.
  destruct maxlen as [|maxlen]; [|reflexivity].
  destruct sequence; [reflexivity | simpl in Hlen; lia].
Qed.

Lemma setitem_one_hot (n : nat) (v : Z) :
  0 <= v < Z.of_nat n ->
  Py.setitem (replicate n 0) v 1 = Ok (spec_one_hot n v).
Proof.
  intros Hv. unfold Py.setitem, Py.norm_index.
  rewrite length_replicate. by rewrite decide_True.
Qed.

Lemma one_hot_encode_in_range (sequence : list Z) (n : nat) :
  Forall (fun v => 0 <= v < Z.of_nat n) sequence ->
  one_hot_encode sequence n = Ok (spec_one_hot n <$> sequence).
Proof.
  intros Hall. unfold one_hot_encode. apply mapM_Ok_fmap.
  eapply Forall_impl; [exact Hall|]. intros v Hv. by apply setitem_one_hot.
Qed.

Lemma length_spec_one_hot (n : nat) (v : Z) : length (spec_one_hot n v) = n.
Proof. unfold spec_one_hot. by rewrite length_insert, length_replicate. Qed.

Lemma take_spec_one_hot (m n : nat) (v : Z) :
  (Z.to_nat v < m <= n)%nat ->
  take m (spec_one_hot n v) = spec_one_hot m v.
Proof.
  intros Hv. unfold spec_one_hot.
  rewrite take_insert_lt by lia. rewrite take_replicate. f_equal. f_equal. lia.
Qed.

Lemma is_zero_one : ~ is_zero (of_int 1).
Proof. unfold is_zero, of_int, Qeq. cbn. lia. Qed.

Lemma spec_one_hot_not_zero (n : nat) (v : Z) (row : list npfloat) :
  0 <= v < Z.of_nat n ->
  take n row = of_int <$> spec_one_hot n v ->
  ~ category_block_zero n row.
Proof.
  intros Hv Hrow Hzero. unfold category_block_zero in Hzero. rewrite Hrow in Hzero.
  rewrite Forall_lookup in Hzero.
  apply is_zero_one, (Hzero (Z.to_nat v) (of_int 1)).
  rewrite list_lookup_fmap. unfold spec_one_hot.
  rewrite list_lookup_insert_eq; [reflexivity|]. rewrite length_replicate. lia.
Qed.

Lemma replicate_zero_block (n : nat) (row : list npfloat) :
  take n row = replicate n (of_int 0) -> category_block_zero n row.
Proof.
  intros Hrow. unfold category_block_zero. rewrite Hrow.
  apply Forall_replicate. reflexivity.
Qed.

(** One feature: the rows keep their number and width, every column but
    [column] is untouched, and [column] holds the feature on its rows. *)
Lemma encode_feature_rows (X X' : matrix) (feature : list npfloat)
    (column width : nat) :
  Forall (fun row => length row = width) X ->
  encode_feature X feature column = Ok X' ->
  (column < width)%nat /\
  length X' = length X /\
  Forall (fun row => length row = width) X' /\
  forall i row', X' !! i = Some row' ->
    exists row, X !! i = Some row /\
      (forall j, j <> column -> row' !! j = row !! j) /\
      (forall v, feature !! i = Some v -> row' !! column = Some v).
Proof.
  intros Hwidth. unfold encode_feature.
  destruct X as [|row0 X0] eqn:HX; [discriminate|]. rewrite <- HX in *.
  assert (length row0 = width) as Hrow0.
  { subst X. by apply Forall_cons in Hwidth as [? _]. }
  destruct (decide (column < length row0)%nat) as [Hcol|]; [|discriminate].
  destruct (decide (length feature <= length X)%nat); [|discriminate].
  intros [= <-]. split; [lia|]. split; [apply length_imap|]. split.
  - apply Forall_lookup. intros i row' Hi.
    apply list_lookup_imap_Some in Hi as (row & Hrow & ->).
    rewrite Forall_lookup in Hwidth. specialize (Hwidth _ _ Hrow).
    destruct (feature !! i); [by rewrite length_insert | done].
  - intros i row' Hi.
    apply list_lookup_imap_Some in Hi as (row & Hrow & ->).
    exists row. split; [exact Hrow|].
    rewrite Forall_lookup in Hwidth. specialize (Hwidth _ _ Hrow).
    split.
    + intros j Hj. destruct (feature !! i); [|done].
      by rewrite list_lookup_insert_ne.
    + intros v ->. apply list_lookup_insert_eq. lia.
Qed.

(** All features: the rows keep their number and width, columns below the
    first feature column are untouched and feature [f] sits in column
    [column + f]. *)
Lemma encode_features_rows (features : list (list npfloat)) (X X' : matrix)
    (column width : nat) :
  Forall (fun row => length row = width) X ->
  encode_features X features column = Ok X' ->
  length X' = length X /\
  Forall (fun row => length row = width) X' /\
  forall i row', X' !! i = Some row' ->
    exists row, X !! i = Some row /\
      (forall j, (j < column)%nat -> row' !! j = row !! j) /\
      (forall f feature v, features !! f = Some feature ->
         feature !! i = Some v -> row' !! (column + f)%nat = Some v).
Proof.
  revert X column. induction features as [|feature rest IH]; intros X column Hwidth.
  - cbn. intros [= <-]. split; [done|]. split; [done|].
    intros i row' Hi. exists row'. split; [done|]. split; [done|].
    intros f feature v Hf. by rewrite lookup_nil in Hf.
  - cbn. intros (X1 & Hstep & Hrest)%bind_Ok.
    destruct (encode_feature_rows _ _ _ _ _ Hwidth Hstep)
      as (Hcol & Hlen1 & Hwidth1 & Hrows1).
    destruct (IH _ _ Hwidth1 Hrest) as (Hlen & Hwidth' & Hrows).
    split; [congruence|]. split; [done|].
    intros i row' Hi.
    destruct (Hrows _ _ Hi) as (row1 & Hi1 & Hbelow & Hfeat).
    destruct (Hrows1 _ _ Hi1) as (row & Hi0 & Hother & Hcolumn).
    exists row. split; [done|]. split.
    + intros j Hj. rewrite Hbelow by lia. apply Hother. lia.
    + intros [|f] feature' v Hf Hv; cbn in Hf.
      * injection Hf as <-. rewrite Nat.add_0_r, Hbelow by lia.
        by apply Hcolumn.
      * replace (column + S f)%nat with (S column + f)%nat by lia.
        by apply (Hfeat f feature').
Qed.

Lemma mask_row_rows (X X' : matrix) (idx : Z) (num_functions : nat) :
  0 <= idx < Z.of_nat (length X) ->
  mask_row X idx num_functions = Ok X' ->
  length X' = length X /\
  (exists row, X !! Z.to_nat idx = Some row /\ (num_functions <= length row)%nat /\
     X' !! Z.to_nat idx
     = Some (replicate num_functions (of_int 0) ++ drop num_functions row)) /\
  forall i, i <> Z.to_nat idx -> X' !! i = X !! i.
Proof.
  intros Hidx. unfold mask_row, Py.norm_index.
  rewrite decide_True by exact Hidx. cbn.
  destruct (X !! Z.to_nat idx) as [row|] eqn:Hrow; [|discriminate].
  destruct (decide (num_functions <= length row)%nat); [|discriminate].
  intros [= <-]. split; [apply length_insert|]. split.
  - exists row. split; [done|]. split; [done|].
    apply list_lookup_insert_eq. lia.
  - intros i Hi. by apply list_lookup_insert_ne.
Qed.

Lemma one_hot_encode_width (sequence : list Z) (n : nat) (M : list (list Z)) :
  one_hot_encode sequence n = Ok M ->
  length M = length sequence /\ Forall (fun row => length row = n) M.
Proof.
  intros Hrun. split; [by apply mapM_Ok_length in Hrun|].
  apply Forall_lookup. intros i row Hi.
  assert (i < length sequence)%nat as Hlt.
  { apply mapM_Ok_length in Hrun. rewrite <- Hrun. by eapply lookup_lt_Some. }
  apply lookup_lt_is_Some in Hlt as [v Hv].
  destruct (mapM_Ok_lookup _ _ _ _ _ Hrun Hv) as (row' & Hi' & Hset).
  assert (row' = row) as -> by congruence.
  unfold Py.setitem in Hset. apply bind_Ok in Hset as (k & _ & [= <-]).
  by rewrite length_insert, length_replicate.
Qed.

Lemma astype_float64_width (M : list (list Z)) (n : nat) :
  Forall (fun row => length row = n) M ->
  Forall (fun row => length row = n) (astype_float64 M).
Proof.
  intros Hall. unfold astype_float64. apply Forall_fmap.
  eapply Forall_impl; [exact Hall|]. intros row Hrow. cbn.
  by rewrite length_fmap.
Qed.

Lemma padded_in_range (sequence : list Z) (num_functions k : nat) :
  (0 < num_functions)%nat ->
  Forall (fun v => 0 <= v < Z.of_nat num_functions) sequence ->
  Forall (fun v => 0 <= v < Z.of_nat num_functions) (sequence ++ replicate k 0).
Proof.
  intros Hpos Hall. apply Forall_app. split; [exact Hall|].
  apply Forall_replicate. lia.
Qed.

(** The rows of an example: the label matrix is the one-hot encoding of the
    padded sequence; in the input matrix each row carries, in its category
    block, the one-hot encoding of its padded category, except the masked
    row whose block is zero; feature [f] is in column [num_functions + f]. *)
Lemma generate_example_rows (sequence : list Z) (features : list (list npfloat))
    (num_functions n_features max_length : nat) (idx : Z) Xs ys :
  (length sequence <= max_length)%nat ->
  0 <= idx < Z.of_nat (length sequence) ->
  Forall (fun v => 0 <= v < Z.of_nat num_functions) sequence ->
  generate_example sequence features num_functions n_features max_length idx
  = Ok (Xs, ys) ->
  let padded := sequence ++ replicate (max_length - length sequence) 0 in
  exists X,
    Xs = [X] /\ ys = [spec_one_hot num_functions <$> padded] /\
    length X = max_length /\
    forall i v, padded !! i = Some v ->
      exists row, X !! i = Some row /\
        take num_functions row =
          (if decide (Z.of_nat i = idx) then replicate num_functions (of_int 0)
           else of_int <$> spec_one_hot num_functions v) /\
        (forall f feature x, features !! f = Some feature ->
           feature !! i = Some x -> row !! (num_functions + f)%nat = Some x).
Proof.
  intros Hlen Hidx Hrange Hrun padded.
  assert (0 < num_functions)%nat as Hpos.
  { destruct sequence as [|v sequence]; [cbn in Hidx; lia|].
    apply Forall_cons in Hrange as [? _]. lia. }
  assert (Forall (fun v => 0 <= v < Z.of_nat num_functions) padded) as Hpadded
    by by apply padded_in_range.
  assert (length padded = max_length) as Hplen.
  { subst padded. rewrite length_app, length_replicate. lia. }
  unfold generate_example in Hrun.
  rewrite (pad_sequences_post_short _ _ Hlen) in Hrun. cbn in Hrun.
  fold padded in Hrun.
  rewrite (one_hot_encode_in_range _ _ Hpadded) in Hrun. cbn in Hrun.
  apply bind_Ok in Hrun as (X0 & HX0 & Hrun).
  apply bind_Ok in Hrun as (X1 & HX1 & Hrun).
  apply bind_Ok in Hrun as (X2 & HX2 & [= <- <-]).
  destruct (one_hot_encode_width _ _ _ HX0) as [HX0len HX0width].
  apply astype_float64_width in HX0width.
  destruct (encode_features_rows _ _ _ _ _ HX0width HX1)
    as (HX1len & HX1width & HX1rows).
  assert (length X1 = max_length) as HX1ml.
  { rewrite HX1len. unfold astype_float64. rewrite length_fmap. congruence. }
  destruct (mask_row_rows X1 X2 idx num_functions) as
    (HX2len & (mrow & Hmrow & Hmwidth & HX2idx) & HX2other); [lia | done |].
  assert (num_functions <= n_features)%nat as Hnf.
  { rewrite Forall_lookup in HX1width. by rewrite <- (HX1width _ _ Hmrow). }
  assert (X0 = spec_one_hot n_features <$> padded) as ->.
  { rewrite one_hot_encode_in_range in HX0; [congruence|].
    eapply Forall_impl; [exact Hpadded|]. intros v Hv. cbn in *. lia. }
  exists X2. split; [done|]. split; [done|]. split; [congruence|].
  intros i v Hv.
  assert (i < length X1)%nat as Hi1.
  { rewrite HX1ml, <- Hplen. by eapply lookup_lt_Some. }
  apply lookup_lt_is_Some in Hi1 as [row1 Hrow1].
  destruct (HX1rows _ _ Hrow1) as (row0 & Hrow0 & Hbelow & Hfeat).
  unfold astype_float64 in Hrow0.
  rewrite !list_lookup_fmap, Hv in Hrow0. injection Hrow0 as <-.
  assert (take num_functions row1 = of_int <$> spec_one_hot num_functions v)
    as Htake.
  { apply list_eq. intros j.
    destruct (decide (j < num_functions)%nat) as [Hj|Hj].
    - rewrite lookup_take_lt, Hbelow by done.
      rewrite <- (take_spec_one_hot num_functions n_features).
      + by rewrite fmap_take, lookup_take_lt.
      + rewrite Forall_lookup in Hpadded. specialize (Hpadded _ _ Hv). lia.
    - rewrite lookup_take_ge by lia. symmetry. apply lookup_ge_None.
      rewrite length_fmap, length_spec_one_hot. lia. }
  destruct (decide (Z.of_nat i = idx)) as [Hi|Hi].
  - replace (Z.to_nat idx) with i in * by lia.
    assert (mrow = row1) as -> by congruence.
    eexists. split; [exact HX2idx|]. split.
    + rewrite take_app_length'; [done | by rewrite length_replicate].
    + intros f feature x Hf Hx.
      rewrite lookup_app_r; rewrite length_replicate; [|lia].
      rewrite lookup_drop. rewrite <- (Hfeat f feature x Hf Hx). f_equal. lia.
  - exists row1. split; [|by split].
    rewrite HX2other; [done | lia].
Qed.

Lemma setitem_Ok_range {A} (l l' : list A) (i : Z) (x : A) :
  Py.setitem l i x = Ok l' -> - Z.of_nat (length l) <= i < Z.of_nat (length l).
Proof.
  unfold Py.setitem, Py.norm_index. intros (k & Hk & _)%bind_Ok.
  destruct (decide (0 <= i < Z.of_nat (length l))); [lia|].
  destruct (decide (- Z.of_nat (length l) <= i < 0)); [lia | discriminate].
Qed.

(** A returned example had all its non-negative category codes below
    [num_functions]: the label encoding subscripts a vector that long. *)
Lemma generate_example_range (sequence : list Z) features
    (num_functions n_features max_length : nat) (idx : Z) r :
  (length sequence <= max_length)%nat ->
  Forall (fun v => 0 <= v) sequence ->
  generate_example sequence features num_functions n_features max_length idx
  = Ok r ->
  Forall (fun v => 0 <= v < Z.of_nat num_functions) sequence.
Proof.
  intros Hlen Hnonneg Hrun. unfold generate_example in Hrun.
  rewrite (pad_sequences_post_short _ _ Hlen) in Hrun. cbn in Hrun.
  apply bind_Ok in Hrun as (y & Hy & _).
  apply Forall_lookup. intros i v Hv.
  rewrite Forall_lookup in Hnonneg. specialize (Hnonneg _ _ Hv). cbn in Hnonneg.
  destruct (mapM_Ok_lookup _ _ _ i v Hy) as (row & _ & Hset).
  { by apply lookup_app_l_Some. }
  apply setitem_Ok_range in Hset. rewrite length_replicate in Hset. lia.
Qed.

(** C1, as the code has it: in an example returned for a sequence of
    non-negative category codes no longer than [max_length] and a mask index
    inside it, the input matrix has [max_length] rows; among the gene rows
    the category block is all zero at exactly the masked row; every other
    gene row keeps the one-hot encoding of its category; every padding row
    carries the one-hot encoding of category 0 (a 1 in column 0), so its
    block is not all zero; and the label row at the masked index is the
    one-hot encoding of the true category. *)
Theorem generate_example_masking_invariant (sequence : list Z)
    (features : list (list npfloat)) (num_functions n_features max_length : nat)
    (idx : Z) (X : matrix) (y : list (list Z)) :
  generate_example sequence features num_functions n_features max_length idx
  = Ok ([X], [y]) ->
  (length sequence <= max_length)%nat ->
  0 <= idx < Z.of_nat (length sequence) ->
  Forall (fun v => 0 <= v) sequence ->
  length X = max_length /\
  (forall i row, (i < length sequence)%nat -> X !! i = Some row ->
     (category_block_zero num_functions row <-> Z.of_nat i = idx)) /\
  (forall i row v, sequence !! i = Some v -> X !! i = Some row ->
     Z.of_nat i <> idx ->
     take num_functions row = of_int <$> spec_one_hot num_functions v) /\
  (forall i row, (length sequence <= i)%nat -> X !! i = Some row ->
     take num_functions row = of_int <$> spec_one_hot num_functions 0 /\
     ~ category_block_zero num_functions row) /\
  (forall v, sequence !! Z.to_nat idx = Some v ->
     y !! Z.to_nat idx = Some (spec_one_hot num_functions v)).
Proof.
  intros Hrun Hlen Hidx Hnonneg.
  pose proof (generate_example_range _ _ _ _ _ _ _ Hlen Hnonneg Hrun) as Hrange.
  destruct (generate_example_rows _ _ _ _ _ _ _ _ Hlen Hidx Hrange Hrun)
    as (X' & [= <-] & [= ->] & HXlen & Hrows).
  set (padded := sequence ++ replicate (max_length - length sequence) 0) in *.
  assert (0 < num_functions)%nat as Hpos.
  { destruct sequence as [|v sequence]; [cbn in Hidx; lia|].
    apply Forall_cons in Hrange as [? _]. lia. }
  split; [exact HXlen|]. split; [|split; [|split]].
  - intros i row Hi Hrow.
    apply lookup_lt_is_Some in Hi as [v Hv].
    destruct (Hrows i v) as (row' & Hrow' & Htake & _);
      [by apply lookup_app_l_Some|].
    assert (row' = row) as -> by congruence.
    rewrite Forall_lookup in Hrange. specialize (Hrange _ _ Hv).
    destruct (decide (Z.of_nat i = idx)) as [Heq|Hne].
    + split; [done|]. intros _. by apply replicate_zero_block.
    + split; [|done]. intros Hzero.
      by apply (spec_one_hot_not_zero num_functions v row) in Hzero.
  - intros i row v Hv Hrow Hne.
    destruct (Hrows i v) as (row' & Hrow' & Htake & _);
      [by apply lookup_app_l_Some|].
    assert (row' = row) as -> by congruence.
    by rewrite decide_False in Htake.
  - intros i row Hi Hrow.
    assert (padded !! i = Some 0) as Hv.
    { subst padded. rewrite lookup_app_r by done.
      apply lookup_replicate_2. apply lookup_lt_Some in Hrow. lia. }
    destruct (Hrows i 0 Hv) as (row' & Hrow' & Htake & _).
    assert (row' = row) as -> by congruence.
    rewrite decide_False in Htake by lia. split; [done|].
    apply (spec_one_hot_not_zero num_functions 0); [lia | done].
  - intros v Hv. rewrite list_lookup_fmap.
    subst padded. by rewrite (lookup_app_l_Some _ _ _ _ Hv).
Qed.

Lemma generate_example_masking_invariant_witness :
  let X := [of_int <$> [0; 1; 0; 0; 0]; of_int <$> [0; 0; 0; 0; 0];
            of_int <$> [0; 0; 0; 1; 0]; of_int <$> [1; 0; 0; 0; 0]] in
  let y := [[0; 1; 0; 0]; [0; 0; 1; 0]; [0; 0; 0; 1]; [1; 0; 0; 0]] in
  length X = 4%nat /\
  (forall i row, (i < length [1; 2; 3])%nat -> X !! i = Some row ->
     (category_block_zero 4 row <-> Z.of_nat i = 1)) /\
  (forall i row v, [1; 2; 3] !! i = Some v -> X !! i = Some row ->
     Z.of_nat i <> 1 -> take 4 row = of_int <$> spec_one_hot 4 v) /\
  (forall i row, (length [1; 2; 3] <= i)%nat -> X !! i = Some row ->
     take 4 row = of_int <$> spec_one_hot 4 0 /\ ~ category_block_zero 4 row) /\
  (forall v, [1; 2; 3] !! Z.to_nat 1 = Some v ->
     y !! Z.to_nat 1 = Some (spec_one_hot 4 v)).
Proof.
  apply (generate_example_masking_invariant [1; 2; 3] [] 4 5 4 1).
  - reflexivity.
  - cbn. lia.
  - cbn. lia.
  - repeat constructor; lia.
Defined.

(** C1 as stated fails on the padding: with [max_length = 10], a genome of
    4 genes and mask index 2, padding row 4 has a 1 in column 0 of its
    category block. *)
Lemma generate_example_padding_not_zero :
  exists X y,
    generate_example [1; 2; 3; 2] [] 4 6 10 2 = Ok ([X], [y]) /\
    exists row, X !! 4%nat = Some row /\ ~ category_block_zero 4 row.
Proof.
  eexists. eexists. split; [vm_compute; reflexivity|].
  eexists. split; [reflexivity|].
  intros Hzero. apply (bool_decide_pack _) in Hzero.
  vm_compute in Hzero. exact Hzero.
Qed.

(** ** Mask recovery *)

(** C10: for category codes in [0, num_functions), a sequence no longer than
    [max_length] and a mask index inside it, [get_masked] applied to the
    input matrix of the returned example returns the mask index, and the
    masked row is the only row, padding included, whose first
    [num_functions] columns are all zero. *)
Theorem get_masked_recovers_idx (sequence : list Z)
    (features : list (list npfloat)) (num_functions n_features max_length : nat)
    (idx : Z) (X : matrix) (y : list (list Z)) :
  generate_example sequence features num_functions n_features max_length idx
  = Ok ([X], [y]) ->
  (length sequence <= max_length)%nat ->
  0 <= idx < Z.of_nat (length sequence) ->
  Forall (fun v => 0 <= v < Z.of_nat num_functions) sequence ->
  (exists r, get_masked X num_functions = Ok r /\ Z.of_nat r = idx) /\
  (forall i row, X !! i = Some row ->
     (category_block_zero num_functions row <-> Z.of_nat i = idx)).
Proof.
  intros Hrun Hlen Hidx Hrange.
  destruct (generate_example_rows _ _ _ _ _ _ _ _ Hlen Hidx Hrange Hrun)
    as (X' & [= <-] & _ & HXlen & Hrows).
  set (padded := sequence ++ replicate (max_length - length sequence) 0) in *.
  assert (0 < num_functions)%nat as Hpos.
  { destruct sequence as [|v sequence]; [cbn in Hidx; lia|].
    apply Forall_cons in Hrange as [? _]. lia. }
  assert (Forall (fun v => 0 <= v < Z.of_nat num_functions) padded) as Hpadded
    by by apply padded_in_range.
  assert (forall i row, X !! i = Some row ->
            (category_block_zero num_functions row <-> Z.of_nat i = idx))
    as Hunique.
  { intros i row Hrow.
    assert (i < length padded)%nat as Hi.
    { subst padded. rewrite length_app, length_replicate.
      apply lookup_lt_Some in Hrow. lia. }
    apply lookup_lt_is_Some in Hi as [v Hv].
    destruct (Hrows i v Hv) as (row' & Hrow' & Htake & _).
    assert (row' = row) as -> by congruence.
    rewrite Forall_lookup in Hpadded. specialize (Hpadded _ _ Hv).
    destruct (decide (Z.of_nat i = idx)) as [Heq|Hne].
    - split; [done|]. intros _. by apply replicate_zero_block.
    - split; [|done]. intros Hzero.
      by apply (spec_one_hot_not_zero num_functions v row) in Hzero. }
  split; [|exact Hunique].
  exists (Z.to_nat idx). split; [|lia].
  assert (exists row, X !! Z.to_nat idx = Some row) as [row Hrow]
    by (apply lookup_lt_is_Some; lia).
  unfold get_masked.
  assert (list_find (category_block_zero num_functions) X
          = Some (Z.to_nat idx, row)) as ->; [|done].
  apply list_find_Some. split; [done|]. split.
  - apply (Hunique _ _ Hrow). lia.
  - intros j row' Hrow' Hj Hzero. apply (Hunique _ _ Hrow') in Hzero. lia.
Qed.

Lemma get_masked_recovers_idx_witness :
  let X := [of_int <$> [0; 1; 0; 0; 0]; of_int <$> [0; 0; 0; 0; 0];
            of_int <$> [0; 0; 0; 1; 0]; of_int <$> [1; 0; 0; 0; 0]] in
  (exists r, get_masked X 4 = Ok r /\ Z.of_nat r = 1) /\
  (forall i row, X !! i = Some row ->
     (category_block_zero 4 row <-> Z.of_nat i = 1)).
Proof.
  apply (get_masked_recovers_idx [1; 2; 3] [] 4 5 4 1 _
           [[0; 1; 0; 0]; [0; 0; 1; 0]; [0; 0; 0; 1]; [1; 0; 0; 0]]).
  - reflexivity.
  - cbn. lia.
  - cbn. lia.
  - repeat constructor; lia.
Defined.

(** ** Rational bounds *)

Lemma inject_Z_pos (d : Z) : 0 < d -> (0 < inject_Z d)%Q.
Proof. intros Hd. change 0%Q with (inject_Z 0). by rewrite <- Zlt_Qlt. Qed.

Lemma Qdiv_int_bounds (n d lo hi : Z) :
  0 < d -> lo * d <= n <= hi * d ->
  (inject_Z lo <= inject_Z n / inject_Z d <= inject_Z hi)%Q.
Proof.
  intros Hd%inject_Z_pos [Hlo Hhi]. split.
  - apply Qle_shift_div_l; [exact Hd|].
    rewrite <- inject_Z_mult, <- Zle_Qle. exact Hlo.
  - apply Qle_shift_div_r; [exact Hd|].
    rewrite <- inject_Z_mult, <- Zle_Qle. exact Hhi.
Qed.

Lemma Qdiv_int_pos (n d : Z) :
  0 < d -> 0 < n -> (0 < inject_Z n / inject_Z d)%Q.
Proof.
  intros Hd%inject_Z_pos Hn%inject_Z_pos. apply Qlt_shift_div_l; [exact Hd|].
  by rewrite Qmult_0_l.
Qed.

(** ** format_data *)

Lemma mapM_Ok_Forall2 {A B} (f : A -> result B) (l : list A) (l' : list B) :
  mapM f l = Ok l' <-> Forall2 (fun x y => f x = Ok y) l l'.
Proof.
  revert l'. induction l as [|x l IH]; intros l'; cbn.
  - split; [intros [= <-]; constructor | by intros ->%Forall2_nil_inv_l].
  - split.
    + intros (y & Hy & H)%bind_Ok. apply bind_Ok in H as (k & Hk & [= <-]).
      constructor; [done | by apply IH].
    + intros (y & k & Hy & Hk & ->)%Forall2_cons_inv_l.
      rewrite Hy. cbn. apply IH in Hk. by rewrite Hk.
Qed.

Lemma getitem_nat_Ok {A} (l : list A) (i : nat) (x : A) :
  Py.getitem l (Z.of_nat i) = Ok x <-> l !! i = Some x.
Proof.
  split; [|apply getitem_nat].
  unfold Py.getitem, Py.norm_index. intros (k & Hk & Hx)%bind_Ok.
  destruct (decide (0 <= Z.of_nat i < Z.of_nat (length l))).
  - injection Hk as <-. rewrite Nat2Z.id in Hx.
    by destruct (l !! i); [injection Hx as -> | discriminate].
  - destruct (decide (- Z.of_nat (length l) <= Z.of_nat i < 0));
      [lia | discriminate].
Qed.

(** Row [j] of the transposed list holds entry [j] of each feature. *)
Lemma transpose_features_five {A} (n : nat) (a b c d e : list A) out :
  transpose_features n [a; b; c; d; e] = Ok out ->
  length out = n /\
  forall j row, out !! j = Some row ->
    exists x1 x2 x3 x4 x5,
      row = [x1; x2; x3; x4; x5] /\ a !! j = Some x1 /\ b !! j = Some x2 /\
      c !! j = Some x3 /\ d !! j = Some x4 /\ e !! j = Some x5.
Proof.
  unfold transpose_features. intros Hrun. split.
  - apply mapM_Ok_length in Hrun. by rewrite length_seq in Hrun.
  - intros j row Hrow.
    assert (j < n)%nat as Hj.
    { apply mapM_Ok_length in Hrun. rewrite length_seq in Hrun.
      rewrite <- Hrun. by eapply lookup_lt_Some. }
    destruct (mapM_Ok_lookup _ _ _ j j Hrun) as (row' & Hrow' & Hcols);
      [by apply lookup_seq_lt|].
    assert (row' = row) as -> by congruence.
    cbn in Hcols.
    apply bind_Ok in Hcols as (x1 & H1 & Hcols).
    apply bind_Ok in Hcols as (k1 & Hcols & [= <-]).
    apply bind_Ok in Hcols as (x2 & H2 & Hcols).
    apply bind_Ok in Hcols as (k2 & Hcols & [= <-]).
    apply bind_Ok in Hcols as (x3 & H3 & Hcols).
    apply bind_Ok in Hcols as (k3 & Hcols & [= <-]).
    apply bind_Ok in Hcols as (x4 & H4 & Hcols).
    apply bind_Ok in Hcols as (k4 & Hcols & [= <-]).
    apply bind_Ok in Hcols as (x5 & H5 & [= <-]).
    exists x1, x2, x3, x4, x5. by rewrite <- !getitem_nat_Ok.
Qed.

Lemma transpose_features_Ok {A} (n : nat) (features : list (list A)) :
  Forall (fun f => length f = n) features ->
  is_Ok (transpose_features n features).
Proof.
  intros Hlen. unfold transpose_features.
  assert (forall j, (j < n)%nat ->
            exists row, mapM (fun f => Py.getitem f (Z.of_nat j)) features = Ok row)
    as Hrow.
  { intros j Hj. induction Hlen as [|f features Hf _ IH]; [by eexists|].
    destruct IH as [row Hrow].
    assert (exists x, f !! j = Some x) as [x Hx]
      by (apply lookup_lt_is_Some; lia).
    exists (x :: row). cbn. rewrite (getitem_nat _ _ _ Hx). cbn.
    by rewrite Hrow. }
  assert (forall js, Forall (fun j => j < n)%nat js ->
            is_Ok (mapM (fun j => mapM (fun f => Py.getitem f (Z.of_nat j)) features) js))
    as Hall.
  { induction 1 as [|j js Hj _ [rows Hrows]]; [by eexists|].
    destruct (Hrow j Hj) as [row Hr].
    exists (row :: rows). cbn. rewrite Hr. cbn. by rewrite Hrows. }
  apply Hall. apply Forall_seq. intros j Hj. lia.
Qed.

Lemma strand_indicators (g : genome) :
  of_int <$> (encode_strand (strand_codes g)).1
  = (fun s => of_int (if decide (s = "+") then 0 else 1)) <$> g_sense g /\
  of_int <$> (encode_strand (strand_codes g)).2
  = (fun s => of_int (if decide (s = "+") then 1 else 0)) <$> g_sense g.
Proof.
  unfold encode_strand, strand_codes. cbn.
  rewrite <- !list_fmap_compose.
  split; apply list_fmap_ext; intros _ s _; cbn;
    by destruct (decide (s = "+")).
Qed.

Lemma np_max_Ok (l : list Z) : l <> [] -> is_Ok (np_max l).
Proof. destruct l; [done | by eexists]. Qed.

Lemma np_max_Ok_inv (l : list Z) (m : Z) : np_max l = Ok m -> l <> [].
Proof. by destruct l. Qed.

Lemma foldl_max_ge (l : list Z) (x : Z) :
  x <= foldl Z.max x l /\ Forall (fun y => y <= foldl Z.max x l) l.
Proof.
  revert x. induction l as [|y l IH]; intros x; cbn; [split; [lia | constructor]|].
  destruct (IH (Z.max x y)) as [Hx Hl]. split; [lia|].
  constructor; [lia | exact Hl].
Qed.

Lemma np_max_ge (l : list Z) (m : Z) :
  np_max l = Ok m -> Forall (fun y => y <= m) l.
Proof.
  destruct l as [|x l]; [discriminate|]. cbn. intros [= <-].
  destruct (foldl_max_ge l x). by constructor.
Qed.

(** The maximum over all arrays bounds every entry of every array. *)
Lemma max_of_maxes_ge (arrays : list (list Z)) (m : Z) :
  max_of_maxes arrays = Ok m ->
  Forall (fun l => l <> [] /\ Forall (fun y => y <= m) l) arrays.
Proof.
  unfold max_of_maxes. intros (maxes & Hmaxes & Hm)%bind_Ok.
  apply np_max_ge in Hm. apply mapM_Ok_Forall2 in Hmaxes.
  apply Forall_lookup. intros i l Hl.
  destruct (Forall2_lookup_l _ _ _ _ _ Hmaxes Hl) as (x & Hx & Hmax).
  split; [by eapply np_max_Ok_inv|].
  rewrite Forall_lookup in Hm. specialize (Hm _ _ Hx). cbn in Hm.
  eapply Forall_impl; [exact (np_max_ge _ _ Hmax)|]. intros y Hy. cbn in *. lia.
Qed.

Lemma gene_starts_nonempty (g : genome) :
  gene_lengths g <> [] -> gene_starts g <> [].
Proof.
  unfold gene_lengths, gene_starts. by destruct (g_position g).
Qed.

Lemma lookup_values {K V} (d : list (K * V)) (j : nat) (k : K) (v : V) :
  d !! j = Some (k, v) -> pydict_values d !! j = Some v.
Proof. intros Hj. unfold pydict_values. by rewrite list_lookup_fmap, Hj. Qed.

(** What [format_data] returns: the encoded categories of each genome and,
    per genome, its five feature arrays in column order. *)
Lemma format_data_inv training_data phrog_encoding encs feats :
  NoDup (pydict_keys training_data) ->
  format_data training_data phrog_encoding = Ok (encs, feats) ->
  exists max_length max_intergenic,
    dataset_max_length (pydict_values training_data) = Ok max_length /\
    dataset_max_intergenic (pydict_values training_data) = Ok max_intergenic /\
    encs = categories phrog_encoding <$> pydict_values training_data /\
    length feats = length training_data /\
    forall j g, pydict_values training_data !! j = Some g ->
      exists max_start,
        np_max (gene_starts g) = Ok max_start /\
        feats !! j
        = Some (spec_genome_features max_length max_start max_intergenic g).
Proof.
  intros Hnd. unfold format_data.
  rewrite (mapM_get_genome training_data training_data Hnd) by done. cbn.
  set (genomes := pydict_values training_data).
  intros (ml & Hml & Hrun)%bind_Ok.
  apply bind_Ok in Hrun as (mi & Hmi & Hrun).
  apply bind_Ok in Hrun as (starts & Hstarts & Hrun).
  apply bind_Ok in Hrun as (features & Hfeatures & [= <- <-]).
  exists ml, mi. split; [done|]. split; [done|]. split; [done|].
  destruct (transpose_features_five _ _ _ _ _ _ _ Hfeatures) as [Hlen Hrows].
  rewrite length_fmap in Hlen. split.
  { rewrite Hlen. unfold genomes, pydict_values. by rewrite length_fmap. }
  intros j g Hg.
  assert (j < length features)%nat as Hj by (rewrite Hlen; by eapply lookup_lt_Some).
  apply lookup_lt_is_Some in Hj as [row Hrow].
  destruct (Hrows _ _ Hrow) as (x1 & x2 & x3 & x4 & x5 & -> & H1 & H2 & H3 & H4 & H5).
  rewrite !list_lookup_fmap, Hg in H1. rewrite !list_lookup_fmap, Hg in H2.
  rewrite !list_lookup_fmap, Hg in H3. rewrite !list_lookup_fmap, Hg in H5.
  cbn in H1, H2, H3, H5.
  injection H1 as <-. injection H2 as <-. injection H3 as <-. injection H5 as <-.
  apply mapM_Ok_Forall2 in Hstarts.
  destruct (Forall2_lookup_r _ _ _ _ _ Hstarts H4) as (s & Hs & Hnorm).
  rewrite list_lookup_fmap, Hg in Hs. injection Hs as <-.
  apply bind_Ok in Hnorm as (ms & Hms & [= <-]).
  exists ms. split; [done|]. rewrite Hrow. f_equal. unfold spec_genome_features.
  destruct (strand_indicators g) as [E1 E2]. rewrite <- E1, <- E2. reflexivity.
Qed.

(** [format_data] returns as soon as the two dataset-wide maxima exist. *)
Lemma format_data_returns training_data phrog_encoding max_length max_intergenic :
  NoDup (pydict_keys training_data) ->
  dataset_max_length (pydict_values training_data) = Ok max_length ->
  dataset_max_intergenic (pydict_values training_data) = Ok max_intergenic ->
  exists encs feats, format_data training_data phrog_encoding = Ok (encs, feats).
Proof.
  intros Hnd Hml Hmi. unfold format_data.
  rewrite (mapM_get_genome training_data training_data Hnd) by done. cbn.
  set (genomes := pydict_values training_data) in *.
  rewrite Hml, Hmi. cbn.
  assert (exists starts,
            mapM (fun s => m ← np_max s; Ok ((fun x => true_divide x m) <$> s))
                 (gene_starts <$> genomes) = Ok starts) as [starts Hstarts].
  { apply max_of_maxes_ge in Hml. clear Hmi.
    induction genomes as [|g genomes IH]; [by eexists|].
    rewrite fmap_cons in Hml. apply Forall_cons in Hml as [[Hne _] Hml].
    destruct (IH Hml) as [starts Hstarts].
    destruct (np_max_Ok _ (gene_starts_nonempty g Hne)) as [m Hm].
    eexists. rewrite fmap_cons. cbn. rewrite Hm. cbn. rewrite Hstarts.
    reflexivity. }
  rewrite Hstarts. cbn.
  match goal with |- context [transpose_features ?n ?fs] =>
    destruct (transpose_features_Ok n fs) as [features Hfeatures]
  end.
  { apply mapM_Ok_length in Hstarts.
    repeat constructor; rewrite ?length_fmap in *; done. }
  rewrite Hfeatures. cbn. by eexists _, _.
Qed.

Lemma mask_row_inv (X X' : matrix) (idx : Z) (num_functions : nat) :
  mask_row X idx num_functions = Ok X' ->
  exists r row,
    X !! r = Some row /\ (num_functions <= length row)%nat /\
    X' = <[r := replicate num_functions (of_int 0) ++ drop num_functions row]> X.
Proof.
  unfold mask_row. intros (r & _ & Hrun)%bind_Ok.
  destruct (X !! r) as [row|] eqn:Hrow; [|discriminate].
  destruct (decide (num_functions <= length row)%nat); [|discriminate].
  injection Hrun as <-. by exists r, row.
Qed.

(** The feature columns of a returned example: feature [f] is in column
    [num_functions + f], on every row it has an entry for; the mask does not
    reach these columns. *)
Lemma generate_example_feature_columns (sequence : list Z)
    (features : list (list npfloat)) (num_functions n_features max_length : nat)
    (idx : Z) (X : matrix) (y : list (list Z)) :
  generate_example sequence features num_functions n_features max_length idx
  = Ok ([X], [y]) ->
  forall i row f feature x,
    X !! i = Some row -> features !! f = Some feature -> feature !! i = Some x ->
    row !! (num_functions + f)%nat = Some x.
Proof.
  unfold generate_example. intros (padded & _ & Hrun)%bind_Ok.
  apply bind_Ok in Hrun as (y0 & _ & Hrun).
  apply bind_Ok in Hrun as (X0 & HX0 & Hrun).
  apply bind_Ok in Hrun as (X1 & HX1 & Hrun).
  apply bind_Ok in Hrun as (X2 & HX2 & [= <- _]).
  destruct (one_hot_encode_width _ _ _ HX0) as [_ HX0width].
  apply astype_float64_width in HX0width.
  destruct (encode_features_rows _ _ _ _ _ HX0width HX1) as (_ & _ & HX1rows).
  apply mask_row_inv in HX2 as (r & mrow & Hmrow & Hwidth & ->).
  intros i row f feature x Hrow Hf Hx.
  destruct (decide (i = r)) as [->|Hne].
  - rewrite list_lookup_insert_eq in Hrow by (by eapply lookup_lt_Some).
    injection Hrow as <-.
    destruct (HX1rows _ _ Hmrow) as (row0 & _ & _ & Hfeat).
    rewrite lookup_app_r; rewrite length_replicate; [|lia].
    rewrite lookup_drop, <- (Hfeat f feature x Hf Hx). f_equal. lia.
  - rewrite list_lookup_insert_ne in Hrow by done.
    destruct (HX1rows _ _ Hrow) as (row0 & _ & _ & Hfeat).
    by apply (Hfeat f feature).
Qed.

(** C7, as the code has it: in an example built from the features that
    [format_data] returns for a genome, the columns after the category block
    are, in this order: at [num_functions] the indicator of strand code 1,
    which is 1 exactly at genes whose strand is not '+' (the reverse
    strand), at [num_functions + 1] the indicator of the '+' strand, then
    the length divided by the dataset-wide maximum length, the start offset
    divided by the genome's maximum start offset, and the intergenic
    distance divided by the dataset-wide maximum absolute distance. *)
Theorem feature_columns_order training_data phrog_encoding encs feats
    (j : nat) (key : string) (g : genome) (fs : list (list npfloat))
    (sequence : list Z) (num_functions n_features max_length : nat) (idx : Z)
    (X : matrix) (y : list (list Z)) :
  NoDup (pydict_keys training_data) ->
  format_data training_data phrog_encoding = Ok (encs, feats) ->
  training_data !! j = Some (key, g) ->
  feats !! j = Some fs ->
  generate_example sequence fs num_functions n_features max_length idx
  = Ok ([X], [y]) ->
  exists longest max_start max_intergenic,
    dataset_max_length (pydict_values training_data) = Ok longest /\
    np_max (gene_starts g) = Ok max_start /\
    dataset_max_intergenic (pydict_values training_data) = Ok max_intergenic /\
    forall i row, X !! i = Some row ->
      (forall s, g_sense g !! i = Some s ->
         row !! num_functions
         = Some (of_int (if decide (s = "+") then 0 else 1)) /\
         row !! (num_functions + 1)%nat
         = Some (of_int (if decide (s = "+") then 1 else 0))) /\
      (forall l, gene_lengths g !! i = Some l ->
         row !! (num_functions + 2)%nat = Some (true_divide l longest)) /\
      (forall a, gene_starts g !! i = Some a ->
         row !! (num_functions + 3)%nat = Some (true_divide a max_start)) /\
      (forall d, intergenic_distances g !! i = Some d ->
         row !! (num_functions + 4)%nat = Some (true_divide d max_intergenic)).
Proof.
  intros Hnd Hfmt Hg Hfs Hex.
  destruct (format_data_inv _ _ _ _ Hnd Hfmt)
    as (longest & mi & Hml & Hmi & _ & _ & Hfeats).
  destruct (Hfeats j g (lookup_values _ _ _ _ Hg)) as (ms & Hms & Hfs').
  assert (fs = spec_genome_features longest ms mi g) as -> by congruence.
  exists longest, ms, mi. split; [done|]. split; [done|]. split; [done|].
  pose proof (generate_example_feature_columns _ _ _ _ _ _ _ _ Hex) as Hcols.
  intros i row Hrow. unfold spec_genome_features in Hcols.
  split; [|split; [|split]].
  - intros s Hs. split.
    + rewrite <- (Nat.add_0_r num_functions).
      eapply (Hcols i row 0%nat); [done | reflexivity |].
      by rewrite list_lookup_fmap, Hs.
    + eapply (Hcols i row 1%nat); [done | reflexivity |].
      by rewrite list_lookup_fmap, Hs.
  - intros l Hl. eapply (Hcols i row 2%nat); [done | reflexivity |].
    by rewrite list_lookup_fmap, Hl.
  - intros a Ha. eapply (Hcols i row 3%nat); [done | reflexivity |].
    by rewrite list_lookup_fmap, Ha.
  - intros d Hd. eapply (Hcols i row 4%nat); [done | reflexivity |].
    by rewrite list_lookup_fmap, Hd.
Qed.

Lemma feature_columns_order_witness :
  exists X,
    (exists encs feats fs y,
       format_data sample_training_data sample_encoding = Ok (encs, feats) /\
       feats !! 0%nat = Some fs /\
       generate_example [3; 2; 1] fs 6 11 5 1 = Ok ([X], [y])) /\
    exists longest max_start max_intergenic,
      dataset_max_length (pydict_values sample_training_data) = Ok longest /\
      np_max (gene_starts genome_marker_last) = Ok max_start /\
      dataset_max_intergenic (pydict_values sample_training_data)
      = Ok max_intergenic /\
      forall i row, X !! i = Some row ->
        (forall s, g_sense genome_marker_last !! i = Some s ->
           row !! 6%nat = Some (of_int (if decide (s = "+") then 0 else 1)) /\
           row !! (6 + 1)%nat
           = Some (of_int (if decide (s = "+") then 1 else 0))) /\
        (forall l, gene_lengths genome_marker_last !! i = Some l ->
           row !! (6 + 2)%nat = Some (true_divide l longest)) /\
        (forall a, gene_starts genome_marker_last !! i = Some a ->
           row !! (6 + 3)%nat = Some (true_divide a max_start)) /\
        (forall d, intergenic_distances genome_marker_last !! i = Some d ->
           row !! (6 + 4)%nat = Some (true_divide d max_intergenic)).
Proof.
  eexists. split.
  - eexists _, _, _, _. split; [vm_compute; reflexivity|].
    split; [reflexivity|]. vm_compute. reflexivity.
  - eapply (feature_columns_order sample_training_data sample_encoding _ _
              0 "phage_A" genome_marker_last _ [3; 2; 1] 6 11 5 1).
    + exact sample_training_data_keys.
    + vm_compute. reflexivity.
    + reflexivity.
    + reflexivity.
    + vm_compute. reflexivity.
Defined.

(** C7 as stated fails: the column at [num_functions] is not the forward
    indicator. For a genome whose first gene is on the '+' strand that
    column holds 0 on the first row. *)
Lemma strand_columns_not_forward_first :
  exists encs fs X y,
    format_data [("phage_A", genome_marker_last)] sample_encoding
    = Ok (encs, [fs]) /\
    generate_example [3; 2; 1] fs 6 11 5 1 = Ok ([X], [y]) /\
    ~ spec_forward_first 6 genome_marker_last X.
Proof.
  eexists _, _, _, _. split; [vm_compute; reflexivity|].
  split; [vm_compute; reflexivity|].
  intros Hlayout.
  destruct (Hlayout 0%nat "+" _ eq_refl eq_refl) as [[_ Hforward] _].
  specialize (Hforward eq_refl). vm_compute in Hforward. discriminate Hforward.
Qed.

(** ** Normalization *)

Lemma true_divide_finite (n d : Z) :
  d <> 0 -> true_divide n d = Finite (inject_Z n / inject_Z d).
Proof. intros Hd. unfold true_divide. by rewrite decide_False. Qed.

Lemma true_divide_unit (n d : Z) :
  0 <= n <= d -> d <> 0 -> float_in 0 1 (true_divide n d).
Proof.
  intros Hn Hd. rewrite true_divide_finite by exact Hd.
  apply (Qdiv_int_bounds n d 0 1); lia.
Qed.

Lemma true_divide_positive_unit (n d : Z) :
  1 <= n <= d -> float_in_open_closed 0 1 (true_divide n d).
Proof.
  intros Hn. rewrite true_divide_finite by lia. split.
  - apply Qdiv_int_pos; lia.
  - apply (Qdiv_int_bounds n d 0 1); lia.
Qed.

Lemma true_divide_signed_unit (n d : Z) :
  Z.abs n <= d -> d <> 0 -> float_in (-1) 1 (true_divide n d).
Proof.
  intros Hn Hd. rewrite true_divide_finite by exact Hd.
  apply (Qdiv_int_bounds n d (-1) 1); lia.
Qed.

(** Start offsets of a genome with non-decreasing starts are at least 1. *)
Lemma gene_starts_positive (g : genome) :
  Sorted Z.le (fst <$> g_position g) ->
  Forall (fun a => 1 <= a) (gene_starts g).
Proof.
  unfold gene_starts. destruct (g_position g) as [|first rest]; [constructor|].
  intros Hsorted%Sorted_StronglySorted; [|intros ???; lia].
  rewrite fmap_cons in Hsorted. apply StronglySorted_inv in Hsorted as [_ Hrest].
  rewrite fmap_cons. constructor; [lia|].
  apply Forall_fmap. rewrite Forall_fmap in Hrest.
  eapply Forall_impl; [exact Hrest|]. intros span Hspan. cbn in *. lia.
Qed.

Lemma gene_lengths_nonneg (g : genome) :
  Forall (fun span => span.1 <= span.2) (g_position g) ->
  Forall (fun l => 0 <= l) (gene_lengths g).
Proof.
  intros Hspans. unfold gene_lengths. apply Forall_fmap.
  eapply Forall_impl; [exact Hspans|]. intros span Hspan. cbn in *. lia.
Qed.

Lemma dataset_max_length_ge (genomes : list genome) (longest : Z) (g : genome) :
  dataset_max_length genomes = Ok longest -> g ∈ genomes ->
  Forall (fun l => l <= longest) (gene_lengths g).
Proof.
  intros Hmax%max_of_maxes_ge Hg. rewrite Forall_fmap, Forall_forall in Hmax.
  by destruct (Hmax g Hg).
Qed.

Lemma dataset_max_intergenic_ge (genomes : list genome) (widest : Z) (g : genome) :
  dataset_max_intergenic genomes = Ok widest -> g ∈ genomes ->
  Forall (fun d => Z.abs d <= widest) (intergenic_distances g).
Proof.
  intros Hmax%max_of_maxes_ge Hg. rewrite !Forall_fmap, Forall_forall in Hmax.
  destruct (Hmax g Hg) as [_ Hall]. unfold compose in Hall.
  rewrite Forall_fmap in Hall. exact Hall.
Qed.

(** With both denominators in hand, every returned feature list is the
    feature list of some genome of the dataset. *)
Lemma format_data_features training_data phrog_encoding longest widest :
  NoDup (pydict_keys training_data) ->
  dataset_max_length (pydict_values training_data) = Ok longest ->
  dataset_max_intergenic (pydict_values training_data) = Ok widest ->
  exists encs feats,
    format_data training_data phrog_encoding = Ok (encs, feats) /\
    length feats = length training_data /\
    forall j fs, feats !! j = Some fs ->
      exists key g max_start,
        training_data !! j = Some (key, g) /\
        np_max (gene_starts g) = Ok max_start /\
        fs = spec_genome_features longest max_start widest g.
Proof.
  intros Hnd Hml Hmi.
  destruct (format_data_returns _ phrog_encoding _ _ Hnd Hml Hmi)
    as (encs & feats & Hrun).
  exists encs, feats. split; [exact Hrun|].
  destruct (format_data_inv _ _ _ _ Hnd Hrun)
    as (ml' & mi' & Hml' & Hmi' & _ & Hlen & Hfeats).
  assert (ml' = longest) as -> by congruence.
  assert (mi' = widest) as -> by congruence.
  split; [exact Hlen|]. intros j fs Hfs.
  assert (j < length training_data)%nat as Hj
    by (rewrite <- Hlen; by eapply lookup_lt_Some).
  apply lookup_lt_is_Some in Hj as [[key g] Hg].
  destruct (Hfeats j g (lookup_values _ _ _ _ Hg)) as (ms & Hms & Hfs').
  exists key, g, ms. split; [done|]. split; [done|]. congruence.
Qed.

(** C8, as the code has it: for genomes with start <= end in every span,
    non-decreasing starts and no gene end beyond the genome length, and when
    neither dataset-wide denominator (maximum gene length, maximum absolute
    intergenic distance) is 0, [format_data] returns and every length value
    lies in [0,1], every start value in (0,1] and every intergenic value in
    [-1,1]. *)
Theorem normalization_bounds training_data phrog_encoding longest widest :
  NoDup (pydict_keys training_data) ->
  (forall g, g ∈ pydict_values training_data -> spec_genome_record g) ->
  dataset_max_length (pydict_values training_data) = Ok longest ->
  longest <> 0 ->
  dataset_max_intergenic (pydict_values training_data) = Ok widest ->
  widest <> 0 ->
  exists encs feats,
    format_data training_data phrog_encoding = Ok (encs, feats) /\
    forall fs, fs ∈ feats ->
      exists strand1 strand2 lengths starts intergenic,
        fs = [strand1; strand2; lengths; starts; intergenic] /\
        Forall (float_in 0 1) lengths /\
        Forall (float_in_open_closed 0 1) starts /\
        Forall (float_in (-1) 1) intergenic.
Proof.
  intros Hnd Hrecords Hml Hml0 Hmi Hmi0.
  destruct (format_data_features _ phrog_encoding _ _ Hnd Hml Hmi)
    as (encs & feats & Hrun & _ & Hfeats).
  exists encs, feats. split; [exact Hrun|].
  intros fs [j Hfs]%list_elem_of_lookup.
  destruct (Hfeats j fs Hfs) as (key & g & ms & Hg & Hms & ->).
  assert (g ∈ pydict_values training_data) as Hin.
  { apply list_elem_of_lookup. exists j. by eapply lookup_values. }
  destruct (Hrecords g Hin) as (Hspans & Hsorted & _).
  eexists _, _, _, _, _. split; [reflexivity|]. split; [|split].
  - apply Forall_fmap.
    pose proof (gene_lengths_nonneg g Hspans) as Hlo.
    pose proof (dataset_max_length_ge _ _ g Hml Hin) as Hhi.
    apply Forall_lookup. intros i l Hl. cbn.
    rewrite Forall_lookup in Hlo, Hhi.
    specialize (Hlo _ _ Hl). specialize (Hhi _ _ Hl). cbn in *.
    apply true_divide_unit; lia.
  - apply Forall_fmap.
    pose proof (gene_starts_positive g Hsorted) as Hlo.
    pose proof (np_max_ge _ _ Hms) as Hhi.
    apply Forall_lookup. intros i a Ha. cbn.
    rewrite Forall_lookup in Hlo, Hhi.
    specialize (Hlo _ _ Ha). specialize (Hhi _ _ Ha). cbn in *.
    apply true_divide_positive_unit; lia.
  - apply Forall_fmap.
    pose proof (dataset_max_intergenic_ge _ _ g Hmi Hin) as Hhi.
    apply Forall_lookup. intros i d Hd. cbn.
    rewrite Forall_lookup in Hhi. specialize (Hhi _ _ Hd). cbn in *.
    apply true_divide_signed_unit; lia.
Qed.

Lemma sample_training_data_records g :
  g ∈ pydict_values sample_training_data -> spec_genome_record g.
Proof.
  unfold sample_training_data, pydict_values. rewrite !fmap_cons. cbn [snd].
  intros Hin.
  repeat (apply elem_of_cons in Hin as [->|Hin];
          [repeat constructor; cbn; lia|]).
  by apply elem_of_nil in Hin.
Qed.

Lemma normalization_bounds_witness :
  exists encs feats,
    format_data sample_training_data sample_encoding = Ok (encs, feats) /\
    forall fs, fs ∈ feats ->
      exists strand1 strand2 lengths starts intergenic,
        fs = [strand1; strand2; lengths; starts; intergenic] /\
        Forall (float_in 0 1) lengths /\
        Forall (float_in_open_closed 0 1) starts /\
        Forall (float_in (-1) 1) intergenic.
Proof.
  apply (normalization_bounds sample_training_data sample_encoding 10 10).
  - exact sample_training_data_keys.
  - exact sample_training_data_records.
  - reflexivity.
  - lia.
  - reflexivity.
  - lia.
Defined.

(** C8 as stated fails: a dataset of one genome with one gene satisfies the
    record invariant, yet its intergenic feature is [nan] (0/0), which is
    not in [-1,1]. *)
Lemma single_gene_intergenic_nan :
  spec_genome_record genome_single_gene /\
  exists encs fs intergenic,
    format_data sample_single_gene sample_encoding = Ok (encs, [fs]) /\
    fs !! 4%nat = Some intergenic /\
    ~ Forall (float_in (-1) 1) intergenic.
Proof.
  split; [repeat constructor; cbn; lia|].
  eexists _, _, _. split; [vm_compute; reflexivity|].
  split; [reflexivity|].
  intros Hall. apply Forall_cons in Hall as [Hnan _]. exact Hnan.
Qed.

(** C6, as the code has it: whenever the two dataset-wide maxima exist (the
    dataset is not empty and every genome has a gene), [format_data] returns
    without raising, also when a maximum is 0; but the scaling is then not
    the identity: with maximum gene length 0 every length value is [nan]
    where the raw length is 0 and [-inf] where it is negative, and with
    maximum absolute intergenic distance 0 every intergenic value is
    [nan]. *)
Theorem zero_denominator_gives_nan training_data phrog_encoding longest widest :
  NoDup (pydict_keys training_data) ->
  dataset_max_length (pydict_values training_data) = Ok longest ->
  dataset_max_intergenic (pydict_values training_data) = Ok widest ->
  exists encs feats,
    format_data training_data phrog_encoding = Ok (encs, feats) /\
    forall j key g fs,
      training_data !! j = Some (key, g) -> feats !! j = Some fs ->
      (longest = 0 ->
       fs !! 2%nat
       = Some ((fun l => if decide (l = 0) then NaN else NegInf) <$> gene_lengths g)) /\
      (widest = 0 ->
       fs !! 4%nat = Some ((fun _ => NaN) <$> intergenic_distances g)).
Proof.
  intros Hnd Hml Hmi.
  destruct (format_data_features _ phrog_encoding _ _ Hnd Hml Hmi)
    as (encs & feats & Hrun & _ & Hfeats).
  exists encs, feats. split; [exact Hrun|].
  intros j key g fs Hg Hfs.
  destruct (Hfeats j fs Hfs) as (key' & g' & ms & Hg' & _ & ->).
  assert (g' = g) as -> by congruence.
  assert (g ∈ pydict_values training_data) as Hin.
  { apply list_elem_of_lookup. exists j. by eapply lookup_values. }
  split; intros ->.
  - change (spec_genome_features 0 ms widest g !! 2%nat)
      with (Some ((fun x => true_divide x 0) <$> gene_lengths g)).
    f_equal. apply list_fmap_ext. intros i x Hx.
    pose proof (dataset_max_length_ge _ _ g Hml Hin) as Hhi.
    rewrite Forall_lookup in Hhi. specialize (Hhi _ _ Hx). cbn in Hhi.
    unfold true_divide. rewrite decide_True by reflexivity.
    rewrite decide_False by lia.
    destruct (decide (x = 0)) as [->|Hne]; [reflexivity|].
    by rewrite decide_True by lia.
  - change (spec_genome_features longest ms 0 g !! 4%nat)
      with (Some ((fun x => true_divide x 0) <$> intergenic_distances g)).
    f_equal. apply list_fmap_ext. intros i x Hx.
    pose proof (dataset_max_intergenic_ge _ _ g Hmi Hin) as Hhi.
    rewrite Forall_lookup in Hhi. specialize (Hhi _ _ Hx). cbn in Hhi.
    assert (x = 0) as -> by lia. reflexivity.
Qed.

Lemma sample_zero_lengths_keys : NoDup (pydict_keys sample_zero_lengths).
Proof. refine (bool_decide_unpack _ _). vm_compute. exact I. Qed.

Lemma zero_denominator_gives_nan_witness :
  exists encs feats,
    format_data sample_zero_lengths sample_encoding = Ok (encs, feats) /\
    forall j key g fs,
      sample_zero_lengths !! j = Some (key, g) -> feats !! j = Some fs ->
      (0 = 0 ->
       fs !! 2%nat
       = Some ((fun l => if decide (l = 0) then NaN else NegInf) <$> gene_lengths g)) /\
      (4 = 0 ->
       fs !! 4%nat = Some ((fun _ => NaN) <$> intergenic_distances g)).
Proof.
  apply (zero_denominator_gives_nan sample_zero_lengths sample_encoding 0 4).
  - exact sample_zero_lengths_keys.
  - reflexivity.
  - reflexivity.
Defined.

(** C6 as stated fails: when every gene length is 0 the denominator is 0
    and the length feature is not left as it was, it becomes [nan]. *)
Lemma zero_lengths_not_identity :
  dataset_max_length (pydict_values sample_zero_lengths) = Ok 0 /\
  exists encs fs,
    format_data sample_zero_lengths sample_encoding = Ok (encs, [fs]) /\
    fs !! 2%nat = Some [NaN; NaN] /\
    fs !! 2%nat <> Some (of_int <$> gene_lengths genome_zero_lengths).
Proof.
  split; [reflexivity|].
  eexists _, _. split; [vm_compute; reflexivity|].
  split; [reflexivity | discriminate].
Qed.

(** ** The uniform sampler *)

Section redraw_loop.
Variable draws : nat -> nat.
Variable sequence : list Z.
Hypothesis two_genes : (2 <= length sequence)%nat.

Lemma randint_drawn_index (cursor : nat) :
  randint draws 1 (Z.of_nat (length sequence) - 1) cursor
  = Ok (drawn_index draws (length sequence) cursor, S cursor).
Proof.
  unfold randint, drawn_index. rewrite decide_True by lia.
  do 4 f_equal. lia.
Qed.

Lemma drawn_index_range (cursor : nat) :
  1 <= drawn_index draws (length sequence) cursor < Z.of_nat (length sequence).
Proof.
  unfold drawn_index.
  pose proof (Z.mod_pos_bound (Z.of_nat (draws cursor))
                (Z.of_nat (length sequence) - 1)) as Hmod.
  lia.
Qed.

Lemma getitem_in_range (idx : Z) :
  1 <= idx < Z.of_nat (length sequence) ->
  exists v, sequence !! Z.to_nat idx = Some v /\ Py.getitem sequence idx = Ok v.
Proof.
  intros Hidx.
  assert (exists v, sequence !! Z.to_nat idx = Some v) as [v Hv]
    by (apply lookup_lt_is_Some; lia).
  exists v. split; [exact Hv|].
  rewrite <- (Z2Nat.id idx) by lia. by apply getitem_nat.
Qed.

(** One turn of the loop. *)
Lemma redraw_step (fuel : nat) (idx : Z) (cursor : nat) :
  1 <= idx < Z.of_nat (length sequence) ->
  redraw (S fuel) draws sequence idx cursor =
  if decide (sequence !! Z.to_nat idx = Some 0)
  then redraw fuel draws sequence
         (drawn_index draws (length sequence) cursor) (S cursor)
  else Some (Ok (idx, cursor)).
Proof.
  intros Hidx. destruct (getitem_in_range idx Hidx) as (v & Hv & Hget).
  cbn [redraw]. rewrite Hget, randint_drawn_index, Hv.
  destruct (decide (v = 0)) as [->|Hne].
  - by rewrite decide_True.
  - rewrite decide_False; [reflexivity | congruence].
Qed.

Lemma redraw_returns_hit (fuel : nat) (idx : Z) (cursor : nat) r :
  1 <= idx < Z.of_nat (length sequence) ->
  redraw fuel draws sequence idx cursor = Some r ->
  sequence !! Z.to_nat idx <> Some 0 \/
  exists k, sequence !! Z.to_nat (drawn_index draws (length sequence) (cursor + k))
            <> Some 0.
Proof.
  revert idx cursor. induction fuel as [|fuel IH]; intros idx cursor Hidx;
    [discriminate|].
  rewrite redraw_step by exact Hidx.
  destruct (decide (sequence !! Z.to_nat idx = Some 0)) as [Hzero|Hhit];
    [|by left].
  intros Hrun. right.
  destruct (IH _ _ (drawn_index_range cursor) Hrun) as [Hhit|[k Hhit]].
  - exists 0%nat. by rewrite Nat.add_0_r.
  - exists (S k). by replace (cursor + S k)%nat with (S cursor + k)%nat by lia.
Qed.

Lemma redraw_hit_returns (k : nat) (idx : Z) (cursor : nat) :
  1 <= idx < Z.of_nat (length sequence) ->
  sequence !! Z.to_nat (drawn_index draws (length sequence) (cursor + k))
    <> Some 0 ->
  exists fuel idx' cursor',
    redraw fuel draws sequence idx cursor = Some (Ok (idx', cursor')).
Proof.
  revert idx cursor. induction k as [|k IH]; intros idx cursor Hidx Hhit.
  - rewrite Nat.add_0_r in Hhit.
    destruct (decide (sequence !! Z.to_nat idx = Some 0)) as [Hzero|Hnow].
    + exists 2%nat. eexists _, _. rewrite redraw_step by exact Hidx.
      rewrite decide_True by exact Hzero.
      rewrite redraw_step by apply drawn_index_range.
      by rewrite decide_False.
    + exists 1%nat. eexists _, _. rewrite redraw_step by exact Hidx.
      by rewrite decide_False.
  - destruct (decide (sequence !! Z.to_nat idx = Some 0)) as [Hzero|Hnow].
    + destruct (IH (drawn_index draws (length sequence) cursor) (S cursor))
        as (fuel & idx' & cursor' & Hrun); [apply drawn_index_range | |].
      { by replace (S cursor + k)%nat with (cursor + S k)%nat by lia. }
      exists (S fuel), idx', cursor'. rewrite redraw_step by exact Hidx.
      by rewrite decide_True.
    + exists 1%nat. eexists _, _. rewrite redraw_step by exact Hidx.
      by rewrite decide_False.
Qed.

(** The draw-and-redraw of one genome returns exactly when some draw lands
    on a position whose category is not 0. *)
Lemma choose_mask_index_returns_iff (cursor : nat) :
  (exists fuel idx cursor',
     choose_mask_index fuel draws sequence cursor = Some (Ok (idx, cursor')))
  <->
  exists k, sequence !! Z.to_nat (drawn_index draws (length sequence) (cursor + k))
            <> Some 0.
Proof.
  unfold choose_mask_index. rewrite randint_drawn_index. split.
  - intros (fuel & idx & cursor' & Hrun).
    destruct (redraw_returns_hit _ _ _ _ (drawn_index_range cursor) Hrun)
      as [Hhit|[k Hhit]].
    + exists 0%nat. by rewrite Nat.add_0_r.
    + exists (S k). by replace (cursor + S k)%nat with (S cursor + k)%nat by lia.
  - intros [[|k] Hhit].
    + rewrite Nat.add_0_r in Hhit. exists 1%nat. eexists _, _.
      rewrite redraw_step by apply drawn_index_range. by rewrite decide_False.
    + apply (redraw_hit_returns k); [apply drawn_index_range|].
      by replace (S cursor + k)%nat with (cursor + S k)%nat by lia.
Qed.

(** Without an eligible position the loop runs out of any fuel. *)
Lemma choose_mask_index_diverges (fuel cursor : nat) :
  spec_no_eligible_position sequence ->
  choose_mask_index fuel draws sequence cursor = None.
Proof.
  intros Hzero.
  destruct (choose_mask_index fuel draws sequence cursor) as [r|] eqn:Hrun;
    [|reflexivity].
  exfalso. unfold choose_mask_index in Hrun. rewrite randint_drawn_index in Hrun.
  assert (forall c, sequence !! Z.to_nat (drawn_index draws (length sequence) c)
                    = Some 0) as Hall.
  { intros c. pose proof (drawn_index_range c) as Hc.
    destruct (getitem_in_range _ Hc) as (v & Hv & _).
    rewrite Hv. f_equal. apply (Hzero (Z.to_nat (drawn_index draws (length sequence) c))); [lia | done]. }
  destruct (redraw_returns_hit _ _ _ _ (drawn_index_range cursor) Hrun)
    as [Hhit|[k Hhit]]; apply Hhit, Hall.
Qed.
End redraw_loop.

(** A dataset run that returns has drawn a mask index for every genome. *)
Lemma generate_dataset_loop_returns (fuel : nat) (draws : nat -> nat)
    (sequences : list (list Z)) all_features
    (num_functions n_features max_length : nat)
    (todo : list nat) (acc : dataset) (cursor : nat) (r : dataset) :
  generate_dataset_loop fuel draws sequences all_features num_functions
    n_features max_length todo acc cursor = Some (Ok r) ->
  forall i sequence, i ∈ todo -> sequences !! i = Some sequence ->
    exists cursor' chosen,
      choose_mask_index fuel draws sequence cursor' = Some (Ok chosen).
Proof.
  revert acc cursor. induction todo as [|i0 todo IH]; intros acc cursor Hrun.
  - intros i sequence []%elem_of_nil.
  - cbn [generate_dataset_loop] in Hrun.
    destruct (sequences !! i0) as [sequence0|] eqn:Hseq0; [|discriminate].
    destruct (choose_mask_index fuel draws sequence0 cursor)
      as [[[idx cursor']|e]|] eqn:Hchoose; [|discriminate..].
    match type of Hrun with
    | match ?step with _ => _ end = _ => destruct step as [acc'|e]
    end; [|discriminate].
    intros i sequence [->|Hin]%elem_of_cons Hseq.
    + assert (sequence = sequence0) as -> by congruence. by eexists _, _.
    + by apply (IH _ _ Hrun i).
Qed.

Lemma generate_dataset_never_returns (fuel : nat) (draws : nat -> nat)
    (sequences : list (list Z)) all_features
    (num_functions n_features max_length : nat) (sequence : list Z) r :
  (2 <= length sequence)%nat ->
  spec_no_eligible_position sequence ->
  sequence ∈ sequences ->
  generate_dataset fuel draws sequences all_features num_functions n_features
    max_length <> Some (Ok r).
Proof.
  intros Hlen Hzero [i Hi]%list_elem_of_lookup. unfold generate_dataset.
  destruct (generate_dataset_loop _ _ _ _ _ _ _ _ _ _) as [[acc|e]|] eqn:Hrun;
    [|discriminate..].
  intros _.
  destruct (generate_dataset_loop_returns _ _ _ _ _ _ _ _ _ _ _ Hrun i sequence)
    as (cursor' & chosen & Hchoose); [|done|].
  - apply elem_of_seq. apply lookup_lt_Some in Hi. lia.
  - by rewrite choose_mask_index_diverges in Hchoose.
Qed.

Lemma generate_dataset_first_diverges (fuel : nat) (draws : nat -> nat)
    (sequence : list Z) (rest : list (list Z)) all_features
    (num_functions n_features max_length : nat) :
  (2 <= length sequence)%nat ->
  spec_no_eligible_position sequence ->
  generate_dataset fuel draws (sequence :: rest) all_features num_functions
    n_features max_length = None.
Proof.
  intros Hlen Hzero. unfold generate_dataset.
  cbn [length seq generate_dataset_loop lookup list_lookup].
  by rewrite choose_mask_index_diverges.
Qed.

(** X28: the redraw loop in general. There is no cap on redraws and no genome
    is excluded. For a genome of at least two genes the draw of the mask index
    returns exactly when some draw lands on a position whose category is
    not 0; on a genome whose positions 1..len-1 all carry category 0 it
    returns for no amount of fuel, so [generate_dataset] never returns a
    dataset that contains such a genome, and runs forever when it is the
    first one. *)
Theorem uniform_sampler_termination (draws : nat -> nat) (sequence : list Z) :
  (2 <= length sequence)%nat ->
  (forall cursor,
     (exists fuel idx cursor',
        choose_mask_index fuel draws sequence cursor = Some (Ok (idx, cursor')))
     <->
     exists k, sequence !! Z.to_nat (drawn_index draws (length sequence) (cursor + k))
               <> Some 0) /\
  (spec_no_eligible_position sequence ->
   (forall fuel rest all_features num_functions n_features max_length,
      generate_dataset fuel draws (sequence :: rest) all_features
        num_functions n_features max_length = None) /\
   (forall fuel sequences all_features num_functions n_features max_length r,
      sequence ∈ sequences ->
      generate_dataset fuel draws sequences all_features
        num_functions n_features max_length <> Some (Ok r))).
Proof.
  intros Hlen. split.
  - intros cursor. by apply choose_mask_index_returns_iff.
  - intros Hzero. split.
    + intros. by apply generate_dataset_first_diverges.
    + intros. by apply (generate_dataset_never_returns _ _ _ _ _ _ _ sequence).
Qed.

Lemma uniform_sampler_termination_witness :
  (2 <= length [1; 0; 2])%nat /\
  (forall cursor,
     (exists fuel idx cursor',
        choose_mask_index fuel (fun n => n) [1; 0; 2] cursor
        = Some (Ok (idx, cursor')))
     <->
     exists k, [1; 0; 2] !! Z.to_nat (drawn_index (fun n => n) 3 (cursor + k))
               <> Some 0) /\
  (spec_no_eligible_position [1; 0; 2] ->
   (forall fuel rest all_features num_functions n_features max_length,
      generate_dataset fuel (fun n => n) ([1; 0; 2] :: rest) all_features
        num_functions n_features max_length = None) /\
   (forall fuel sequences all_features num_functions n_features max_length r,
      [1; 0; 2] ∈ sequences ->
      generate_dataset fuel (fun n => n) sequences all_features
        num_functions n_features max_length <> Some (Ok r))).
Proof.
  assert (2 <= length [1; 0; 2])%nat as Hlen by (cbn; lia).
  split; [exact Hlen|].
  exact (uniform_sampler_termination (fun n => n) [1; 0; 2] Hlen).
Defined.

(** C5, the code on the failing input: on the dataset [[1,0,0]], whose only
    genome carries category 0 at positions 1 and 2, [generate_dataset]
    neither returns nor raises for any amount of fuel, whatever the random
    draws. The redraw loop never exits, where the claim asks the sampler to
    terminate by capping the attempts or excluding the genome. *)
Theorem generate_dataset_loops_forever :
  forall (draws : nat -> nat) (fuel : nat),
    generate_dataset fuel draws [[1; 0; 0]] [[]] 2 2 3 = None.
Proof.
  intros draws fuel.
  apply generate_dataset_first_diverges; [cbn; lia|].
  intros [|[|[|p]]] v Hp Hv; [lia | | | by rewrite !lookup_cons, lookup_nil in Hv];
    by injection Hv as <-.
Qed.

(** * Further properties of the code *)

(** ** Decoding a one-hot encoding *)

Lemma argmax_from_zeros (best_index : nat) (best : Z) (i m : nat) (l : list Z) :
  0 <= best ->
  argmax_from best_index best i (replicate m 0 ++ l)
  = argmax_from best_index best (i + m) l.
Proof.
  intros Hbest. revert i. induction m as [|m IH]; intros i; cbn.
  - by rewrite Nat.add_0_r.
  - rewrite decide_False by lia. rewrite IH. f_equal. lia.
Qed.

Lemma argmax_from_zeros_end (best_index : nat) (best : Z) (i m : nat) :
  0 <= best -> argmax_from best_index best i (replicate m 0) = best_index.
Proof.
  intros Hbest. rewrite <- (app_nil_r (replicate m 0)).
  by rewrite argmax_from_zeros.
Qed.

Lemma spec_one_hot_split (n : nat) (v : Z) :
  0 <= v < Z.of_nat n ->
  spec_one_hot n v
  = replicate (Z.to_nat v) 0 ++ 1 :: replicate (n - S (Z.to_nat v)) 0.
Proof.
  intros Hv. unfold spec_one_hot.
  replace n with (Z.to_nat v + S (n - S (Z.to_nat v)))%nat at 1 by lia.
  rewrite replicate_add. cbn [replicate].
  rewrite insert_app_r_alt; rewrite length_replicate; [|lia].
  by rewrite Nat.sub_diag.
Qed.

Lemma np_argmax_one_hot (n : nat) (v : Z) :
  0 <= v < Z.of_nat n -> np_argmax (spec_one_hot n v) = Ok (Z.to_nat v).
Proof.
  intros Hv. rewrite spec_one_hot_split by exact Hv.
  destruct (Z.to_nat v) as [|k] eqn:Hk; cbn.
  - by rewrite argmax_from_zeros_end.
  - rewrite argmax_from_zeros by lia. cbn.
    rewrite decide_True by lia. rewrite argmax_from_zeros_end by lia.
    f_equal.
Qed.

(** X1: decoding the one-hot encoding of a sequence of categories in
    [0, n_features) gives the sequence back. *)
Theorem one_hot_decode_encode (sequence : list Z) (n_features : nat) :
  Forall (fun v => 0 <= v < Z.of_nat n_features) sequence ->
  one_hot_encode sequence n_features ≫= one_hot_decode
  = Ok (Z.to_nat <$> sequence).
Proof.
  intros Hrange. rewrite (one_hot_encode_in_range _ _ Hrange). cbn.
  unfold one_hot_decode.
  induction Hrange as [|v sequence Hv _ IH]; [reflexivity|].
  rewrite !fmap_cons. cbn. rewrite np_argmax_one_hot by exact Hv. cbn.
  by rewrite IH.
Qed.

Lemma one_hot_decode_encode_witness :
  one_hot_encode [3; 0; 2] 4 ≫= one_hot_decode = Ok (Z.to_nat <$> [3; 0; 2]).
Proof.
  apply (one_hot_decode_encode [3; 0; 2] 4). repeat constructor; lia.
Defined.

(** ** When the encoders return *)

Lemma setitem_one_hot_wrap (n : nat) (v : Z) (row : list Z) :
  Py.setitem (replicate n 0) v 1 = Ok row <->
  - Z.of_nat n <= v < Z.of_nat n /\ row = spec_one_hot n (v mod Z.of_nat n).
Proof.
  unfold Py.setitem, Py.norm_index. rewrite length_replicate.
  destruct (decide (0 <= v < Z.of_nat n)) as [Hv|Hv]; cbn.
  - rewrite Z.mod_small by exact Hv. unfold spec_one_hot.
    split; [intros [= <-]; split; [lia | done] | by intros [_ ->]].
  - destruct (decide (- Z.of_nat n <= v < 0)) as [Hneg|Hneg]; cbn.
    + replace (v mod Z.of_nat n) with (Z.of_nat n + v).
      * unfold spec_one_hot.
        split; [intros [= <-]; split; [lia | done] | by intros [_ ->]].
      * symmetry. rewrite <- (Z.mod_small (Z.of_nat n + v) (Z.of_nat n)) by lia.
        rewrite <- Zplus_mod_idemp_l, Z_mod_same_full. reflexivity.
    + split; [discriminate | intros [? _]; lia].
Qed.

Lemma one_hot_encode_returns (sequence : list Z) (n_features : nat) :
  is_Ok (one_hot_encode sequence n_features) <->
  Forall (fun v => - Z.of_nat n_features <= v < Z.of_nat n_features) sequence.
Proof.
  unfold one_hot_encode, is_Ok.
  induction sequence as [|v sequence IH]; cbn.
  - split; [constructor | by eexists].
  - rewrite Forall_cons. split.
    + intros [encoding (row & Hrow & H)%bind_Ok].
      apply bind_Ok in H as (rest & Hrest & _).
      apply setitem_one_hot_wrap in Hrow as [Hv _].
      split; [exact Hv | apply IH; by eexists].
    + intros [Hv [rest Hrest]%IH].
      rewrite (proj2 (setitem_one_hot_wrap n_features v _) (conj Hv eq_refl)).
      cbn. rewrite Hrest. cbn. by eexists.
Qed.

(** X2: [one_hot_encode] returns exactly when every value is a valid Python
    subscript of a vector of [n_features] entries, that is lies in
    [-n_features, n_features); a negative value -k is then encoded like
    n_features - k. Any other value raises. *)
Theorem one_hot_encode_Ok_iff (sequence : list Z) (n_features : nat)
    (encoding : list (list Z)) :
  one_hot_encode sequence n_features = Ok encoding <->
  Forall (fun v => - Z.of_nat n_features <= v < Z.of_nat n_features) sequence /\
  encoding = (fun v => spec_one_hot n_features (v mod Z.of_nat n_features))
             <$> sequence.
Proof.
  unfold one_hot_encode. rewrite mapM_Ok_Forall2.
  revert encoding. induction sequence as [|v sequence IH]; intros encoding.
  - split.
    + intros ->%Forall2_nil_inv_l. by split.
    + intros [_ ->]. constructor.
  - split.
    + intros (row & rest & Hrow & Hrest & ->)%Forall2_cons_inv_l.
      apply setitem_one_hot_wrap in Hrow as [Hv ->].
      apply IH in Hrest as [Hall ->]. split; [by constructor | done].
    + intros [[Hv Hall]%Forall_cons ->]. rewrite fmap_cons. constructor.
      * by apply setitem_one_hot_wrap.
      * by apply IH.
Qed.

Lemma pad_sequences_post_length (sequence padded : list Z) (maxlen : nat) :
  pad_sequences_post sequence maxlen = Ok padded -> length padded = maxlen.
Proof.
  unfold pad_sequences_post.
  destruct maxlen as [|m].
  - destruct sequence as [|? [|? ?]]; [by intros [= <-]..|discriminate].
  - intros [= <-]. rewrite length_app, length_replicate, length_drop. lia.
Qed.

Lemma encode_feature_Ok_iff (X : list (list npfloat)) (feature : list npfloat)
    (column width : nat) :
  Forall (fun row => length row = width) X ->
  is_Ok (encode_feature X feature column) <->
  X <> [] /\ (column < width)%nat /\ (length feature <= length X)%nat.
Proof.
  intros Hwidth. unfold encode_feature.
  destruct X as [|row0 X0] eqn:HX.
  - split; [intros [? [=]] | by intros [? _]].
  - rewrite <- HX in *.
    assert (length row0 = width) as ->.
    { subst X. by apply Forall_cons in Hwidth as [? _]. }
    destruct (decide (column < width)%nat);
      [|split; [intros [? [=]] | intros (_ & ? & _); lia]].
    destruct (decide (length feature <= length X)%nat);
      [|split; [intros [? [=]] | intros (_ & _ & ?); lia]].
    split; [intros _; subst X; done | intros _; by eexists].
Qed.

Lemma encode_features_Ok_iff (features : list (list npfloat))
    (X : list (list npfloat)) (column width : nat) :
  Forall (fun row => length row = width) X ->
  is_Ok (encode_features X features column) <->
  features = [] \/
  (X <> [] /\ (column + length features <= width)%nat /\
   Forall (fun feature => length feature <= length X)%nat features).
Proof.
  revert X column. induction features as [|feature rest IH];
    intros X column Hwidth.
  - split; [by left | intros _; by eexists].
  - cbn [encode_features]. split.
    + intros [X' (X1 & Hstep & Hrest)%bind_Ok]. right.
      destruct (encode_feature_rows _ _ _ _ _ Hwidth Hstep)
        as (_ & Hlen1 & Hwidth1 & _).
      assert (is_Ok (encode_feature X feature column)) as Hok by by eexists.
      apply (encode_feature_Ok_iff _ _ _ _ Hwidth) in Hok as (HX & Hcol & Hf).
      assert (is_Ok (encode_features X1 rest (S column))) as Hok by by eexists.
      apply (IH _ _ Hwidth1) in Hok as [->|(_ & Hcols & Hrest')].
      * split; [done|]. split; [cbn; lia|]. by repeat constructor.
      * split; [done|]. split; [cbn; lia|]. constructor; [done|].
        by rewrite <- Hlen1.
    + intros [[=]|(HX & Hcols & [Hf Hrest]%Forall_cons)]. cbn in Hcols.
      destruct (proj2 (encode_feature_Ok_iff X feature column width Hwidth))
        as [X1 Hstep]; [repeat split; [done | lia | done]|].
      rewrite Hstep. cbn.
      destruct (encode_feature_rows _ _ _ _ _ Hwidth Hstep)
        as (_ & Hlen1 & Hwidth1 & _).
      apply (IH _ _ Hwidth1). destruct rest as [|f rest']; [by left|]. right.
      split; [by destruct X, X1|]. split; [cbn in *; lia|].
      by rewrite Hlen1.
Qed.

Lemma mask_row_width (X X' : list (list npfloat)) (idx : Z)
    (num_functions width : nat) :
  Forall (fun row => length row = width) X ->
  mask_row X idx num_functions = Ok X' ->
  length X' = length X /\ Forall (fun row => length row = width) X' /\
  (num_functions <= width)%nat /\
  - Z.of_nat (length X) <= idx < Z.of_nat (length X).
Proof.
  intros Hwidth Hrun.
  assert (- Z.of_nat (length X) <= idx < Z.of_nat (length X)) as Hidx.
  { unfold mask_row, Py.norm_index in Hrun.
    apply bind_Ok in Hrun as (r & Hr & _).
    destruct (decide (0 <= idx < Z.of_nat (length X))); [lia|].
    destruct (decide (- Z.of_nat (length X) <= idx < 0)); [lia | discriminate]. }
  apply mask_row_inv in Hrun as (r & row & Hrow & Hnf & ->).
  rewrite Forall_lookup in Hwidth. pose proof (Hwidth _ _ Hrow) as Hlen.
  split; [apply length_insert|]. split; [|split; [lia | done]].
  apply Forall_lookup. intros i row' Hi.
  destruct (decide (i = r)) as [->|Hne].
  - rewrite list_lookup_insert_eq in Hi by (by eapply lookup_lt_Some).
    injection Hi as <-. rewrite length_app, length_replicate, length_drop. lia.
  - rewrite list_lookup_insert_ne in Hi by done. by eapply Hwidth.
Qed.

Lemma mask_row_Ok (X : list (list npfloat)) (idx : Z) (num_functions width : nat) :
  Forall (fun row => length row = width) X ->
  (num_functions <= width)%nat ->
  - Z.of_nat (length X) <= idx < Z.of_nat (length X) ->
  is_Ok (mask_row X idx num_functions).
Proof.
  intros Hwidth Hnf Hidx. unfold mask_row, Py.norm_index.
  destruct (decide (0 <= idx < Z.of_nat (length X))) as [Hpos|Hneg]; cbn.
  - assert (exists row, X !! Z.to_nat idx = Some row) as [row Hrow]
      by (apply lookup_lt_is_Some; lia).
    rewrite Hrow. rewrite Forall_lookup in Hwidth.
    rewrite (Hwidth _ _ Hrow). rewrite decide_True by done. by eexists.
  - rewrite decide_True by lia. cbn.
    assert (exists row, X !! Z.to_nat (Z.of_nat (length X) + idx) = Some row)
      as [row Hrow] by (apply lookup_lt_is_Some; lia).
    rewrite Hrow. rewrite Forall_lookup in Hwidth.
    rewrite (Hwidth _ _ Hrow). rewrite decide_True by done. by eexists.
Qed.

(** ** The shape of an example *)

(** X3: whatever the sequence length, an example that [generate_example]
    returns is a pair of single-entry batches: an input matrix of
    [max_length] rows and [n_features] columns and a label matrix of
    [max_length] rows and [num_functions] columns. *)
Theorem generate_example_shape (sequence : list Z) (features : list (list npfloat))
    (num_functions n_features max_length : nat) (idx : Z) Xs ys :
  generate_example sequence features num_functions n_features max_length idx
  = Ok (Xs, ys) ->
  exists X y,
    Xs = [X] /\ ys = [y] /\
    length X = max_length /\ Forall (fun row => length row = n_features) X /\
    length y = max_length /\ Forall (fun row => length row = num_functions) y.
Proof.
  unfold generate_example. intros (padded & Hpad & Hrun)%bind_Ok.
  apply bind_Ok in Hrun as (y & Hy & Hrun).
  apply bind_Ok in Hrun as (X0 & HX0 & Hrun).
  apply bind_Ok in Hrun as (X1 & HX1 & Hrun).
  apply bind_Ok in Hrun as (X2 & HX2 & [= <- <-]).
  apply pad_sequences_post_length in Hpad.
  destruct (one_hot_encode_width _ _ _ Hy) as [Hylen Hywidth].
  destruct (one_hot_encode_width _ _ _ HX0) as [HX0len HX0width].
  apply astype_float64_width in HX0width.
  destruct (encode_features_rows _ _ _ _ _ HX0width HX1)
    as (HX1len & HX1width & _).
  destruct (mask_row_width _ _ _ _ _ HX1width HX2) as (HX2len & HX2width & _).
  exists X2, y. repeat split; try done.
  - rewrite HX2len, HX1len. unfold astype_float64.
    rewrite length_fmap. congruence.
  - congruence.
Qed.

Lemma generate_example_shape_witness :
  exists X y,
    fst <$> generate_example [1; 2; 3; 2; 1] [] 4 6 3 0 = Ok [X] /\
    snd <$> generate_example [1; 2; 3; 2; 1] [] 4 6 3 0 = Ok [y] /\
    length X = 3%nat /\ Forall (fun row => length row = 6%nat) X /\
    length y = 3%nat /\ Forall (fun row => length row = 4%nat) y.
Proof.
  destruct (generate_example_shape [1; 2; 3; 2; 1] [] 4 6 3 0 _ _ eq_refl)
    as (X & y & HX & Hy & Hshape).
  exists X, y. injection HX as <-. injection Hy as <-.
  split; [reflexivity|]. split; [reflexivity|]. exact Hshape.
Defined.

(** ** When generate_example returns *)

Lemma generate_example_Ok (sequence : list Z)
    (features : list (list npfloat)) (num_functions n_features max_length : nat)
    (idx : Z) :
  (length sequence <= max_length)%nat ->
  Forall (fun v => - Z.of_nat num_functions <= v < Z.of_nat num_functions)
         (sequence ++ replicate (max_length - length sequence) 0) ->
  (num_functions + length features <= n_features)%nat ->
  Forall (fun feature => length feature <= max_length)%nat features ->
  - Z.of_nat max_length <= idx < Z.of_nat max_length ->
  is_Ok (generate_example sequence features num_functions n_features
           max_length idx).
Proof.
  intros Hlen Hrange Hcols Hfeat Hidx. unfold generate_example.
  rewrite (pad_sequences_post_short _ _ Hlen). cbn.
  set (padded := sequence ++ replicate (max_length - length sequence) 0) in *.
  assert (length padded = max_length) as Hplen.
  { subst padded. rewrite length_app, length_replicate. lia. }
  destruct (proj2 (one_hot_encode_returns padded num_functions) Hrange)
    as [y Hy].
  rewrite Hy. cbn.
  assert (Forall (fun v => - Z.of_nat n_features <= v < Z.of_nat n_features)
                 padded) as Hrange'.
  { eapply Forall_impl; [exact Hrange|]. intros v Hv. cbn in *. lia. }
  destruct (proj2 (one_hot_encode_returns padded n_features) Hrange')
    as [M HM].
  rewrite HM. cbn.
  destruct (one_hot_encode_width _ _ _ HM) as [HMlen HMwidth].
  set (X0 := astype_float64 M).
  assert (Forall (fun row => length row = n_features) X0) as HX0width.
  { subst X0. by apply astype_float64_width. }
  assert (length X0 = max_length) as HX0len.
  { subst X0. unfold astype_float64. rewrite length_fmap. congruence. }
  destruct (proj2 (encode_features_Ok_iff features X0 num_functions
                     n_features HX0width)) as [X1 HX1].
  { destruct features as [|f rest]; [by left|]. right.
    split; [intros HX; rewrite HX in HX0len; cbn in HX0len; lia|].
    split; [done|]. by rewrite HX0len. }
  rewrite HX1. cbn.
  destruct (encode_features_rows _ _ _ _ _ HX0width HX1)
    as (HX1len & HX1width & _).
  destruct (mask_row_Ok X1 idx num_functions n_features HX1width) as [X2 HX2];
    [lia | rewrite HX1len, HX0len; done |].
  rewrite HX2. cbn. by eexists.
Qed.

(** X4: for a sequence no longer than [max_length], [generate_example]
    returns (rather than raising IndexError or ValueError) exactly when the
    padded categories are valid subscripts of a [num_functions]-vector, the
    feature columns fit ([num_functions + len(features) <= n_features]), no
    feature is longer than [max_length], and the mask index is a valid row
    subscript. *)
Theorem generate_example_returns_iff (sequence : list Z)
    (features : list (list npfloat)) (num_functions n_features max_length : nat)
    (idx : Z) :
  (length sequence <= max_length)%nat ->
  is_Ok (generate_example sequence features num_functions n_features
           max_length idx)
  <->
  Forall (fun v => - Z.of_nat num_functions <= v < Z.of_nat num_functions)
         (sequence ++ replicate (max_length - length sequence) 0) /\
  (num_functions + length features <= n_features)%nat /\
  Forall (fun feature => length feature <= max_length)%nat features /\
  - Z.of_nat max_length <= idx < Z.of_nat max_length.
Proof.
  intros Hlen.
  set (padded := sequence ++ replicate (max_length - length sequence) 0).
  assert (length padded = max_length) as Hplen.
  { subst padded. rewrite length_app, length_replicate. lia. }
  split.
  - intros [r Hrun]. unfold generate_example in Hrun.
    rewrite (pad_sequences_post_short _ _ Hlen) in Hrun. cbn in Hrun.
    fold padded in Hrun.
    apply bind_Ok in Hrun as (y & Hy & Hrun).
    apply bind_Ok in Hrun as (X0 & HX0 & Hrun).
    apply bind_Ok in Hrun as (X1 & HX1 & Hrun).
    apply bind_Ok in Hrun as (X2 & HX2 & _).
    assert (Hrange := proj1 (one_hot_encode_returns _ _) (ex_intro _ y Hy)).
    destruct (one_hot_encode_width _ _ _ HX0) as [HX0len HX0width].
    apply astype_float64_width in HX0width.
    destruct (encode_features_rows _ _ _ _ _ HX0width HX1)
      as (HX1len & HX1width & _).
    destruct (mask_row_width _ _ _ _ _ HX1width HX2) as (_ & _ & Hnf & Hidx).
    assert (length (astype_float64 X0) = max_length) as HX0ml.
    { unfold astype_float64. rewrite length_fmap. congruence. }
    assert (is_Ok (encode_features (astype_float64 X0) features num_functions))
      as Hok by by eexists.
    apply (encode_features_Ok_iff _ _ _ _ HX0width) in Hok.
    split; [done|]. rewrite HX1len, HX0ml in Hidx.
    destruct Hok as [->|(_ & Hcols & Hfeat)].
    + cbn. split; [lia|]. split; [constructor | done].
    + rewrite HX0ml in Hfeat. split; [lia|]. split; [exact Hfeat | exact Hidx].
  - intros (Hrange & Hcols & Hfeat & Hidx).
    by apply generate_example_Ok.
Qed.

Lemma generate_example_returns_iff_witness :
  is_Ok (generate_example [1; 2] [[of_int 1; of_int 0]] 3 4 2 1) <->
  Forall (fun v => - Z.of_nat 3 <= v < Z.of_nat 3)
         ([1; 2] ++ replicate (2 - length [1; 2]) 0) /\
  (3 + length [[of_int 1; of_int 0]] <= 4)%nat /\
  Forall (fun feature : list npfloat => length feature <= 2)%nat
         [[of_int 1; of_int 0]] /\
  - Z.of_nat 2 <= 1 < Z.of_nat 2.
Proof.
  apply (generate_example_returns_iff [1; 2] [[of_int 1; of_int 0]] 3 4 2 1).
  cbn. lia.
Defined.

(** ** Sequences longer than max_length *)

Lemma pad_sequences_post_long (sequence : list Z) (maxlen : nat) :
  (0 < maxlen < length sequence)%nat ->
  pad_sequences_post sequence maxlen
  = Ok (drop (length sequence - maxlen) sequence).
Proof.
  intros Hlen. unfold pad_sequences_post.
  destruct maxlen as [|m]; [lia|].
  rewrite length_drop.
  replace (S m - (length sequence - (length sequence - S m)))%nat with 0%nat
    by lia.
  by rewrite app_nil_r.
Qed.

(** X5: a sequence longer than [max_length] loses its leading genes, not its
    trailing ones: the label matrix of the returned example encodes the last
    [max_length] categories, so the label row at the mask index [idx]
    describes gene [idx + (len - max_length)] of the sequence, not gene
    [idx]. *)
Theorem generate_example_truncates_front (sequence : list Z)
    (features : list (list npfloat)) (num_functions n_features max_length : nat)
    (idx : Z) (X : list (list npfloat)) (y : list (list Z)) :
  (max_length < length sequence)%nat ->
  Forall (fun v => 0 <= v < Z.of_nat num_functions) sequence ->
  0 <= idx < Z.of_nat max_length ->
  generate_example sequence features num_functions n_features max_length idx
  = Ok ([X], [y]) ->
  y = spec_one_hot num_functions
      <$> drop (length sequence - max_length) sequence /\
  forall v,
    sequence !! (Z.to_nat idx + (length sequence - max_length))%nat = Some v ->
    y !! Z.to_nat idx = Some (spec_one_hot num_functions v).
Proof.
  intros Hlen Hrange Hidx Hrun. unfold generate_example in Hrun.
  rewrite pad_sequences_post_long in Hrun by lia. cbn in Hrun.
  rewrite (one_hot_encode_in_range _ num_functions
             (Forall_drop _ (length sequence - max_length) _ Hrange)) in Hrun.
  cbn in Hrun.
  apply bind_Ok in Hrun as (X0 & _ & Hrun).
  apply bind_Ok in Hrun as (X1 & _ & Hrun).
  apply bind_Ok in Hrun as (X2 & _ & [= _ <-]).
  split; [reflexivity|]. intros v Hv.
  rewrite list_lookup_fmap, lookup_drop.
  by rewrite (Nat.add_comm (length sequence - max_length)), Hv.
Qed.

Lemma generate_example_truncates_front_witness :
  [[0; 0; 1; 0]; [0; 0; 0; 1]]
  = spec_one_hot 4 <$> drop (length [1; 2; 3] - 2) [1; 2; 3] /\
  forall v,
    [1; 2; 3] !! (Z.to_nat 0 + (length [1; 2; 3] - 2))%nat = Some v ->
    [[0; 0; 1; 0]; [0; 0; 0; 1]] !! Z.to_nat 0 = Some (spec_one_hot 4 v).
Proof.
  apply (generate_example_truncates_front [1; 2; 3] [] 4 6 2 0
           [of_int <$> [0; 0; 0; 0; 0; 0]; of_int <$> [0; 0; 0; 1; 0; 0]]).
  - cbn. lia.
  - repeat constructor; lia.
  - lia.
  - reflexivity.
Defined.

(** ** The matrix operations, row by row *)

Lemma encode_feature_imap (X X' : list (list npfloat)) (feature : list npfloat)
    (column : nat) :
  encode_feature X feature column = Ok X' ->
  X' = imap (fun i row =>
               match feature !! i with
               | Some v => <[column := v]> row
               | None => row
               end) X.
Proof.
  unfold encode_feature. destruct X as [|row0 X0]; [discriminate|].
  destruct (decide _); [|discriminate]. destruct (decide _); [|discriminate].
  by intros [= <-].
Qed.

Lemma encode_features_imap (features : list (list npfloat))
    (X X' : list (list npfloat)) (column : nat) :
  encode_features X features column = Ok X' ->
  X' = imap (write_features features column) X.
Proof.
  revert X column. induction features as [|feature rest IH]; intros X column.
  - cbn. intros [= <-]. apply list_eq. intros i.
    rewrite list_lookup_imap. by destruct (X !! i).
  - cbn. intros (X1 & Hstep & Hrest)%bind_Ok.
    apply encode_feature_imap in Hstep as ->. apply IH in Hrest as ->.
    apply list_eq. intros i. rewrite !list_lookup_imap.
    by destruct (X !! i).
Qed.

Lemma write_features_take (features : list (list npfloat))
    (column i n : nat) (row : list npfloat) :
  (n <= column)%nat ->
  take n (write_features features column i row) = take n row.
Proof.
  revert column row. induction features as [|feature rest IH];
    intros column row Hn; [reflexivity|].
  cbn. rewrite IH by lia.
  destruct (feature !! i); [by rewrite take_insert_ge | reflexivity].
Qed.

Lemma write_features_drop (features : list (list npfloat))
    (column i n : nat) (row : list npfloat) :
  (n <= column)%nat ->
  drop n (write_features features column i row)
  = write_features features (column - n) i (drop n row).
Proof.
  revert column row. induction features as [|feature rest IH];
    intros column row Hn; [reflexivity|].
  cbn. rewrite IH by lia. replace (S column - n)%nat with (S (column - n)) by lia.
  destruct (feature !! i); [by rewrite drop_insert_ge | reflexivity].
Qed.

Lemma length_write_features (features : list (list npfloat))
    (column i : nat) (row : list npfloat) :
  length (write_features features column i row) = length row.
Proof.
  revert column row. induction features as [|feature rest IH];
    intros column row; [reflexivity|].
  cbn. rewrite IH. destruct (feature !! i); [apply length_insert | reflexivity].
Qed.

Lemma zero_block_take (n : nat) (row : list npfloat) :
  take n (zero_block n row) = replicate n (of_int 0).
Proof.
  unfold zero_block. rewrite take_app_length'; [done | by rewrite length_replicate].
Qed.

Lemma zero_block_drop (n : nat) (row : list npfloat) :
  drop n (zero_block n row) = drop n row.
Proof.
  unfold zero_block. rewrite drop_app_length'; [done | by rewrite length_replicate].
Qed.

Lemma zero_block_idemp (n : nat) (row : list npfloat) :
  zero_block n (zero_block n row) = zero_block n row.
Proof. unfold zero_block at 1. by rewrite zero_block_drop. Qed.

Lemma mask_row_insert (X X' : list (list npfloat)) (i : nat) (n : nat) :
  mask_row X (Z.of_nat i) n = Ok X' ->
  exists row, X !! i = Some row /\ (n <= length row)%nat /\
              X' = <[i := zero_block n row]> X.
Proof.
  unfold mask_row, Py.norm_index. intros (r & Hr & Hrun)%bind_Ok.
  destruct (decide (0 <= Z.of_nat i < Z.of_nat (length X))) as [Hi|Hi].
  - injection Hr as <-. rewrite Nat2Z.id in Hrun.
    destruct (X !! i) as [row|]; [|discriminate].
    destruct (decide (n <= length row)%nat); [|discriminate].
    injection Hrun as <-. by exists row.
  - destruct (decide _); [lia | discriminate].
Qed.

(** Masking a list of rows one after the other. *)
Lemma foldM_mask_row (us : list nat) (X X' : list (list npfloat)) (n : nat) :
  foldM (fun X unk => mask_row X (Z.of_nat unk) n) X us = Ok X' ->
  X' = imap (fun i row => if decide (i ∈ us) then zero_block n row else row) X.
Proof.
  revert X. induction us as [|u us IH]; intros X.
  - cbn. intros [= <-]. apply list_eq. intros i. rewrite list_lookup_imap.
    destruct (X !! i); [|done]. cbn. rewrite decide_False; [done|].
    apply not_elem_of_nil.
  - cbn. intros (X1 & Hstep & Hrest)%bind_Ok.
    apply mask_row_insert in Hstep as (row & Hrow & _ & ->).
    apply IH in Hrest as ->. apply list_eq. intros i.
    rewrite !list_lookup_imap.
    destruct (decide (i = u)) as [->|Hne].
    + rewrite list_lookup_insert_eq by (by eapply lookup_lt_Some).
      rewrite Hrow. cbn. rewrite (decide_True (P := u ∈ u :: us)) by left.
      destruct (decide (u ∈ us)); [by rewrite zero_block_idemp | done].
    + rewrite list_lookup_insert_ne by done.
      destruct (X !! i) as [r|]; [|done]. cbn. f_equal.
      destruct (decide (i ∈ us)) as [Hin|Hnin].
      * rewrite decide_True; [done | by right].
      * rewrite decide_False; [done|]. by intros [?|?]%elem_of_cons.
Qed.

Lemma elem_of_occurrences (value : Z) (sequence : list Z) (i : nat) :
  i ∈ occurrences value sequence <-> sequence !! i = Some value.
Proof.
  unfold occurrences. rewrite list_elem_of_fmap. split.
  - intros ([j x] & -> & [Hx Hin]%list_elem_of_filter). cbn in *. subst x.
    apply elem_of_lookup_imap in Hin as (k & x & [= -> ->] & Hk). exact Hk.
  - intros Hi. exists (i, value). split; [done|].
    apply list_elem_of_filter. split; [done|].
    apply elem_of_lookup_imap. by exists i, value.
Qed.

(** ** generate_prediction *)

Lemma one_hot_encode_nonneg (padded : list Z) (num_functions n_features : nat)
    (X0 : list (list Z)) :
  (num_functions <= n_features)%nat ->
  Forall (fun v => 0 <= v < Z.of_nat num_functions) padded ->
  one_hot_encode padded n_features = Ok X0 ->
  X0 = spec_one_hot n_features <$> padded.
Proof.
  intros Hnf Hrange HX0. rewrite one_hot_encode_in_range in HX0; [congruence|].
  eapply Forall_impl; [exact Hrange|]. intros v Hv. cbn in *. lia.
Qed.

Lemma take_encoded_row (features : list (list npfloat))
    (num_functions n_features i : nat) (v : Z) :
  (num_functions <= n_features)%nat -> 0 <= v < Z.of_nat num_functions ->
  take num_functions
    (write_features features num_functions i (of_int <$> spec_one_hot n_features v))
  = of_int <$> spec_one_hot num_functions v.
Proof.
  intros Hnf Hv. rewrite write_features_take by done.
  rewrite <- fmap_take. f_equal. apply take_spec_one_hot. lia.
Qed.

Lemma drop_encoded_row (num_functions n_features : nat) (v : Z) :
  0 <= v < Z.of_nat num_functions ->
  drop num_functions (of_int <$> spec_one_hot n_features v)
  = replicate (n_features - num_functions) (of_int 0).
Proof.
  intros Hv. rewrite <- fmap_drop. unfold spec_one_hot.
  rewrite drop_insert_lt by lia. by rewrite drop_replicate, fmap_replicate.
Qed.

(** The rows of a prediction matrix. *)
Lemma generate_prediction_rows (sequence : list Z)
    (features : list (list npfloat)) (num_functions n_features max_length : nat)
    (Xs : list (list (list npfloat))) :
  (length sequence <= max_length)%nat ->
  Forall (fun v => 0 <= v < Z.of_nat num_functions) sequence ->
  (0 < num_functions <= n_features)%nat ->
  generate_prediction sequence features num_functions n_features max_length
  = Ok Xs ->
  let padded := sequence ++ replicate (max_length - length sequence) 0 in
  Xs = [imap (fun i row =>
                if decide (sequence !! i = Some 0)
                then zero_block num_functions row else row)
             (imap (write_features features num_functions)
                   (astype_float64 (spec_one_hot n_features <$> padded)))].
Proof.
  intros Hlen Hrange Hnf Hrun padded. unfold generate_prediction in Hrun.
  rewrite (pad_sequences_post_short _ _ Hlen) in Hrun. cbn in Hrun.
  fold padded in Hrun.
  apply bind_Ok in Hrun as (X0 & HX0 & Hrun).
  apply bind_Ok in Hrun as (X1 & HX1 & Hrun).
  apply bind_Ok in Hrun as (X2 & HX2 & [= <-]).
  apply (one_hot_encode_nonneg _ num_functions) in HX0 as ->;
    [|lia | apply padded_in_range; [lia | done]].
  apply encode_features_imap in HX1 as ->.
  apply foldM_mask_row in HX2 as ->. f_equal.
  apply imap_ext. intros i row _.
  destruct (decide (i ∈ occurrences 0 sequence)) as [Hin|Hnin].
  - rewrite decide_True; [done | by apply elem_of_occurrences].
  - rewrite decide_False; [done|]. by rewrite <- elem_of_occurrences.
Qed.

Lemma generate_prediction_row_cases (sequence : list Z)
    (features : list (list npfloat)) (num_functions n_features max_length : nat)
    (X : list (list npfloat)) :
  (length sequence <= max_length)%nat ->
  Forall (fun v => 0 <= v < Z.of_nat num_functions) sequence ->
  (0 < num_functions <= n_features)%nat ->
  generate_prediction sequence features num_functions n_features max_length
  = Ok [X] ->
  length X = max_length /\
  forall i row, X !! i = Some row ->
    (sequence !! i = Some 0 /\
     take num_functions row = replicate num_functions (of_int 0)) \/
    (exists v, (sequence ++ replicate (max_length - length sequence) 0) !! i
               = Some v /\
               sequence !! i <> Some 0 /\ 0 <= v < Z.of_nat num_functions /\
               take num_functions row = of_int <$> spec_one_hot num_functions v).
Proof.
  intros Hlen Hrange Hnf Hrun.
  pose proof (generate_prediction_rows _ _ _ _ _ _ Hlen Hrange Hnf Hrun) as HX.
  cbn zeta in HX. injection HX as ->.
  set (padded := sequence ++ replicate (max_length - length sequence) 0).
  assert (length padded = max_length) as Hplen.
  { subst padded. rewrite length_app, length_replicate. lia. }
  split.
  { rewrite !length_imap. unfold astype_float64. by rewrite !length_fmap. }
  intros i row Hrow.
  rewrite !list_lookup_imap in Hrow. unfold astype_float64 in Hrow.
  rewrite !list_lookup_fmap in Hrow.
  destruct (padded !! i) as [v|] eqn:Hv; [|discriminate]. cbn in Hrow.
  injection Hrow as <-.
  assert (0 <= v < Z.of_nat num_functions) as Hvr.
  { assert (Forall (fun v => 0 <= v < Z.of_nat num_functions) padded) as Hp
      by (apply padded_in_range; [lia | done]).
    rewrite Forall_lookup in Hp. by apply (Hp i). }
  destruct (decide (sequence !! i = Some 0)) as [Hzero|Hnz].
  - left. split; [done|]. apply zero_block_take.
  - right. exists v. repeat split; try done; try lia.
    apply take_encoded_row; lia.
Qed.

(** X6: for category codes in [0, num_functions), a sequence no longer than
    [max_length] and [0 < num_functions <= n_features], the input matrix
    that [generate_prediction] returns has an all-zero category block on
    exactly the rows of the unknown genes (category 0); every other gene row
    keeps the one-hot encoding of its category, and padding rows are not
    masked. *)
Theorem generate_prediction_masks_unknowns (sequence : list Z)
    (features : list (list npfloat)) (num_functions n_features max_length : nat)
    (X : list (list npfloat)) :
  (length sequence <= max_length)%nat ->
  Forall (fun v => 0 <= v < Z.of_nat num_functions) sequence ->
  (0 < num_functions <= n_features)%nat ->
  generate_prediction sequence features num_functions n_features max_length
  = Ok [X] ->
  length X = max_length /\
  forall i row, X !! i = Some row ->
    (category_block_zero num_functions row <-> sequence !! i = Some 0) /\
    (forall v, sequence !! i = Some v -> v <> 0 ->
       take num_functions row = of_int <$> spec_one_hot num_functions v).
Proof.
  intros Hlen Hrange Hnf Hrun.
  destruct (generate_prediction_row_cases _ _ _ _ _ _ Hlen Hrange Hnf Hrun)
    as [HXlen Hrows].
  split; [exact HXlen|]. intros i row Hrow.
  destruct (Hrows i row Hrow) as [[Hzero Htake]|(v & Hv & Hnz & Hvr & Htake)].
  - split.
    + split; [done|]. intros _. by apply replicate_zero_block.
    + intros v Hv Hne. congruence.
  - split.
    + split; [|done]. intros Hblock.
      by apply (spec_one_hot_not_zero num_functions v row) in Hblock.
    + intros w Hw _. apply (lookup_app_l_Some _ (replicate (max_length - length sequence) 0)) in Hw.
      congruence.
Qed.

Lemma generate_prediction_masks_unknowns_witness :
  let X := [of_int <$> [0; 1; 0; 0]; of_int <$> [0; 0; 0; 0];
            of_int <$> [0; 0; 1; 0]; of_int <$> [1; 0; 0; 0]] in
  length X = 4%nat /\
  forall i row, X !! i = Some row ->
    (category_block_zero 3 row <-> [1; 0; 2] !! i = Some 0) /\
    (forall v, [1; 0; 2] !! i = Some v -> v <> 0 ->
       take 3 row = of_int <$> spec_one_hot 3 v).
Proof.
  apply (generate_prediction_masks_unknowns [1; 0; 2] [] 3 4 4).
  - cbn. lia.
  - repeat constructor; lia.
  - lia.
  - reflexivity.
Defined.

(** X7: under the same conditions [get_masked] applied to a prediction
    matrix returns the position of the first unknown gene, and raises
    IndexError when the sequence has no unknown gene. *)
Theorem get_masked_generate_prediction (sequence : list Z)
    (features : list (list npfloat)) (num_functions n_features max_length : nat)
    (X : list (list npfloat)) :
  (length sequence <= max_length)%nat ->
  Forall (fun v => 0 <= v < Z.of_nat num_functions) sequence ->
  (0 < num_functions <= n_features)%nat ->
  generate_prediction sequence features num_functions n_features max_length
  = Ok [X] ->
  (forall first,
     sequence !! first = Some 0 ->
     (forall j, (j < first)%nat -> sequence !! j <> Some 0) ->
     get_masked X num_functions = Ok first) /\
  (0 ∉ sequence -> get_masked X num_functions = Raise IndexError).
Proof.
  intros Hlen Hrange Hnf Hrun.
  destruct (generate_prediction_row_cases _ _ _ _ _ _ Hlen Hrange Hnf Hrun)
    as [HXlen Hrows].
  assert (forall i row, X !! i = Some row ->
            (category_block_zero num_functions row <-> sequence !! i = Some 0))
    as Hblock.
  { intros i row Hrow.
    destruct (Hrows i row Hrow) as [[Hzero Htake]|(v & Hv & Hnz & Hvr & Htake)].
    - split; [done|]. intros _. by apply replicate_zero_block.
    - split; [|done]. intros Hb.
      by apply (spec_one_hot_not_zero num_functions v row) in Hb. }
  unfold get_masked. split.
  - intros first Hfirst Hbefore.
    assert (exists row, X !! first = Some row) as [row Hrow].
    { apply lookup_lt_is_Some. apply lookup_lt_Some in Hfirst. lia. }
    assert (list_find (category_block_zero num_functions) X = Some (first, row))
      as ->; [|done].
    apply list_find_Some. split; [done|]. split; [by apply (Hblock first)|].
    intros j row' Hrow' Hj Hb. apply (Hblock j row' Hrow') in Hb.
    by apply (Hbefore j).
  - intros Hnone.
    assert (list_find (category_block_zero num_functions) X = None) as ->;
      [|done].
    apply list_find_None, Forall_lookup. intros i row Hrow Hb.
    apply (Hblock i row Hrow) in Hb. apply Hnone.
    by apply list_elem_of_lookup_2 in Hb.
Qed.

Lemma get_masked_generate_prediction_witness :
  let X := [of_int <$> [0; 1; 0; 0]; of_int <$> [0; 0; 0; 0];
            of_int <$> [0; 0; 1; 0]; of_int <$> [0; 0; 0; 0]] in
  (forall first,
     [1; 0; 2; 0] !! first = Some 0 ->
     (forall j, (j < first)%nat -> [1; 0; 2; 0] !! j <> Some 0) ->
     get_masked X 3 = Ok first) /\
  (0 ∉ [1; 0; 2; 0] -> get_masked X 3 = Raise IndexError).
Proof.
  apply (get_masked_generate_prediction [1; 0; 2; 0] [] 3 4 4).
  - cbn. lia.
  - repeat constructor; lia.
  - lia.
  - reflexivity.
Defined.

(** ** Training examples and prediction inputs *)

Lemma insert_imap {A} (f : A -> A) (l : list A) (i : nat) (x : A) :
  l !! i = Some x ->
  <[i := f x]> l = imap (fun j y => if decide (j = i) then f y else y) l.
Proof.
  intros Hx. apply list_eq. intros j. rewrite list_lookup_imap.
  destruct (decide (j = i)) as [->|Hne].
  - rewrite list_lookup_insert_eq by (by eapply lookup_lt_Some).
    by rewrite Hx.
  - rewrite list_lookup_insert_ne by done. by destruct (l !! j).
Qed.

(** The two matrices of an example, row by row. *)
Lemma generate_example_explicit (sequence : list Z)
    (features : list (list npfloat)) (num_functions n_features max_length : nat)
    (idx : Z) Xs ys :
  (length sequence <= max_length)%nat ->
  Forall (fun v => 0 <= v < Z.of_nat num_functions) sequence ->
  (0 < num_functions)%nat ->
  0 <= idx ->
  generate_example sequence features num_functions n_features max_length idx
  = Ok (Xs, ys) ->
  let padded := sequence ++ replicate (max_length - length sequence) 0 in
  (num_functions <= n_features)%nat /\
  (Z.to_nat idx < max_length)%nat /\
  Xs = [imap (fun i row =>
                if decide (i = Z.to_nat idx)
                then zero_block num_functions row else row)
             (imap (write_features features num_functions)
                   (astype_float64 (spec_one_hot n_features <$> padded)))] /\
  ys = [spec_one_hot num_functions <$> padded].
Proof.
  intros Hlen Hrange Hpos Hidx Hrun padded. unfold generate_example in Hrun.
  rewrite (pad_sequences_post_short _ _ Hlen) in Hrun. cbn in Hrun.
  fold padded in Hrun.
  assert (Forall (fun v => 0 <= v < Z.of_nat num_functions) padded) as Hpadded
    by by apply padded_in_range.
  assert (length padded = max_length) as Hplen.
  { subst padded. rewrite length_app, length_replicate. lia. }
  rewrite (one_hot_encode_in_range _ _ Hpadded) in Hrun. cbn in Hrun.
  apply bind_Ok in Hrun as (X0 & HX0 & Hrun).
  apply bind_Ok in Hrun as (X1 & HX1 & Hrun).
  apply bind_Ok in Hrun as (X2 & HX2 & [= <- <-]).
  destruct (one_hot_encode_width _ _ _ HX0) as [HX0len HX0width].
  apply astype_float64_width in HX0width.
  destruct (encode_features_rows _ _ _ _ _ HX0width HX1)
    as (HX1len & HX1width & _).
  rewrite <- (Z2Nat.id idx) in HX2 by exact Hidx.
  apply mask_row_insert in HX2 as (row & Hrow & Hwidth & ->).
  assert (num_functions <= n_features)%nat as Hnf.
  { rewrite Forall_lookup in HX1width. by rewrite <- (HX1width _ _ Hrow). }
  assert (Z.to_nat idx < max_length)%nat as Hidx'.
  { apply lookup_lt_Some in Hrow. unfold astype_float64 in HX1len.
    rewrite length_fmap in HX1len. lia. }
  split; [exact Hnf|]. split; [lia|]. split; [|done]. f_equal.
  rewrite (insert_imap (zero_block num_functions) _ _ _ Hrow).
  apply (one_hot_encode_nonneg _ num_functions) in HX0 as ->; [|done..].
  by apply encode_features_imap in HX1 as ->.
Qed.

Lemma foldM_mask_row_Ok (us : list nat) (X : list (list npfloat))
    (num_functions width : nat) :
  Forall (fun row => length row = width) X ->
  (num_functions <= width)%nat ->
  Forall (fun unk => unk < length X)%nat us ->
  is_Ok (foldM (fun X unk => mask_row X (Z.of_nat unk) num_functions) X us).
Proof.
  intros Hwidth Hnf. revert X Hwidth.
  induction us as [|unk us IH]; intros X Hwidth Hus; cbn; [by eexists|].
  apply Forall_cons in Hus as [Hunk Hus].
  destruct (mask_row_Ok X (Z.of_nat unk) num_functions width Hwidth Hnf)
    as [X' HX']; [lia|].
  rewrite HX'. cbn.
  destruct (mask_row_width _ _ _ _ _ Hwidth HX') as (Hlen & Hwidth' & _).
  apply IH; [exact Hwidth'|]. by rewrite Hlen.
Qed.

Lemma occurrences_lt (value : Z) (sequence : list Z) :
  Forall (fun i => i < length sequence)%nat (occurrences value sequence).
Proof.
  apply Forall_forall. intros i Hi%elem_of_occurrences.
  by eapply lookup_lt_Some.
Qed.

(** A prediction input exists whenever the matching example does. *)
Lemma generate_prediction_Ok (sequence sequence' : list Z)
    (features : list (list npfloat)) (num_functions n_features max_length : nat)
    (idx : Z) :
  (length sequence <= max_length)%nat ->
  length sequence' = length sequence ->
  Forall (fun v => 0 <= v < Z.of_nat num_functions) sequence ->
  Forall (fun v => 0 <= v < Z.of_nat num_functions) sequence' ->
  (0 < num_functions)%nat ->
  is_Ok (generate_example sequence features num_functions n_features
           max_length idx) ->
  is_Ok (generate_prediction sequence' features num_functions n_features
           max_length).
Proof.
  intros Hlen Hlen' Hrange Hrange' Hpos [r Hrun].
  unfold generate_example in Hrun. unfold generate_prediction.
  rewrite (pad_sequences_post_short _ _ Hlen) in Hrun.
  rewrite pad_sequences_post_short by lia. cbn in *.
  set (padded := sequence ++ replicate (max_length - length sequence) 0) in *.
  set (padded' := sequence' ++ replicate (max_length - length sequence') 0).
  assert (length padded' = length padded) as Hplen.
  { subst padded padded'. rewrite !length_app, !length_replicate. lia. }
  apply bind_Ok in Hrun as (y & _ & Hrun).
  apply bind_Ok in Hrun as (X0 & HX0 & Hrun).
  apply bind_Ok in Hrun as (X1 & HX1 & Hrun).
  apply bind_Ok in Hrun as (X2 & HX2 & _).
  destruct (one_hot_encode_width _ _ _ HX0) as [HX0len HX0width].
  apply astype_float64_width in HX0width.
  destruct (encode_features_rows _ _ _ _ _ HX0width HX1)
    as (HX1len & HX1width & _).
  destruct (mask_row_width _ _ _ _ _ HX1width HX2) as (_ & _ & Hnf & _).
  assert (Forall (fun v => 0 <= v < Z.of_nat n_features) padded') as Hp'.
  { eapply Forall_impl; [apply padded_in_range; [exact Hpos | exact Hrange']|].
    intros v Hv. cbn in *. lia. }
  rewrite (one_hot_encode_in_range _ _ Hp'). cbn.
  set (X0' := astype_float64 _).
  assert (Forall (fun row => length row = n_features) X0') as HX0'width.
  { subst X0'. apply astype_float64_width, Forall_fmap, Forall_true.
    intros v. cbn. apply length_spec_one_hot. }
  assert (length X0' = length (astype_float64 X0)) as HX0'len.
  { subst X0'. unfold astype_float64. rewrite !length_fmap. congruence. }
  assert (is_Ok (encode_features X0' features num_functions)) as [X1' HX1'].
  { apply (encode_features_Ok_iff _ _ _ _ HX0'width).
    assert (is_Ok (encode_features (astype_float64 X0) features num_functions))
      as Hok by by eexists.
    apply (encode_features_Ok_iff _ _ _ _ HX0width) in Hok
      as [->|(Hne & Hcols & Hfeat)]; [by left|].
    right. split.
    - intros HX. rewrite HX in HX0'len. cbn in HX0'len.
      by destruct (astype_float64 X0).
    - split; [exact Hcols|]. by rewrite HX0'len. }
  rewrite HX1'. cbn.
  destruct (encode_features_rows _ _ _ _ _ HX0'width HX1')
    as (HX1'len & HX1'width & _).
  destruct (foldM_mask_row_Ok (occurrences 0 sequence') X1' num_functions
              n_features HX1'width Hnf) as [X2' HX2'].
  { eapply Forall_impl; [apply occurrences_lt|]. intros i Hi. cbn in *.
    rewrite HX1'len. subst X0'. unfold astype_float64.
    rewrite !length_fmap. subst padded'. rewrite length_app. lia. }
  rewrite HX2'. cbn. by eexists.
Qed.

(** A masked row does not depend on the category it hides. *)
Lemma zero_block_encoded_row (features : list (list npfloat))
    (num_functions n_features i : nat) (v w : Z) :
  0 <= v < Z.of_nat num_functions -> 0 <= w < Z.of_nat num_functions ->
  zero_block num_functions
    (write_features features num_functions i (of_int <$> spec_one_hot n_features v))
  = zero_block num_functions
      (write_features features num_functions i (of_int <$> spec_one_hot n_features w)).
Proof.
  intros Hv Hw. unfold zero_block. f_equal.
  rewrite !write_features_drop by done.
  by rewrite !drop_encoded_row.
Qed.

(** An unmasked row is not a masked row. *)
Lemma zero_block_encoded_row_ne (features : list (list npfloat))
    (num_functions n_features i : nat) (v : Z) :
  (num_functions <= n_features)%nat -> 0 <= v < Z.of_nat num_functions ->
  zero_block num_functions
    (write_features features num_functions i (of_int <$> spec_one_hot n_features v))
  <> write_features features num_functions i (of_int <$> spec_one_hot n_features v).
Proof.
  intros Hnf Hv Heq.
  apply (f_equal (take num_functions)) in Heq.
  rewrite zero_block_take, take_encoded_row in Heq by done.
  apply (spec_one_hot_not_zero num_functions v
           (of_int <$> spec_one_hot num_functions v)); [done | |].
  - rewrite take_ge; [done|]. rewrite length_fmap, length_spec_one_hot. lia.
  - apply replicate_zero_block. rewrite <- Heq.
    rewrite take_ge; [done|]. by rewrite length_replicate.
Qed.

(** X8: the input matrix of the training example that masks gene [idx] is
    the prediction input of the same genome with gene [idx] set to unknown
    exactly when the genome has no other unknown gene. An unknown gene that
    is not the masked one keeps the one-hot code of category 0 in a training
    example, but is zeroed in a prediction input. *)
Theorem generate_prediction_matches_example (sequence : list Z)
    (features : list (list npfloat)) (num_functions n_features max_length : nat)
    (idx : Z) (X : list (list npfloat)) (y : list (list Z)) :
  (length sequence <= max_length)%nat ->
  Forall (fun v => 0 <= v < Z.of_nat num_functions) sequence ->
  0 <= idx < Z.of_nat (length sequence) ->
  generate_example sequence features num_functions n_features max_length idx
  = Ok ([X], [y]) ->
  exists X',
    generate_prediction (<[Z.to_nat idx := 0]> sequence) features num_functions
      n_features max_length = Ok [X'] /\
    (X' = X <-> forall j, sequence !! j = Some 0 -> j = Z.to_nat idx).
Proof.
  intros Hlen Hrange Hidx Hrun.
  set (k := Z.to_nat idx).
  set (sequence' := <[k := 0]> sequence).
  assert (0 < num_functions)%nat as Hpos.
  { destruct sequence as [|v sequence]; [cbn in Hidx; lia|].
    apply Forall_cons in Hrange as [? _]. lia. }
  assert (length sequence' = length sequence) as Hlen'
    by apply length_insert.
  assert (Forall (fun v => 0 <= v < Z.of_nat num_functions) sequence')
    as Hrange'.
  { subst sequence'. apply Forall_insert; [exact Hrange | lia]. }
  destruct (generate_example_explicit _ _ _ _ _ _ _ _ Hlen Hrange Hpos
              (proj1 Hidx) Hrun) as (Hnf & Hk & [= HX] & _).
  fold k in Hk, HX.
  destruct (generate_prediction_Ok sequence sequence' features num_functions
              n_features max_length idx Hlen Hlen' Hrange Hrange' Hpos)
    as [Xs' Hpred]; [by eexists|].
  assert (length sequence' <= max_length)%nat as Hlen'' by lia.
  pose proof (generate_prediction_rows _ _ _ _ _ _ Hlen'' Hrange'
                (conj Hpos Hnf) Hpred) as HX'.
  cbn zeta in HX'.
  set (padded := sequence ++ replicate (max_length - length sequence) 0) in *.
  set (padded' := sequence' ++ replicate (max_length - length sequence') 0) in *.
  assert (padded' = <[k := 0]> padded) as Hpadded'.
  { subst padded padded' sequence'. rewrite Hlen'.
    rewrite insert_app_l; [done|]. subst k. lia. }
  assert (Forall (fun v => 0 <= v < Z.of_nat num_functions) padded) as Hpadded
    by by apply padded_in_range.
  eexists. split; [by rewrite Hpred, HX'|].
  rewrite HX. clear Hpred HX' HX Hrun.
  (* rowwise comparison *)
  assert (forall j,
            imap (fun i row => if decide (sequence' !! i = Some 0)
                               then zero_block num_functions row else row)
              (imap (write_features features num_functions)
                 (astype_float64 (spec_one_hot n_features <$> padded'))) !! j
            = imap (fun i row => if decide (i = k)
                                 then zero_block num_functions row else row)
                (imap (write_features features num_functions)
                   (astype_float64 (spec_one_hot n_features <$> padded))) !! j
            <-> (sequence !! j = Some 0 -> j = k)) as Hrow.
  { intros j. rewrite !list_lookup_imap. unfold astype_float64.
    rewrite !list_lookup_fmap. rewrite Hpadded'.
    destruct (decide (j = k)) as [->|Hne].
    - split; [done|]. intros _.
      rewrite list_lookup_insert_eq
        by (subst padded; rewrite length_app; subst k; lia).
      destruct (padded !! k) as [v|] eqn:Hv.
      2:{ apply lookup_ge_None in Hv. subst padded k.
          rewrite length_app in Hv. lia. }
      cbn. rewrite decide_True.
      2:{ subst sequence'. apply list_lookup_insert_eq. subst k. lia. }
      f_equal. apply zero_block_encoded_row; [lia|].
      rewrite Forall_lookup in Hpadded. by apply (Hpadded k).
    - rewrite list_lookup_insert_ne by done.
      subst sequence'. rewrite list_lookup_insert_ne by done.
      destruct (padded !! j) as [v|] eqn:Hv; cbn.
      + destruct (decide (sequence !! j = Some 0)) as [Hzero|Hnz].
        * split; [|by intros ?%(fun H => H Hzero)].
          intros [= Heq]. exfalso.
          apply (zero_block_encoded_row_ne features num_functions n_features
                   j v); [done| |done].
          rewrite Forall_lookup in Hpadded. by apply (Hpadded j).
        * split; [by intros _ ? | done].
      + split; [|done]. intros _ Hzero.
        apply (lookup_app_l_Some _ (replicate (max_length - length sequence) 0))
          in Hzero. fold padded in Hzero. congruence. }
  split.
  - intros Heq j. apply Hrow. by rewrite Heq.
  - intros Hall. apply list_eq. intros j. apply Hrow, Hall.
Qed.

Lemma generate_prediction_matches_example_witness :
  exists X',
    generate_prediction (<[Z.to_nat 1 := 0]> [1; 2; 3]) [] 4 5 4 = Ok [X'] /\
    (X' = [of_int <$> [0; 1; 0; 0; 0]; of_int <$> [0; 0; 0; 0; 0];
           of_int <$> [0; 0; 0; 1; 0]; of_int <$> [1; 0; 0; 0; 0]]
     <-> forall j, [1; 2; 3] !! j = Some 0 -> j = Z.to_nat 1).
Proof.
  apply (generate_prediction_matches_example [1; 2; 3] [] 4 5 4 1 _
           [[0; 1; 0; 0]; [0; 0; 1; 0]; [0; 0; 0; 1]; [1; 0; 0; 0]]).
  - cbn. lia.
  - repeat constructor; lia.
  - cbn. lia.
  - reflexivity.
Defined.

(** ** known_category on generated examples *)

Lemma known_category_Ok (X_encodings : list (list (list npfloat)))
    (y_encodings : list (list (list Z))) (num_categories : nat)
    (cats : list nat) :
  length cats = length X_encodings ->
  (forall i X c, X_encodings !! i = Some X -> cats !! i = Some c ->
     exists y r row,
       y_encodings !! i = Some y /\ get_masked X num_categories = Ok r /\
       y !! r = Some row /\ np_argmax row = Ok c) ->
  known_category X_encodings y_encodings num_categories = Ok cats.
Proof.
  intros Hlen Hall. unfold known_category. apply mapM_Ok_Forall2.
  apply Forall2_same_length_lookup_2; [by rewrite length_seq|].
  intros i j c [-> Hi]%lookup_seq Hc. cbn in *.
  apply lookup_lt_is_Some in Hi as [X HX].
  destruct (Hall i X c HX Hc) as (y & r & row & Hy & Hr & Hrow & Hmax).
  rewrite (getitem_nat _ _ _ HX). cbn. rewrite Hr. cbn.
  rewrite (getitem_nat _ _ _ Hy). cbn. by rewrite (getitem_nat _ _ _ Hrow).
Qed.

(** In the matrix of an example the masked row is the first, and only, row
    with an all-zero category block. *)
Lemma get_masked_explicit (features : list (list npfloat))
    (num_functions n_features k : nat) (padded : list Z) :
  (num_functions <= n_features)%nat ->
  Forall (fun v => 0 <= v < Z.of_nat num_functions) padded ->
  (k < length padded)%nat ->
  get_masked
    (imap (fun i row => if decide (i = k)
                        then zero_block num_functions row else row)
       (imap (write_features features num_functions)
          (astype_float64 (spec_one_hot n_features <$> padded))))
    num_functions
  = Ok k.
Proof.
  intros Hnf Hpadded Hk. unfold get_masked.
  apply lookup_lt_is_Some in Hk as [v Hv].
  set (X := imap _ _).
  assert (forall j row, X !! j = Some row ->
            category_block_zero num_functions row <-> j = k) as Hrows.
  { intros j row. subst X. rewrite !list_lookup_imap. unfold astype_float64.
    rewrite !list_lookup_fmap.
    destruct (padded !! j) as [w|] eqn:Hw; [|discriminate]. cbn.
    assert (0 <= w < Z.of_nat num_functions) as Hwr.
    { rewrite Forall_lookup in Hpadded. by apply (Hpadded j). }
    destruct (decide (j = k)) as [->|Hne]; intros [= <-].
    - split; [done|]. intros _. apply replicate_zero_block, zero_block_take.
    - split; [|done]. intros Hzero.
      apply (spec_one_hot_not_zero num_functions w) in Hzero; [done..|].
      by apply take_encoded_row. }
  assert (exists row, X !! k = Some row) as [row Hrow].
  { subst X. rewrite !list_lookup_imap. unfold astype_float64.
    rewrite !list_lookup_fmap, Hv. cbn. by eexists. }
  assert (list_find (category_block_zero num_functions) X = Some (k, row))
    as ->; [|done].
  apply list_find_Some. split; [done|]. split.
  - by apply (Hrows k row Hrow).
  - intros j row' Hrow' Hj Hzero. apply (Hrows _ _ Hrow') in Hzero. lia.
Qed.

(** What [known_category] needs of one instance, for an example. *)
Lemma generate_example_label (sequence : list Z)
    (features : list (list npfloat)) (num_functions n_features max_length : nat)
    (idx v : Z) (X : list (list npfloat)) (y : list (list Z)) :
  (length sequence <= max_length)%nat ->
  Forall (fun v => 0 <= v < Z.of_nat num_functions) sequence ->
  0 <= idx ->
  sequence !! Z.to_nat idx = Some v ->
  generate_example sequence features num_functions n_features max_length idx
  = Ok ([X], [y]) ->
  exists r row,
    get_masked X num_functions = Ok r /\ y !! r = Some row /\
    np_argmax row = Ok (Z.to_nat v).
Proof.
  intros Hlen Hrange Hidx Hv Hrun.
  assert (0 <= v < Z.of_nat num_functions) as Hvr.
  { rewrite Forall_lookup in Hrange. by apply (Hrange _ _ Hv). }
  assert (0 < num_functions)%nat as Hpos by lia.
  destruct (generate_example_explicit _ _ _ _ _ _ _ _ Hlen Hrange Hpos Hidx Hrun)
    as (Hnf & Hk & [= ->] & [= ->]).
  set (padded := sequence ++ replicate (max_length - length sequence) 0).
  exists (Z.to_nat idx), (spec_one_hot num_functions v). split; [|split].
  - apply get_masked_explicit; [done | by apply padded_in_range |].
    subst padded. rewrite length_app, length_replicate. lia.
  - rewrite list_lookup_fmap. subst padded.
    by rewrite (lookup_app_l_Some _ _ _ _ Hv).
  - by apply np_argmax_one_hot.
Qed.

(** X9: for an example generated from a sequence of category codes in
    [0, num_functions) no longer than [max_length], with the mask on gene
    [idx], [known_category] finds the masked row in X and reads from y the
    category of gene [idx]. *)
Theorem known_category_generate_example (sequence : list Z)
    (features : list (list npfloat)) (num_functions n_features max_length : nat)
    (idx v : Z) (X : list (list npfloat)) (y : list (list Z)) :
  (length sequence <= max_length)%nat ->
  Forall (fun v => 0 <= v < Z.of_nat num_functions) sequence ->
  0 <= idx ->
  sequence !! Z.to_nat idx = Some v ->
  generate_example sequence features num_functions n_features max_length idx
  = Ok ([X], [y]) ->
  known_category [X] [y] num_functions = Ok [Z.to_nat v].
Proof.
  intros Hlen Hrange Hidx Hv Hrun.
  destruct (generate_example_label _ _ _ _ _ _ _ _ _ Hlen Hrange Hidx Hv Hrun)
    as (r & row & Hr & Hrow & Hmax).
  apply known_category_Ok; [done|].
  intros [|i] X' c; [|done]. intros [= <-] [= <-]. by exists y, r, row.
Qed.

Lemma known_category_generate_example_witness :
  known_category
    [[of_int <$> [0; 1; 0; 0; 0]; of_int <$> [0; 0; 0; 0; 0];
      of_int <$> [0; 0; 0; 1; 0]; of_int <$> [1; 0; 0; 0; 0]]]
    [[[0; 1; 0; 0]; [0; 0; 1; 0]; [0; 0; 0; 1]; [1; 0; 0; 0]]] 4
  = Ok [Z.to_nat 2].
Proof.
  apply (known_category_generate_example [1; 2; 3] [] 4 5 4 1 2).
  - cbn. lia.
  - repeat constructor; lia.
  - lia.
  - reflexivity.
  - reflexivity.
Defined.

(** ** What the uniform sampler returns *)

Lemma redraw_Ok (draws : nat -> nat) (sequence : list Z) (fuel : nat)
    (idx : Z) (cursor : nat) (idx' : Z) (cursor' : nat) :
  (2 <= length sequence)%nat ->
  1 <= idx < Z.of_nat (length sequence) ->
  redraw fuel draws sequence idx cursor = Some (Ok (idx', cursor')) ->
  1 <= idx' < Z.of_nat (length sequence) /\
  exists v, sequence !! Z.to_nat idx' = Some v /\ v <> 0 /\
            Py.getitem sequence idx' = Ok v.
Proof.
  intros Hlen. revert idx cursor.
  induction fuel as [|fuel IH]; intros idx cursor Hidx; [discriminate|].
  rewrite redraw_step by done.
  destruct (decide (sequence !! Z.to_nat idx = Some 0)) as [Hzero|Hhit].
  - apply IH. by apply drawn_index_range.
  - intros [= <- <-]. split; [done|].
    destruct (getitem_in_range sequence Hlen idx Hidx) as (v & Hv & Hget).
    exists v. split; [done|]. split; [|done]. intros ->. done.
Qed.

Lemma choose_mask_index_Ok (draws : nat -> nat) (sequence : list Z)
    (fuel cursor : nat) (idx : Z) (cursor' : nat) :
  choose_mask_index fuel draws sequence cursor = Some (Ok (idx, cursor')) ->
  1 <= idx < Z.of_nat (length sequence) /\
  exists v, sequence !! Z.to_nat idx = Some v /\ v <> 0 /\
            Py.getitem sequence idx = Ok v.
Proof.
  unfold choose_mask_index.
  destruct (decide (2 <= length sequence)%nat) as [Hlen|Hlen].
  - rewrite randint_drawn_index by done.
    apply redraw_Ok; [done|]. by apply drawn_index_range.
  - unfold randint. rewrite decide_False by lia. discriminate.
Qed.

(** The examples that the loop appends, one per genome of [todo]. *)
Lemma generate_dataset_loop_trace (fuel : nat) (draws : nat -> nat)
    (sequences : list (list Z)) (all_features : list (list (list npfloat)))
    (num_functions n_features max_length : nat)
    (todo : list nat) (acc : dataset) (cursor : nat) (r : dataset) :
  generate_dataset_loop fuel draws sequences all_features num_functions
    n_features max_length todo acc cursor = Some (Ok r) ->
  exists news : list (list (list npfloat) * list (list Z) * Z),
    ds_X r = ds_X acc ++ ((fun e => [e.1.1]) <$> news) /\
    ds_y r = ds_y acc ++ ((fun e => [e.1.2]) <$> news) /\
    ds_masked_func r = ds_masked_func acc ++ (snd <$> news) /\
    Forall2 (fun i e =>
               exists sequence features idx,
                 sequences !! i = Some sequence /\
                 all_features !! i = Some features /\
                 1 <= idx < Z.of_nat (length sequence) /\
                 sequence !! Z.to_nat idx = Some e.2 /\ e.2 <> 0 /\
                 generate_example sequence features num_functions n_features
                   max_length idx = Ok ([e.1.1], [e.1.2]))
            todo news.
Proof.
  revert acc cursor. induction todo as [|i todo IH]; intros acc cursor Hrun.
  - injection Hrun as <-. exists []. cbn. rewrite !app_nil_r. by repeat split.
  - cbn [generate_dataset_loop] in Hrun.
    destruct (sequences !! i) as [sequence|] eqn:Hseq; [|discriminate].
    destruct (choose_mask_index fuel draws sequence cursor)
      as [[[idx cursor']|e]|] eqn:Hchoose; [|discriminate..].
    apply choose_mask_index_Ok in Hchoose as (Hidx & v & Hv & Hne & Hget).
    match type of Hrun with
    | match ?step with _ => _ end = _ => destruct step as [acc'|e] eqn:Hstep
    end; [|discriminate].
    apply bind_Ok in Hstep as (features & Hfeat & Hstep).
    apply bind_Ok in Hstep as ([Xs ys] & Hex & Hstep).
    apply bind_Ok in Hstep as (masked & Hmasked & [= <-]).
    assert (masked = v) as -> by congruence.
    apply getitem_nat_Ok in Hfeat.
    assert (exists X y, Xs = [X] /\ ys = [y]) as (X & y & -> & ->).
    { unfold generate_example in Hex.
      apply bind_Ok in Hex as (? & _ & Hex).
      apply bind_Ok in Hex as (? & _ & Hex).
      apply bind_Ok in Hex as (? & _ & Hex).
      apply bind_Ok in Hex as (? & _ & Hex).
      apply bind_Ok in Hex as (? & _ & [= <- <-]). by eexists _, _. }
    destruct (IH _ _ Hrun) as (news & HX & Hy & Hm & Hall). cbn in HX, Hy, Hm.
    exists ((X, y, v) :: news). cbn.
    rewrite HX, Hy, Hm, <- !app_assoc. repeat split; try done.
    constructor; [|exact Hall]. by exists sequence, features, idx.
Qed.

Lemma concat_singletons {A B} (f : A -> B) (l : list A) :
  concat ((fun e => [f e]) <$> l) = f <$> l.
Proof. induction l as [|x l IH]; cbn; [done | by rewrite IH]. Qed.

(** X10: a dataset that [generate_dataset] returns holds one example per
    genome, in the order of the genomes: the example of genome [i] is
    [generate_example] of that genome with the mask on a gene at a position
    from 1 on (the first gene is never masked) whose category is not 0, and
    [masked_func[i]] is the category of that gene. *)
Theorem generate_dataset_examples (fuel : nat) (draws : nat -> nat)
    (sequences : list (list Z)) (all_features : list (list (list npfloat)))
    (num_functions n_features max_length : nat)
    (X : list (list (list npfloat))) (y : list (list (list Z)))
    (masked_func : list Z) :
  generate_dataset fuel draws sequences all_features num_functions n_features
    max_length = Some (Ok (X, y, masked_func)) ->
  length X = length sequences /\ length y = length sequences /\
  length masked_func = length sequences /\
  forall i sequence, sequences !! i = Some sequence ->
    exists features idx Xi yi m,
      all_features !! i = Some features /\
      X !! i = Some Xi /\ y !! i = Some yi /\ masked_func !! i = Some m /\
      1 <= idx < Z.of_nat (length sequence) /\
      sequence !! Z.to_nat idx = Some m /\ m <> 0 /\
      generate_example sequence features num_functions n_features max_length
        idx = Ok ([Xi], [yi]).
Proof.
  unfold generate_dataset.
  destruct (generate_dataset_loop _ _ _ _ _ _ _ _ _ _) as [[acc|e]|] eqn:Hrun;
    [|discriminate..].
  intros [= <- <- <-].
  apply generate_dataset_loop_trace in Hrun as (news & -> & -> & -> & Hall).
  cbn. rewrite (concat_singletons (fun e => e.1.1)),
         (concat_singletons (fun e => e.1.2)).
  pose proof (Forall2_length _ _ _ Hall) as Hlen. rewrite length_seq in Hlen.
  rewrite !length_fmap. split; [done|]. split; [done|]. split; [done|].
  intros i sequence Hseq.
  assert (i < length sequences)%nat as Hi by by eapply lookup_lt_Some.
  assert (exists e, news !! i = Some e) as [e He]
    by (apply lookup_lt_is_Some; lia).
  pose proof (Forall2_lookup_lr _ _ _ i i e Hall (lookup_seq_lt 0 _ _ Hi) He)
    as (sequence' & features & idx & Hseq' & Hfeat & Hidx & Hm & Hne & Hex).
  cbn in Hseq'. assert (sequence' = sequence) as -> by congruence.
  exists features, idx, e.1.1, e.1.2, e.2.
  rewrite !list_lookup_fmap, He. cbn.
  split; [exact Hfeat|]. split; [done|]. split; [done|]. split; [done|].
  split; [exact Hidx|]. split; [exact Hm|]. split; [exact Hne | exact Hex].
Qed.

Lemma generate_dataset_examples_witness :
  let X := [[of_int <$> [0; 1; 0; 0; 0]; of_int <$> [0; 0; 0; 0; 0];
             of_int <$> [0; 0; 0; 1; 0]]] in
  let y := [[[0; 1; 0; 0]; [0; 0; 1; 0]; [0; 0; 0; 1]]] in
  length X = length [[1; 2; 3]] /\ length y = length [[1; 2; 3]] /\
  length [2] = length [[1; 2; 3]] /\
  forall i sequence, [[1; 2; 3]] !! i = Some sequence ->
    exists features idx Xi yi m,
      [[]] !! i = Some features /\
      X !! i = Some Xi /\ y !! i = Some yi /\ [2] !! i = Some m /\
      1 <= idx < Z.of_nat (length sequence) /\
      sequence !! Z.to_nat idx = Some m /\ m <> 0 /\
      generate_example sequence features 4 5 3 idx = Ok ([Xi], [yi]).
Proof.
  apply (generate_dataset_examples 1 (fun _ => 0%nat) [[1; 2; 3]] [[]] 4 5 3).
  reflexivity.
Defined.

(** X11: on a dataset that [generate_dataset] returns for genomes no longer
    than [max_length] with category codes in [0, num_functions),
    [known_category] recovers the recorded [masked_func]. *)
Theorem known_category_generate_dataset (fuel : nat) (draws : nat -> nat)
    (sequences : list (list Z)) (all_features : list (list (list npfloat)))
    (num_functions n_features max_length : nat)
    (X : list (list (list npfloat))) (y : list (list (list Z)))
    (masked_func : list Z) :
  Forall (fun sequence =>
            (length sequence <= max_length)%nat /\
            Forall (fun v => 0 <= v < Z.of_nat num_functions) sequence)
         sequences ->
  generate_dataset fuel draws sequences all_features num_functions n_features
    max_length = Some (Ok (X, y, masked_func)) ->
  known_category X y num_functions = Ok (Z.to_nat <$> masked_func).
Proof.
  intros Hseqs. unfold generate_dataset.
  destruct (generate_dataset_loop _ _ _ _ _ _ _ _ _ _) as [[acc|e]|] eqn:Hrun;
    [|discriminate..].
  intros [= <- <- <-].
  apply generate_dataset_loop_trace in Hrun as (news & -> & -> & -> & Hall).
  cbn. rewrite (concat_singletons (fun e => e.1.1)),
         (concat_singletons (fun e => e.1.2)).
  apply known_category_Ok; [by rewrite !length_fmap|].
  intros i Xi c. rewrite !list_lookup_fmap.
  destruct (news !! i) as [e|] eqn:He; [|discriminate]. cbn.
  intros [= <-] [= <-].
  assert (i < length (seq 0 (length sequences)))%nat as Hi.
  { rewrite (Forall2_length _ _ _ Hall). by eapply lookup_lt_Some. }
  rewrite length_seq in Hi.
  pose proof (Forall2_lookup_lr _ _ _ i i e Hall (lookup_seq_lt 0 _ _ Hi) He)
    as (sequence & features & idx & Hseq & Hfeat & Hidx & Hm & Hne & Hex).
  cbn in Hseq. rewrite Forall_lookup in Hseqs.
  destruct (Hseqs _ _ Hseq) as [Hlen Hrange].
  destruct (generate_example_label _ _ _ _ _ _ _ _ _ Hlen Hrange
              (ltac:(lia) : 0 <= idx) Hm Hex) as (r & row & Hr & Hrow & Hmax).
  by exists e.1.2, r, row.
Qed.

Lemma known_category_generate_dataset_witness :
  known_category
    [[of_int <$> [0; 1; 0; 0; 0]; of_int <$> [0; 0; 0; 0; 0];
      of_int <$> [0; 0; 0; 1; 0]]]
    [[[0; 1; 0; 0]; [0; 0; 1; 0]; [0; 0; 0; 1]]] 4
  = Ok (Z.to_nat <$> [2]).
Proof.
  apply (known_category_generate_dataset 1 (fun _ => 0%nat) [[1; 2; 3]] [[]]
           4 5 3).
  - repeat constructor; cbn; lia.
  - reflexivity.
Defined.

(** ** What the category-balanced sampler returns *)

Lemma random_choice_Ok {A} (draws : nat -> nat) (l : list A) (cursor : nat) :
  l <> [] ->
  exists x, random_choice draws l cursor = Ok (x, S cursor) /\ x ∈ l.
Proof.
  intros Hne. unfold random_choice.
  pose proof (Z.mod_pos_bound (Z.of_nat (draws cursor)) (Z.of_nat (length l)))
    as Hmod.
  destruct l as [|x0 l0] eqn:Hl; [done|]. rewrite <- Hl in *.
  assert (0 < length l)%nat as Hlen by (rewrite Hl; cbn; lia).
  set (d := Z.of_nat (draws cursor) mod Z.of_nat (length l)) in *.
  assert (exists x, l !! Z.to_nat d = Some x) as [x Hx]
    by (apply lookup_lt_is_Some; lia).
  exists x. split; [|by eapply list_elem_of_lookup_2].
  rewrite <- (Z2Nat.id d) by lia. by rewrite (getitem_nat _ _ _ Hx).
Qed.

Lemma random_choice_inv {A} (draws : nat -> nat) (l : list A) (cursor : nat)
    (chosen : A * nat) :
  random_choice draws l cursor = Ok chosen ->
  chosen.1 ∈ l /\ chosen.2 = S cursor.
Proof.
  intros Hrun. destruct (decide (l = [])) as [->|Hne]; [discriminate|].
  destruct (random_choice_Ok draws l cursor Hne) as (x & Hx & Hin).
  rewrite Hx in Hrun. by injection Hrun as <-.
Qed.

Lemma randint_range (draws : nat -> nat) (a b : Z) (cursor : nat)
    (r : Z * nat) :
  randint draws a b cursor = Ok r -> a <= r.1 <= b.
Proof.
  unfold randint. destruct (decide (a <= b)) as [Hab|]; [|discriminate].
  intros [= <-]. cbn.
  pose proof (Z.mod_pos_bound (Z.of_nat (draws cursor)) (b - a + 1)). lia.
Qed.

Lemma generate_example_singletons (sequence : list Z)
    (features : list (list npfloat)) (num_functions n_features max_length : nat)
    (idx : Z) (r : list (list (list npfloat)) * list (list (list Z))) :
  generate_example sequence features num_functions n_features max_length idx
  = Ok r ->
  exists X y, r = ([X], [y]).
Proof.
  unfold generate_example. intros Hex.
  apply bind_Ok in Hex as (? & _ & Hex).
  apply bind_Ok in Hex as (? & _ & Hex).
  apply bind_Ok in Hex as (? & _ & Hex).
  apply bind_Ok in Hex as (? & _ & Hex).
  apply bind_Ok in Hex as (? & _ & [= <-]). by eexists _, _.
Qed.

(** What the loop appends: for each genome of [todo] either an example with
    the category it masks, or nothing when the genome is left out. *)
Lemma unbiased_category_loop_trace (draws : nat -> nat)
    (sequences : list (list Z)) (all_features : list (list (list npfloat)))
    (num_functions n_features max_length : nat)
    (todo : list nat) (acc : balanced_dataset) (func : Z) (cursor : nat)
    (r : balanced_dataset) :
  1 <= func < Z.of_nat num_functions ->
  unbiased_category_loop draws sequences all_features num_functions n_features
    max_length todo acc func cursor = Ok r ->
  exists news : list (option (list (list npfloat) * list (list Z) * Z)),
    bd_X r = bd_X acc ++ ((fun e => [e.1.1]) <$> omap id news) /\
    bd_y r = bd_y acc ++ ((fun e => [e.1.2]) <$> omap id news) /\
    bd_genome_included r
    = bd_genome_included acc ++ ((fun o => if o is Some _ then 1 else 0) <$> news) /\
    bd_masked_func r = bd_masked_func acc ++ (snd <$> omap id news) /\
    Forall2 (fun i o =>
               exists sequence,
                 sequences !! i = Some sequence /\
                 match o with
                 | None =>
                     exists func, 1 <= func < Z.of_nat num_functions /\
                                  func ∉ sequence
                 | Some e =>
                     1 <= e.2 < Z.of_nat num_functions /\
                     exists features p,
                       all_features !! i = Some features /\
                       sequence !! p = Some e.2 /\
                       generate_example sequence features num_functions
                         n_features max_length (Z.of_nat p)
                       = Ok ([e.1.1], [e.1.2])
                 end)
            todo news.
Proof.
  revert acc func cursor.
  induction todo as [|i todo IH]; intros acc func cursor Hfunc Hrun.
  - injection Hrun as <-. exists []. cbn. rewrite !app_nil_r. by repeat split.
  - cbn [unbiased_category_loop] in Hrun.
    apply bind_Ok in Hrun as (sequence & Hseq & Hrun).
    apply getitem_nat_Ok in Hseq.
    destruct (decide (func ∈ sequence)) as [Hin|Hnin].
    + apply bind_Ok in Hrun as (chosen & Hchosen & Hrun).
      apply bind_Ok in Hrun as (features & Hfeat & Hrun).
      apply bind_Ok in Hrun as (example & Hex & Hrun).
      apply bind_Ok in Hrun as (next & Hnext & Hrun).
      apply random_choice_inv in Hchosen as [Hocc _].
      apply elem_of_occurrences in Hocc.
      apply getitem_nat_Ok in Hfeat.
      destruct (generate_example_singletons _ _ _ _ _ _ _ Hex)
        as (X & y & ->).
      apply randint_range in Hnext as Hnext'.
      destruct (IH _ _ _ (ltac:(lia) : 1 <= next.1 < Z.of_nat num_functions)
                  Hrun) as (news & HX & Hy & Hinc & Hm & Hall).
      cbn in HX, Hy, Hinc, Hm.
      exists (Some (X, y, func) :: news). cbn.
      rewrite HX, Hy, Hinc, Hm, <- !app_assoc. repeat split; try done.
      constructor; [|exact Hall]. exists sequence. split; [done|].
      split; [done|]. by exists features, chosen.1.
    + destruct (IH _ _ _ Hfunc Hrun) as (news & HX & Hy & Hinc & Hm & Hall).
      cbn in HX, Hy, Hinc, Hm.
      exists (None :: news). cbn.
      rewrite HX, Hy, Hinc, Hm, <- !app_assoc. repeat split; try done.
      constructor; [|exact Hall]. exists sequence. split; [done|].
      by exists func.
Qed.

Lemma generate_dataset_unbiased_category_trace (draws : nat -> nat)
    (sequences : list (list Z)) (all_features : list (list (list npfloat)))
    (num_functions n_features max_length : nat)
    (X : list (list (list npfloat))) (y : list (list (list Z)))
    (genome_included masked_func : list Z) :
  generate_dataset_unbiased_category draws sequences all_features
    num_functions n_features max_length
  = Ok (X, y, genome_included, masked_func) ->
  exists news : list (option (list (list npfloat) * list (list Z) * Z)),
    X = (fun e => e.1.1) <$> omap id news /\
    y = (fun e => e.1.2) <$> omap id news /\
    genome_included = (fun o => if o is Some _ then 1 else 0) <$> news /\
    masked_func = snd <$> omap id news /\
    Forall2 (fun i o =>
               exists sequence,
                 sequences !! i = Some sequence /\
                 match o with
                 | None =>
                     exists func, 1 <= func < Z.of_nat num_functions /\
                                  func ∉ sequence
                 | Some e =>
                     1 <= e.2 < Z.of_nat num_functions /\
                     exists features p,
                       all_features !! i = Some features /\
                       sequence !! p = Some e.2 /\
                       generate_example sequence features num_functions
                         n_features max_length (Z.of_nat p)
                       = Ok ([e.1.1], [e.1.2])
                 end)
            (seq 0 (length sequences)) news.
Proof.
  unfold generate_dataset_unbiased_category. intros Hrun.
  apply bind_Ok in Hrun as (first & Hfirst & Hrun).
  apply bind_Ok in Hrun as (acc & Hloop & [= <- <- <- <-]).
  apply randint_range in Hfirst.
  apply unbiased_category_loop_trace in Hloop
    as (news & -> & -> & -> & -> & Hall); [|lia].
  exists news. cbn.
  by rewrite (concat_singletons (fun e => e.1.1)),
       (concat_singletons (fun e => e.1.2)).
Qed.

(** Counting the genomes included so far locates an example. *)
Lemma included_count {A} (news : list (option A)) :
  length (filter (fun b => b = 1)
            ((fun o : option A => if o is Some _ then 1 else 0) <$> news))
  = length (omap id news).
Proof.
  induction news as [|[e|] news IH]; [done| |].
  - rewrite fmap_cons, filter_cons_True by done. cbn. by rewrite IH.
  - rewrite fmap_cons, filter_cons_False by done. exact IH.
Qed.

Lemma omap_lookup_count {A} (news : list (option A)) (i : nat) (e : A) :
  news !! i = Some (Some e) ->
  omap id news !! length (omap id (take i news)) = Some e.
Proof.
  revert i. induction news as [|o news IH]; intros i; [done|].
  destruct i as [|i]; cbn.
  - by intros [= ->].
  - intros Hi. destruct o as [e'|]; cbn; by apply IH.
Qed.

(** X12: what [generate_dataset_unbiased_category] returns. [genome_included]
    has one 0/1 flag per genome; there is one example and one [masked_func]
    entry per included genome, in order, so the example of genome [i] sits at
    the number of genomes included before it. Its mask is on a gene of that
    genome whose category is the recorded [masked_func] entry, which lies in
    [1, num_functions) and is therefore never the unknown category. A genome
    that is left out lacks some category of that range. *)
Theorem unbiased_sampler_returns (draws : nat -> nat)
    (sequences : list (list Z)) (all_features : list (list (list npfloat)))
    (num_functions n_features max_length : nat)
    (X : list (list (list npfloat))) (y : list (list (list Z)))
    (genome_included masked_func : list Z) :
  generate_dataset_unbiased_category draws sequences all_features
    num_functions n_features max_length
  = Ok (X, y, genome_included, masked_func) ->
  length genome_included = length sequences /\
  length masked_func = length (filter (fun b => b = 1) genome_included) /\
  length X = length masked_func /\ length y = length masked_func /\
  Forall (fun m => 1 <= m < Z.of_nat num_functions) masked_func /\
  forall i sequence, sequences !! i = Some sequence ->
    (genome_included !! i = Some 0 /\
     exists func, 1 <= func < Z.of_nat num_functions /\ func ∉ sequence) \/
    (genome_included !! i = Some 1 /\
     exists features p Xk yk m,
       let k := length (filter (fun b => b = 1) (take i genome_included)) in
       all_features !! i = Some features /\
       X !! k = Some Xk /\ y !! k = Some yk /\ masked_func !! k = Some m /\
       sequence !! p = Some m /\
       generate_example sequence features num_functions n_features max_length
         (Z.of_nat p) = Ok ([Xk], [yk])).
Proof.
  intros Hrun.
  apply generate_dataset_unbiased_category_trace in Hrun
    as (news & -> & -> & -> & -> & Hall).
  pose proof (Forall2_length _ _ _ Hall) as Hlen. rewrite length_seq in Hlen.
  rewrite !length_fmap, included_count.
  split; [done|]. split; [done|]. split; [done|]. split; [done|]. split.
  - apply Forall_fmap, Forall_forall. intros e He.
    apply list_elem_of_omap in He as (o & Ho & Hoe). cbn in Hoe. subst o.
    apply list_elem_of_lookup in Ho as [i Hi].
    assert (i < length sequences)%nat as Hilt
      by (rewrite Hlen; by eapply lookup_lt_Some).
    pose proof (Forall2_lookup_lr _ _ _ i i _ Hall (lookup_seq_lt 0 _ _ Hilt) Hi)
      as (sequence & _ & Hm & _). exact Hm.
  - intros i sequence Hseq.
    assert (i < length sequences)%nat as Hilt by by eapply lookup_lt_Some.
    assert (exists o, news !! i = Some o) as [o Ho]
      by (apply lookup_lt_is_Some; lia).
    pose proof (Forall2_lookup_lr _ _ _ i i _ Hall (lookup_seq_lt 0 _ _ Hilt) Ho)
      as (sequence' & Hseq' & Ho').
    cbn in Hseq'. assert (sequence' = sequence) as -> by congruence.
    rewrite list_lookup_fmap, Ho. cbn. destruct o as [e|].
    + right. split; [done|].
      destruct Ho' as (Hm & features & p & Hfeat & Hp & Hex).
      exists features, p, e.1.1, e.1.2, e.2. cbn zeta.
      rewrite <- fmap_take, included_count.
      rewrite !list_lookup_fmap, (omap_lookup_count _ _ _ Ho). cbn.
      split; [exact Hfeat|]. split; [done|]. split; [done|]. split; [done|].
      split; [exact Hp | exact Hex].
    + left. split; [done | exact Ho'].
Qed.

Lemma unbiased_sampler_returns_witness :
  let X := [[of_int <$> [0; 0; 0; 0]; of_int <$> [0; 0; 1; 0]]] in
  let y := [[[0; 1; 0]; [0; 0; 1]]] in
  length [0; 1] = length [[2; 2]; [1; 2]] /\
  length [1] = length (filter (fun b => b = 1) [0; 1]) /\
  length X = length [1] /\ length y = length [1] /\
  Forall (fun m => 1 <= m < Z.of_nat 3) [1] /\
  forall i sequence, [[2; 2]; [1; 2]] !! i = Some sequence ->
    ([0; 1] !! i = Some 0 /\
     exists func, 1 <= func < Z.of_nat 3 /\ func ∉ sequence) \/
    ([0; 1] !! i = Some 1 /\
     exists features p Xk yk m,
       let k := length (filter (fun b => b = 1) (take i [0; 1])) in
       [[]; []] !! i = Some features /\
       X !! k = Some Xk /\ y !! k = Some yk /\ [1] !! k = Some m /\
       sequence !! p = Some m /\
       generate_example sequence features 3 4 2 (Z.of_nat p) = Ok ([Xk], [yk])).
Proof.
  apply (unbiased_sampler_returns (fun _ => 0%nat) [[2; 2]; [1; 2]] [[]; []]
           3 4 2).
  reflexivity.
Defined.

Lemma Forall2_omap_id {A B} (R : A -> option B -> Prop) (l : list A)
    (news : list (option B)) :
  Forall2 R l news ->
  Forall (fun e => exists i, R i (Some e)) (omap id news).
Proof.
  induction 1 as [|i o l news Hio _ IH]; cbn; [constructor|].
  destruct o as [e|]; cbn; [|exact IH]. constructor; [by exists i | exact IH].
Qed.

(** X13: on a dataset that [generate_dataset_unbiased_category] returns for
    genomes no longer than [max_length] with category codes in
    [0, num_functions), [known_category] recovers the recorded
    [masked_func]. *)
Theorem known_category_unbiased_sampler (draws : nat -> nat)
    (sequences : list (list Z)) (all_features : list (list (list npfloat)))
    (num_functions n_features max_length : nat)
    (X : list (list (list npfloat))) (y : list (list (list Z)))
    (genome_included masked_func : list Z) :
  Forall (fun sequence =>
            (length sequence <= max_length)%nat /\
            Forall (fun v => 0 <= v < Z.of_nat num_functions) sequence)
         sequences ->
  generate_dataset_unbiased_category draws sequences all_features
    num_functions n_features max_length
  = Ok (X, y, genome_included, masked_func) ->
  known_category X y num_functions = Ok (Z.to_nat <$> masked_func).
Proof.
  intros Hseqs Hrun.
  apply generate_dataset_unbiased_category_trace in Hrun
    as (news & -> & -> & _ & -> & Hall).
  apply Forall2_omap_id in Hall. rewrite Forall_lookup in Hall.
  apply known_category_Ok; [by rewrite !length_fmap|].
  intros k Xk c. rewrite !list_lookup_fmap.
  destruct (omap id news !! k) as [e|] eqn:He; [|discriminate]. cbn.
  intros [= <-] [= <-].
  destruct (Hall _ _ He)
    as (i & sequence & Hseq & _ & features & p & _ & Hp & Hex).
  rewrite Forall_lookup in Hseqs.
  destruct (Hseqs _ _ Hseq) as [Hlen Hrange].
  destruct (generate_example_label sequence features num_functions n_features
              max_length (Z.of_nat p) e.2 e.1.1 e.1.2 Hlen Hrange)
    as (r & row & Hr & Hrow & Hmax); [lia | by rewrite Nat2Z.id | done |].
  by exists e.1.2, r, row.
Qed.

Lemma known_category_unbiased_sampler_witness :
  known_category [[of_int <$> [0; 0; 0; 0]; of_int <$> [0; 0; 1; 0]]]
    [[[0; 1; 0]; [0; 0; 1]]] 3
  = Ok (Z.to_nat <$> [1]).
Proof.
  apply (known_category_unbiased_sampler (fun _ => 0%nat) [[2; 2]; [1; 2]]
           [[]; []] 3 4 2 _ _ [0; 1]).
  - repeat constructor; cbn; lia.
  - reflexivity.
Defined.

(** ** The category-balanced sampler always returns *)

Lemma unbiased_category_loop_Ok (draws : nat -> nat)
    (sequences : list (list Z)) (all_features : list (list (list npfloat)))
    (num_functions n_features max_length : nat)
    (todo : list nat) (acc : balanced_dataset) (func : Z) (cursor : nat) :
  (2 <= num_functions)%nat ->
  (length sequences <= length all_features)%nat ->
  Forall (fun sequence =>
            (length sequence <= max_length)%nat /\
            Forall (fun v => 0 <= v < Z.of_nat num_functions) sequence)
         sequences ->
  Forall (fun features =>
            (num_functions + length features <= n_features)%nat /\
            Forall (fun feature => length feature <= max_length)%nat features)
         all_features ->
  Forall (fun i => i < length sequences)%nat todo ->
  is_Ok (unbiased_category_loop draws sequences all_features num_functions
           n_features max_length todo acc func cursor).
Proof.
  intros Hnf Hlens Hseqs Hfeats. revert acc func cursor.
  induction todo as [|i todo IH]; intros acc func cursor Htodo; cbn;
    [by eexists|].
  apply Forall_cons in Htodo as [Hi Htodo].
  assert (exists sequence, sequences !! i = Some sequence) as [sequence Hseq]
    by by apply lookup_lt_is_Some.
  rewrite (getitem_nat _ _ _ Hseq). cbn.
  destruct (decide (func ∈ sequence)) as [Hin|Hnin]; [|by apply IH].
  destruct (random_choice_Ok draws (occurrences func sequence) cursor)
    as (p & Hchoice & Hp).
  { apply list_elem_of_lookup in Hin as [j Hj].
    apply elem_of_occurrences in Hj. intros Hnil. rewrite Hnil in Hj.
    by apply elem_of_nil in Hj. }
  rewrite Hchoice. cbn.
  assert (exists features, all_features !! i = Some features)
    as [features Hfeat] by (apply lookup_lt_is_Some; lia).
  rewrite (getitem_nat _ _ _ Hfeat). cbn.
  apply elem_of_occurrences in Hp.
  rewrite Forall_lookup in Hseqs. destruct (Hseqs _ _ Hseq) as [Hlen Hrange].
  rewrite Forall_lookup in Hfeats. destruct (Hfeats _ _ Hfeat) as [Hcols Hfs].
  destruct (generate_example_Ok sequence features num_functions n_features
              max_length (Z.of_nat p)) as [example Hex]; try done.
  { eapply Forall_impl;
      [apply (padded_in_range sequence num_functions); [lia | exact Hrange]|].
    intros v Hv. cbn in *. lia. }
  { apply lookup_lt_Some in Hp. lia. }
  rewrite Hex. cbn. unfold randint at 1. rewrite decide_True by lia. cbn.
  by apply IH.
Qed.

(** X14: unlike the uniform sampler, the category-balanced sampler returns
    for every draw oracle, whatever categories the genomes hold: it needs at
    least two categories, features for every genome, genomes no longer than
    [max_length] with codes in [0, num_functions), room for the feature
    columns, and no feature array longer than [max_length]. *)
Theorem unbiased_sampler_total (draws : nat -> nat)
    (sequences : list (list Z)) (all_features : list (list (list npfloat)))
    (num_functions n_features max_length : nat) :
  (2 <= num_functions)%nat ->
  (length sequences <= length all_features)%nat ->
  Forall (fun sequence =>
            (length sequence <= max_length)%nat /\
            Forall (fun v => 0 <= v < Z.of_nat num_functions) sequence)
         sequences ->
  Forall (fun features =>
            (num_functions + length features <= n_features)%nat /\
            Forall (fun feature => length feature <= max_length)%nat features)
         all_features ->
  is_Ok (generate_dataset_unbiased_category draws sequences all_features
           num_functions n_features max_length).
Proof.
  intros Hnf Hlens Hseqs Hfeats. unfold generate_dataset_unbiased_category.
  unfold randint at 1. rewrite decide_True by lia. cbn.
  destruct (unbiased_category_loop_Ok draws sequences all_features
              num_functions n_features max_length (seq 0 (length sequences))
              (BalancedDataset [] [] [] [])
              (1 + Z.of_nat (draws 0%nat) mod (Z.of_nat num_functions - 1 - 1 + 1))
              1 Hnf Hlens Hseqs Hfeats) as [acc Hacc].
  { apply Forall_forall. intros i Hi%elem_of_seq. lia. }
  rewrite Hacc. cbn. by eexists.
Qed.

Lemma unbiased_sampler_total_witness :
  is_Ok (generate_dataset_unbiased_category (fun n => n) [[1; 0; 0]] [[]]
           2 2 3).
Proof.
  apply unbiased_sampler_total.
  - lia.
  - cbn. lia.
  - repeat constructor; cbn; lia.
  - repeat constructor; cbn; lia.
Defined.

(** With fewer than two categories the first draw
    [random.randint(1, num_functions - 1)] has an empty range: the sampler
    raises ValueError before it looks at any genome. *)
Lemma unbiased_sampler_needs_two_categories (draws : nat -> nat)
    (sequences : list (list Z)) (all_features : list (list (list npfloat)))
    (num_functions n_features max_length : nat) :
  (num_functions < 2)%nat ->
  generate_dataset_unbiased_category draws sequences all_features
    num_functions n_features max_length = Raise ValueError.
Proof.
  intros Hnf. unfold generate_dataset_unbiased_category, randint.
  by rewrite decide_False by lia.
Qed.

(** ** When format_data returns *)

Lemma mapM_np_max_Ok (arrays : list (list Z)) :
  Forall (fun l => l <> []) arrays ->
  exists maxes, mapM np_max arrays = Ok maxes /\ length maxes = length arrays.
Proof.
  induction 1 as [|l arrays Hl _ (maxes & Hmaxes & Hlen)]; [by exists []|].
  destruct (np_max_Ok l Hl) as [m Hm].
  exists (m :: maxes). cbn. rewrite Hm. cbn. rewrite Hmaxes. cbn.
  split; [done | by rewrite Hlen].
Qed.

Lemma mapM_np_max_Raise (arrays : list (list Z)) :
  ~ Forall (fun l => l <> []) arrays -> mapM np_max arrays = Raise ValueError.
Proof.
  induction arrays as [|l arrays IH]; intros Hnot.
  - exfalso. apply Hnot. constructor.
  - cbn. destruct l as [|x l]; [done|]. cbn.
    rewrite IH; [done|]. intros Hall. apply Hnot. by constructor.
Qed.

Lemma max_of_maxes_Ok (arrays : list (list Z)) :
  arrays <> [] -> Forall (fun l => l <> []) arrays ->
  is_Ok (max_of_maxes arrays).
Proof.
  intros Hne Hall. unfold max_of_maxes.
  destruct (mapM_np_max_Ok arrays Hall) as (maxes & -> & Hlen). cbn.
  apply np_max_Ok. intros ->. by destruct arrays.
Qed.

Lemma max_of_maxes_Raise (arrays : list (list Z)) :
  ~ (arrays <> [] /\ Forall (fun l => l <> []) arrays) ->
  max_of_maxes arrays = Raise ValueError.
Proof.
  intros Hnot. unfold max_of_maxes.
  destruct (decide (Forall (fun l => l <> []) arrays)) as [Hall|Hall].
  - destruct (mapM_np_max_Ok arrays Hall) as (maxes & -> & Hlen). cbn.
    destruct arrays as [|l arrays]; [by destruct maxes|].
    exfalso. apply Hnot. by split.
  - by rewrite mapM_np_max_Raise.
Qed.

Lemma gene_lengths_nonempty (genomes : list genome) :
  Forall (fun g => g_position g <> []) genomes <->
  Forall (fun l => l <> []) (gene_lengths <$> genomes).
Proof.
  rewrite Forall_fmap. apply Forall_proper; [|done]. intros g. cbn.
  unfold gene_lengths. by destruct (g_position g).
Qed.

(** X15: [format_data] returns exactly when the dataset is not empty and
    every genome has at least one gene position; otherwise the first
    [np.max] of an empty array raises ValueError. Nothing else is checked:
    neither the lengths of the fields of a genome against each other, nor
    that the labels are keys of the encoding. *)
Theorem format_data_returns_iff (training_data : pydict string genome)
    (phrog_encoding : gmap string Z) :
  NoDup (pydict_keys training_data) ->
  let well_formed :=
    training_data <> [] /\
    Forall (fun g => g_position g <> []) (pydict_values training_data) in
  (well_formed -> is_Ok (format_data training_data phrog_encoding)) /\
  (~ well_formed ->
   format_data training_data phrog_encoding = Raise ValueError).
Proof.
  intros Hnd well_formed. subst well_formed. split.
  - intros [Hne Hall].
    destruct (max_of_maxes_Ok (gene_lengths <$> pydict_values training_data))
      as [ml Hml].
    { by destruct training_data. }
    { by apply gene_lengths_nonempty. }
    destruct (max_of_maxes_Ok
                ((fun i => Z.abs <$> i)
                   <$> (intergenic_distances <$> pydict_values training_data)))
      as [mi Hmi].
    { by destruct training_data. }
    { rewrite !Forall_fmap. by apply Forall_true. }
    destruct (format_data_returns training_data phrog_encoding ml mi Hnd Hml Hmi)
      as (encs & feats & Hrun).
    by eexists.
  - intros Hnot. unfold format_data.
    rewrite (mapM_get_genome training_data training_data Hnd) by done. cbn.
    unfold dataset_max_length. rewrite max_of_maxes_Raise; [done|].
    intros [Hne Hall]. apply Hnot. split.
    + intros ->. by apply Hne.
    + by apply gene_lengths_nonempty.
Qed.

Lemma format_data_returns_iff_witness :
  let well_formed :=
    sample_training_data <> [] /\
    Forall (fun g => g_position g <> []) (pydict_values sample_training_data) in
  (well_formed -> is_Ok (format_data sample_training_data sample_encoding)) /\
  (~ well_formed ->
   format_data sample_training_data sample_encoding = Raise ValueError).
Proof.
  apply (format_data_returns_iff sample_training_data sample_encoding).
  apply sample_training_data_keys.
Defined.

(** ** format_data_flipped against format_data and flip_genomes *)

Lemma raw_features_not_flipped (phrog_encoding : gmap string Z) (g : genome) :
  g_phrogs g <> [] ->
  last (categories phrog_encoding g) <> Some (Some 1) ->
  raw_features_flipped phrog_encoding g
  = Ok (RawFeatures (categories phrog_encoding g) (gene_lengths g)
          (strand_codes g) (gene_starts g) (intergenic_distances g)).
Proof.
  intros Hne Hlast. unfold raw_features_flipped.
  assert (exists l, last (categories phrog_encoding g) = Some l) as [l Hl].
  { destruct (last (categories phrog_encoding g)) as [l|] eqn:Hl; [by eexists|].
    apply last_None, fmap_nil_inv in Hl. done. }
  rewrite (getitem_last _ _ Hl). cbn.
  rewrite decide_False; [done|]. intros ->. by apply Hlast.
Qed.

(** X16: on a dataset in which no genome ends with the marker category 1,
    [format_data_flipped] computes exactly what [format_data] computes. *)
Theorem format_data_flipped_without_marker_last
    (training_data : pydict string genome) (phrog_encoding : gmap string Z) :
  NoDup (pydict_keys training_data) ->
  (forall key g, (key, g) ∈ training_data ->
     g_phrogs g <> [] /\ last (categories phrog_encoding g) <> Some (Some 1)) ->
  format_data_flipped training_data phrog_encoding
  = format_data training_data phrog_encoding.
Proof.
  intros Hnd Hall. unfold format_data_flipped, format_data.
  rewrite (mapM_get_genome training_data training_data Hnd) by done.
  assert (mapM (fun key => g ← get_genome training_data key;
                           raw_features_flipped phrog_encoding g)
               (pydict_keys training_data)
          = Ok ((fun g => RawFeatures (categories phrog_encoding g)
                            (gene_lengths g) (strand_codes g) (gene_starts g)
                            (intergenic_distances g))
                <$> pydict_values training_data)) as ->.
  { unfold pydict_keys, pydict_values. rewrite <- list_fmap_compose.
    apply mapM_Ok_Forall2, Forall2_fmap, Forall_Forall2_diag, Forall_forall.
    intros [key g] Hin. cbn.
    rewrite (get_genome_elem_of _ _ _ Hnd Hin). cbn.
    destruct (Hall _ _ Hin) as [Hne Hlast].
    by apply raw_features_not_flipped. }
  cbn. unfold dataset_max_length, dataset_max_intergenic.
  rewrite <- !list_fmap_compose. reflexivity.
Qed.

Lemma format_data_flipped_without_marker_last_witness :
  format_data_flipped [("phage_D", genome_four_categories)] sample_encoding
  = format_data [("phage_D", genome_four_categories)] sample_encoding.
Proof.
  apply format_data_flipped_without_marker_last.
  - repeat constructor. by intros ?%elem_of_nil.
  - intros key g [[= -> ->]|[]%elem_of_nil]%elem_of_cons.
    split; [done|]. vm_compute. discriminate.
Defined.

Lemma gaps_snoc (position : list (Z * Z)) (q : Z * Z) :
  gaps (position ++ [q])
  = match last position with
    | Some p => gaps position ++ [q.1 - p.2]
    | None => []
    end.
Proof.
  induction position as [|a [|b position] IH]; [reflexivity..|].
  change (gaps ((a :: b :: position) ++ [q]))
    with ((b.1 - a.2) :: gaps ((b :: position) ++ [q])).
  rewrite IH. change (last (a :: b :: position)) with (last (b :: position)).
  destruct (last (b :: position)) as [p|] eqn:Hp; [reflexivity|].
  by apply last_None in Hp.
Qed.

(** Reflecting the coordinates reverses the intergenic distances. *)
Lemma gaps_flip_positions (length : Z) (position : list (Z * Z)) :
  Forall (fun span => span.1 <= length /\ span.2 <= length) position ->
  gaps (flip_positions length position) = reverse (gaps position).
Proof.
  unfold flip_positions.
  induction 1 as [|p position Hp Hall IH]; [done|].
  rewrite reverse_cons, fmap_app, list_fmap_singleton, gaps_snoc.
  destruct position as [|q position]; [done|].
  rewrite IH, reverse_cons, fmap_app, list_fmap_singleton, last_snoc.
  change (gaps (p :: q :: position)) with ((q.1 - p.2) :: gaps (q :: position)).
  rewrite (reverse_cons (gaps (q :: position))). f_equal. f_equal. cbn.
  apply Forall_cons in Hall as [Hq _]. lia.
Qed.

(** The start positions that the plain extraction gives on reflected
    coordinates, against those of the flipped branch. *)
Lemma starts_flip_positions (length : Z) (position : list (Z * Z))
    (last_gene : Z * Z) :
  last position = Some last_gene ->
  Forall (fun span => span.1 <= length /\ span.2 <= length) position ->
  match flip_positions length position with
  | [] => []
  | first :: _ => (fun i => i.1 - first.1 + 1) <$> flip_positions length position
  end
  = (fun a => a - (length - last_gene.2))
    <$> reverse ((fun i => length - i.2 + 1) <$> position).
Proof.
  intros [init ->]%last_Some Hbound.
  assert (flip_positions length (init ++ [last_gene])
          = (Z.abs (last_gene.2 - length), Z.abs (last_gene.1 - length))
            :: flip_positions length init) as Hflip.
  { unfold flip_positions. by rewrite reverse_snoc. }
  destruct (flip_positions length (init ++ [last_gene])) as [|first rest] eqn:Hd;
    [discriminate|].
  injection Hflip as -> _. rewrite <- Hd. unfold flip_positions.
  rewrite <- fmap_reverse, <- !list_fmap_compose.
  apply Forall_fmap_ext_1, Forall_reverse.
  apply Forall_app in Hbound as Hb. destruct Hb as [_ Hlast].
  apply Forall_inv in Hlast.
  eapply Forall_impl; [exact Hbound|]. intros [s e] [Hs He]. cbn in *. lia.
Qed.

(** X17: the two ways of turning a genome round do not compute the same
    features. For a genome that ends with the marker category and whose
    coordinates do not exceed its length, the flipped branch of
    [format_data_flipped] agrees with the plain feature extraction applied
    to the genome that [flip_genomes] builds on the categories, the gene
    lengths and the strand codes; its start positions are larger by the
    distance between the last gene end and the genome end; and its
    intergenic distances are those of the flipped genome in reverse order
    (they are not reversed with the genes). *)
Theorem flipped_features_of_flip_genome (phrog_encoding : gmap string Z)
    (g : genome) :
  last (categories phrog_encoding g) = Some (Some 1) ->
  Forall (fun span => span.1 <= g_length g /\ span.2 <= g_length g)
         (g_position g) ->
  exists g' rf,
    flip_genome phrog_encoding g = Ok g' /\
    raw_features_flipped phrog_encoding g = Ok rf /\
    rf_encoding rf = categories phrog_encoding g' /\
    rf_length rf = gene_lengths g' /\
    rf_sense rf = strand_codes g' /\
    (forall last_gene, last (g_position g) = Some last_gene ->
       rf_start rf
       = (fun a => a + (g_length g - last_gene.2)) <$> gene_starts g') /\
    rf_intergenic rf = 0 :: reverse (gaps (g_position g')) /\
    intergenic_distances g' = 0 :: gaps (g_position g').
Proof.
  intros Hlast Hbound.
  unfold flip_genome, raw_features_flipped.
  rewrite (getitem_last _ _ Hlast). cbn [mbind result_bind].
  rewrite decide_True by done.
  eexists _, _. split; [reflexivity|]. split; [reflexivity|].
  cbn [rf_encoding rf_length rf_sense rf_start rf_intergenic].
  split; [|split; [|split; [|split; [|split]]]].
  - unfold categories. cbn [g_phrogs]. by rewrite fmap_reverse.
  - unfold gene_lengths, flip_positions. cbn [g_position].
    rewrite <- list_fmap_compose, fmap_reverse. f_equal.
    apply Forall_fmap_ext_1. eapply Forall_impl; [exact Hbound|].
    intros [s e] [Hs He]. cbn in *. lia.
  - unfold strand_codes, flip_sense. cbn [g_sense].
    rewrite <- list_fmap_compose, fmap_reverse. f_equal.
    apply list_fmap_ext. intros _ s _. cbn.
    destruct (decide (s = "+")) as [->|Hs]; [done|].
    by rewrite decide_True.
  - intros last_gene Hlg. unfold gene_starts. cbn [g_position].
    rewrite (starts_flip_positions _ _ _ Hlg Hbound).
    rewrite <- list_fmap_compose. symmetry.
    etrans; [|apply list_fmap_id]. apply list_fmap_ext.
    intros _ a _. cbn. lia.
  - cbn [g_position]. rewrite gaps_flip_positions by exact Hbound.
    by rewrite reverse_involutive.
  - reflexivity.
Qed.

Lemma flipped_features_of_flip_genome_witness :
  exists g' rf,
    flip_genome sample_encoding genome_marker_last_offset = Ok g' /\
    raw_features_flipped sample_encoding genome_marker_last_offset = Ok rf /\
    rf_encoding rf = categories sample_encoding g' /\
    rf_length rf = gene_lengths g' /\
    rf_sense rf = strand_codes g' /\
    (forall last_gene, last (g_position genome_marker_last_offset) = Some last_gene ->
       rf_start rf
       = (fun a => a + (g_length genome_marker_last_offset - last_gene.2))
         <$> gene_starts g') /\
    rf_intergenic rf = 0 :: reverse (gaps (g_position g')) /\
    intergenic_distances g' = 0 :: gaps (g_position g').
Proof.
  apply (flipped_features_of_flip_genome sample_encoding genome_marker_last_offset).
  - reflexivity.
  - repeat constructor; cbn; lia.
Defined.

(** ** flip_genomes: marker first, and flipping twice *)

Lemma categories_reversed (phrog_encoding : gmap string Z) (g : genome) :
  categories phrog_encoding (spec_reversed_genome g)
  = reverse (categories phrog_encoding g).
Proof. unfold categories. cbn [spec_reversed_genome g_phrogs]. apply fmap_reverse. Qed.

Lemma categories_nonempty (phrog_encoding : gmap string Z) (g : genome) :
  categories phrog_encoding g <> [] <-> g_phrogs g <> [].
Proof. unfold categories. by destruct (g_phrogs g). Qed.

(** X18: when every genome of the dataset carries the marker category 1 at
    its first or at its last gene, which is what the filter of
    [generate_data] keeps, every genome that [flip_genomes] returns starts
    with the marker, under the same keys in the same order. *)
Theorem flip_genomes_marker_first (training_data : pydict string genome)
    (phrog_encoding : gmap string Z) :
  NoDup (pydict_keys training_data) ->
  (forall key g, (key, g) ∈ training_data ->
     head (categories phrog_encoding g) = Some (Some 1) \/
     last (categories phrog_encoding g) = Some (Some 1)) ->
  exists out,
    flip_genomes training_data phrog_encoding = Ok out /\
    pydict_keys out = pydict_keys training_data /\
    forall key g, (key, g) ∈ out ->
      head (categories phrog_encoding g) = Some (Some 1).
Proof.
  intros Hnd Hends.
  rewrite (flip_genomes_fmap _ _ Hnd).
  2:{ intros key g Hin. apply (categories_nonempty phrog_encoding).
      intros Hnil. destruct (Hends key g Hin) as [H|H];
        rewrite Hnil in H; discriminate. }
  eexists. split; [reflexivity|]. split; [apply pydict_keys_fmap|].
  intros key g' ([key0 g] & [= -> ->] & Hin)%list_elem_of_fmap. cbn.
  destruct (decide (last (categories phrog_encoding g) = Some (Some 1)))
    as [Hlast|Hlast].
  - by rewrite categories_reversed, head_reverse.
  - by destruct (Hends _ _ Hin).
Qed.

Lemma flip_genomes_marker_first_witness :
  exists out,
    flip_genomes sample_training_data sample_encoding = Ok out /\
    pydict_keys out = pydict_keys sample_training_data /\
    forall key g, (key, g) ∈ out ->
      head (categories sample_encoding g) = Some (Some 1).
Proof.
  apply flip_genomes_marker_first.
  - apply sample_training_data_keys.
  - intros key g Hin. right.
    apply elem_of_cons in Hin as [[= -> ->]|Hin]; [reflexivity|].
    apply elem_of_cons in Hin as [[= -> ->]|[]%elem_of_nil]. reflexivity.
Defined.

(** X19: on a dataset in which no genome carries the marker at both ends,
    flipping a second time changes nothing: a flipped genome no longer ends
    with the marker. *)
Theorem flip_genomes_idempotent (training_data : pydict string genome)
    (phrog_encoding : gmap string Z) :
  NoDup (pydict_keys training_data) ->
  (forall key g, (key, g) ∈ training_data ->
     g_phrogs g <> [] /\
     ~ (head (categories phrog_encoding g) = Some (Some 1) /\
        last (categories phrog_encoding g) = Some (Some 1))) ->
  exists out,
    flip_genomes training_data phrog_encoding = Ok out /\
    flip_genomes out phrog_encoding = Ok out.
Proof.
  intros Hnd Hall.
  rewrite (flip_genomes_fmap _ _ Hnd) by (intros key g Hin; by apply (Hall key g)).
  eexists. split; [reflexivity|].
  rewrite flip_genomes_fmap.
  - f_equal. rewrite <- list_fmap_compose. apply list_fmap_ext.
    intros _ [key g] Hin%list_elem_of_lookup_2. cbn. f_equal.
    destruct (Hall _ _ Hin) as [Hne Hboth].
    destruct (decide (last (categories phrog_encoding g) = Some (Some 1)))
      as [Hlast|Hlast].
    + rewrite decide_False; [done|].
      rewrite categories_reversed, last_reverse. intros Hhead.
      by apply Hboth.
    + by rewrite decide_False.
  - by rewrite pydict_keys_fmap.
  - intros key g' ([key0 g] & [= -> ->] & Hin)%list_elem_of_fmap. cbn.
    destruct (Hall _ _ Hin) as [Hne _].
    destruct (decide _); [|done]. cbn. intros Hrev.
    apply (f_equal length) in Hrev. rewrite length_reverse in Hrev.
    by destruct (g_phrogs g).
Qed.

Lemma flip_genomes_idempotent_witness :
  exists out,
    flip_genomes [("phage_A", genome_marker_last)] sample_encoding = Ok out /\
    flip_genomes out sample_encoding = Ok out.
Proof.
  apply flip_genomes_idempotent.
  - repeat constructor. by intros ?%elem_of_nil.
  - intros key g [[= -> ->]|[]%elem_of_nil]%elem_of_cons.
    split; [done|]. intros [Hhead _]. vm_compute in Hhead. discriminate.
Defined.

(** ** derep_trainingdata applied twice *)

Lemma derep_trainingdata_distinct (training_data : pydict string genome)
    (phrog_encoding : gmap string Z) :
  NoDup (pydict_keys training_data) ->
  NoDup (signature phrog_encoding <$> pydict_values training_data) ->
  derep_trainingdata training_data phrog_encoding = Ok training_data.
Proof.
  intros Hnd Hsig. unfold derep_trainingdata.
  rewrite (mapM_get_genome training_data training_data Hnd) by done.
  cbn [mbind result_bind].
  rewrite training_hash_signature, zip_hash_keys.
  rewrite pydict_of_items_distinct.
  2:{ unfold pydict_keys. rewrite <- list_fmap_compose.
      unfold pydict_values in Hsig. by rewrite <- list_fmap_compose in Hsig. }
  assert (pydict_values ((fun e : string * genome =>
                            (signature phrog_encoding e.2, e.1))
                         <$> training_data)
          = pydict_keys training_data) as ->.
  { unfold pydict_values, pydict_keys. by rewrite <- list_fmap_compose. }
  rewrite (mapM_get_genome training_data training_data Hnd) by done.
  cbn [mbind result_bind].
  unfold pydict_keys at 1, pydict_values at 1.
  by rewrite zip_fst_snd, (pydict_of_items_distinct _ Hnd).
Qed.

(** X20: [derep_trainingdata] is idempotent, and it returns a dataset whose
    signatures are already pairwise distinct unchanged, order included. *)
Theorem derep_trainingdata_idempotent (training_data : pydict string genome)
    (phrog_encoding : gmap string Z) :
  NoDup (pydict_keys training_data) ->
  exists out,
    derep_trainingdata training_data phrog_encoding = Ok out /\
    derep_trainingdata out phrog_encoding = Ok out /\
    (NoDup (signature phrog_encoding <$> pydict_values training_data) ->
     out = training_data).
Proof.
  intros Hnd.
  destruct (derep_trainingdata_selection training_data phrog_encoding Hnd)
    as (out & Hrun & Hsig & _ & Hsel).
  exists out. split; [exact Hrun|]. split.
  - apply derep_trainingdata_distinct; [|exact Hsig].
    apply NoDup_fmap_2_strong.
    + intros [k1 g1] [k2 g2] H1 H2. cbn. intros <-.
      assert (forall e, e ∈ out -> e ∈ training_data) as Hsub.
      { intros e (before & after & -> & _)%Hsel.
        apply elem_of_app. right. left. }
      apply Hsub in H1, H2.
      apply (pydict_get_elem_of _ _ _ Hnd) in H1, H2. congruence.
    + apply NoDup_fmap_1 in Hsig. unfold pydict_values in Hsig.
      by apply NoDup_fmap_1 in Hsig.
  - intros Hdistinct.
    rewrite (derep_trainingdata_distinct _ _ Hnd Hdistinct) in Hrun.
    by injection Hrun.
Qed.

Lemma derep_trainingdata_idempotent_witness :
  exists out,
    derep_trainingdata sample_duplicates sample_encoding = Ok out /\
    derep_trainingdata out sample_encoding = Ok out /\
    (NoDup (signature sample_encoding <$> pydict_values sample_duplicates) ->
     out = sample_duplicates).
Proof.
  apply derep_trainingdata_idempotent. apply sample_duplicates_keys.
Defined.

(** ** generate_data: filter, then dereplicate *)





(** ** select_features on the output of format_data *)

(** X22: what [train_kfold] passes from [format_data] to the sampler after
    [select_features]. With ["all"] a genome keeps its five feature arrays;
    with ["strand"] it keeps the two strand indicators (not on ['+'] first,
    on ['+'] second); the options ["none"], ["intergenic"], ["gene_length"],
    ["position"] and ["orientation_count"] all pass [feature_check] and all
    leave the genome without any feature. *)
Theorem select_features_format_data (training_data : pydict string genome)
    (phrog_encoding : gmap string Z) encs feats (features : string)
    (j : nat) (key : string) (g : genome) :
  NoDup (pydict_keys training_data) ->
  format_data training_data phrog_encoding = Ok (encs, feats) ->
  training_data !! j = Some (key, g) ->
  length (select_features feats features) = length training_data /\
  (features = "all" ->
   exists fs, feats !! j = Some fs /\ length fs = 5%nat /\
              select_features feats features !! j = Some fs) /\
  (features = "strand" ->
   select_features feats features !! j
   = Some [(fun s => of_int (if decide (s = "+") then 0 else 1)) <$> g_sense g;
           (fun s => of_int (if decide (s = "+") then 1 else 0)) <$> g_sense g]) /\
  (features ∈ ["none"; "intergenic"; "gene_length"; "position";
               "orientation_count"] ->
   feature_check features = Accepted features /\
   select_features feats features !! j = Some []).
Proof.
  intros Hnd Hrun Hj.
  destruct (format_data_inv _ _ _ _ Hnd Hrun)
    as (ml & mi & _ & _ & _ & Hlen & Hrows).
  destruct (Hrows j g (lookup_values _ _ _ _ Hj)) as (ms & _ & Hfs).
  split; [|split; [|split]].
  - unfold select_features. repeat case_decide; by rewrite ?length_fmap.
  - intros ->. eexists. split; [exact Hfs|]. split; [reflexivity|].
    unfold select_features. by rewrite decide_True.
  - intros ->. unfold select_features.
    rewrite decide_False by done. rewrite decide_True by done.
    by rewrite list_lookup_fmap, Hfs.
  - intros Hin. rewrite !elem_of_cons in Hin.
    destruct Hin as [->|[->|[->|[->|[->|Hin]]]]];
      [..|by apply elem_of_nil in Hin];
      (split; [reflexivity|]); unfold select_features;
      rewrite !decide_False by discriminate;
      by rewrite list_lookup_fmap, Hfs.
Qed.

Lemma select_features_format_data_witness :
  exists feats,
    (exists encs,
       format_data sample_training_data sample_encoding = Ok (encs, feats)) /\
    length (select_features feats "position") = length sample_training_data /\
    ("position" = "all" ->
     exists fs, feats !! 0%nat = Some fs /\ length fs = 5%nat /\
                select_features feats "position" !! 0%nat = Some fs) /\
    ("position" = "strand" ->
     select_features feats "position" !! 0%nat
     = Some [(fun s => of_int (if decide (s = "+") then 0 else 1))
               <$> g_sense genome_marker_last;
             (fun s => of_int (if decide (s = "+") then 1 else 0))
               <$> g_sense genome_marker_last]) /\
    ("position" ∈ ["none"; "intergenic"; "gene_length"; "position";
                   "orientation_count"] ->
     feature_check "position" = Accepted "position" /\
     select_features feats "position" !! 0%nat = Some []).
Proof.
  destruct (format_data sample_training_data sample_encoding)
    as [[encs feats]|e] eqn:Hrun; [|vm_compute in Hrun; discriminate].
  exists feats. split; [by exists encs|].
  apply (select_features_format_data sample_training_data sample_encoding
           encs feats "position" 0 "phage_A" genome_marker_last).
  - apply sample_training_data_keys.
  - exact Hrun.
  - reflexivity.
Defined.

(** ** The counters of the filter *)




(** ** The order of the dereplicated dataset *)

Lemma remove_dups_later {A} `{EqDecision A} (l : list A) (k : A) (l' : list A) :
  k ∈ l' -> remove_dups (l ++ k :: l') = remove_dups (l ++ l').
Proof.
  intros Hk. induction l as [|a l IH]; cbn [app remove_dups].
  - by destruct (decide_rel elem_of k l').
  - rewrite IH.
    destruct (decide_rel elem_of a (l ++ k :: l')) as [H1|H1],
      (decide_rel elem_of a (l ++ l')) as [H2|H2]; try done; exfalso.
    + apply H2. rewrite elem_of_app, elem_of_cons in H1. rewrite elem_of_app.
      destruct H1 as [?|[->|?]]; auto.
    + apply H1. rewrite elem_of_app in H2. rewrite elem_of_app, elem_of_cons.
      destruct H2; auto.
Qed.

Lemma remove_dups_NoDup {A} `{EqDecision A} (l : list A) :
  NoDup l -> remove_dups l = l.
Proof.
  induction 1 as [|x l Hx _ IH]; cbn [remove_dups]; [done|].
  destruct (decide_rel elem_of x l); [done | by rewrite IH].
Qed.

Lemma foldl_set_keys {K V} `{EqDecision K} (d : list (K * V))
    (items : list (K * V)) :
  NoDup (pydict_keys d) ->
  pydict_keys (foldl (fun d kv => pydict_set d kv.1 kv.2) d items)
  = reverse (remove_dups (reverse (pydict_keys d ++ pydict_keys items))).
Proof.
  revert d. induction items as [|[k v] items IH]; intros d Hnd.
  - cbn. rewrite app_nil_r.
    rewrite remove_dups_NoDup by (by rewrite reverse_Permutation).
    by rewrite reverse_involutive.
  - cbn [foldl fst snd]. rewrite IH by (by apply pydict_set_NoDup).
    rewrite pydict_keys_set. f_equal.
    change (pydict_keys ((k, v) :: items)) with (k :: pydict_keys items).
    destruct (decide (k ∈ pydict_keys d)) as [Hin|Hnin].
    + rewrite !reverse_app, reverse_cons, <- app_assoc. cbn [app].
      symmetry. apply remove_dups_later. by apply elem_of_reverse.
    + by rewrite <- app_assoc.
Qed.

Lemma pydict_of_items_keys_order {K V} `{EqDecision K} (items : list (K * V)) :
  pydict_keys (pydict_of_items items)
  = reverse (remove_dups (reverse (pydict_keys items))).
Proof.
  unfold pydict_of_items. rewrite foldl_set_keys by constructor. done.
Qed.

(** X24: the order of the dereplicated dataset. Its signatures are the
    distinct signatures of the input in the order in which they first
    occur; as the genome kept for a signature is the last one carrying it,
    a kept genome stands where the first genome with its signature stood. *)
Theorem derep_trainingdata_order (training_data : pydict string genome)
    (phrog_encoding : gmap string Z) :
  NoDup (pydict_keys training_data) ->
  exists out,
    derep_trainingdata training_data phrog_encoding = Ok out /\
    signature phrog_encoding <$> pydict_values out
    = reverse (remove_dups (reverse (signature phrog_encoding
                                       <$> pydict_values training_data))).
Proof.
  intros Hnd. unfold derep_trainingdata.
  rewrite (mapM_get_genome training_data training_data Hnd) by done.
  cbn [mbind result_bind].
  rewrite training_hash_signature, zip_hash_keys.
  set (d := pydict_of_items _).
  destruct (dedup_selection phrog_encoding training_data d) as
    (sel & Hkeys & Hsigs & Hlast); [done|].
  assert (forall e, e ∈ sel -> e ∈ training_data) as Hsub.
  { intros e (before & after & -> & _)%Hlast.
    apply elem_of_app. right. left. }
  assert (NoDup (pydict_keys d)) as Hd by apply pydict_of_items_NoDup.
  assert (NoDup (pydict_keys sel)) as Hsel.
  { apply NoDup_fmap_2_strong.
    - intros [k1 g1] [k2 g2] H1%Hsub H2%Hsub. cbn. intros <-.
      apply (pydict_get_elem_of _ _ _ Hnd) in H1, H2. congruence.
    - apply (NoDup_fmap_1 (fun e => signature phrog_encoding e.2)).
      rewrite <- Hsigs in Hd. unfold pydict_values in Hd.
      by rewrite <- list_fmap_compose in Hd. }
  rewrite <- Hkeys, (mapM_get_genome training_data sel Hnd Hsub).
  cbn [mbind result_bind].
  unfold pydict_keys at 1, pydict_values at 1.
  rewrite zip_fst_snd, (pydict_of_items_distinct sel Hsel).
  eexists. split; [reflexivity|]. rewrite Hsigs. subst d.
  rewrite pydict_of_items_keys_order. do 3 f_equal.
  unfold pydict_keys, pydict_values. by rewrite <- !list_fmap_compose.
Qed.

Lemma derep_trainingdata_order_witness :
  exists out,
    derep_trainingdata sample_duplicates sample_encoding = Ok out /\
    signature sample_encoding <$> pydict_values out
    = reverse (remove_dups (reverse (signature sample_encoding
                                       <$> pydict_values sample_duplicates))).
Proof.
  apply derep_trainingdata_order. apply sample_duplicates_keys.
Defined.

(** ** The chunks written by generate_training_data.py *)

Lemma slices_concat {A} (l : list A) (n k : nat) :
  concat ((fun i => slice l (i * n) ((i + 1) * n)) <$> seq 0 k)
  = take (k * n) l.
Proof.
  induction k as [|k IH]; [done|].
  rewrite seq_S, fmap_app, concat_app, IH. cbn [fmap list_fmap concat].
  rewrite app_nil_r. unfold slice.
  replace ((0 + k + 1) * n - (0 + k) * n)%nat with n by lia.
  rewrite take_take_drop. f_equal. lia.
Qed.

Lemma slice_distinct {K V} `{EqDecision K} (data : pydict K V) (start stop : nat) :
  NoDup (pydict_keys data) ->
  pydict_of_items (slice data start stop) = slice data start stop.
Proof.
  intros Hnd. apply pydict_of_items_distinct.
  eapply sublist_NoDup; [exact Hnd|]. apply fmap_sublist. unfold slice.
  etrans; [apply sublist_take | apply sublist_drop].
Qed.

(** X25: the chunks are consecutive slices of the shuffled dataset, each of
    one eleventh of its size whatever the number [k] of chunks asked for:
    together they hold its first [k * (len / 11)] genomes, in order. For
    [k <= 11] every chunk is full, so [len - k * (len / 11)] genomes are
    written to no chunk. *)
Theorem chunk_folds_cover {K V} `{EqDecision K} (data : pydict K V) (k : nat) :
  NoDup (pydict_keys data) ->
  concat (chunk_folds data k) = take (k * (length data / 11)) data /\
  (k <= 11 ->
   Forall (fun fold => length fold = length data / 11)%nat (chunk_folds data k) /\
   length (concat (chunk_folds data k)) = k * (length data / 11))%nat.
Proof.
  intros Hnd. unfold chunk_folds. cbn zeta.
  set (n := (length data / 11)%nat).
  assert ((fun i => pydict_of_items (slice data (i * n) ((i + 1) * n)))
            <$> seq 0 k
          = (fun i => slice data (i * n) ((i + 1) * n)) <$> seq 0 k) as ->.
  { apply list_fmap_ext. intros _ i _. by apply slice_distinct. }
  rewrite slices_concat. split; [done|]. intros Hk.
  assert (11 * n <= length data)%nat as Hn
    by (subst n; apply Nat.Div0.mul_div_le).
  clearbody n. split.
  - apply Forall_fmap, Forall_forall. intros i Hi%elem_of_seq. cbn.
    unfold slice. rewrite length_take, length_drop.
    assert (i * n + n <= 11 * n)%nat by nia. lia.
  - rewrite length_take. assert (k * n <= 11 * n)%nat by nia. lia.
Qed.

Lemma chunk_folds_cover_witness :
  let data := (fun i => (i, i)) <$> seq 0 25 in
  concat (chunk_folds data 3) = take (3 * (length data / 11)) data /\
  (3 <= 11 ->
   Forall (fun fold => length fold = length data / 11)%nat (chunk_folds data 3) /\
   length (concat (chunk_folds data 3)) = 3 * (length data / 11))%nat.
Proof.
  apply (chunk_folds_cover ((fun i => (i, i)) <$> seq 0 25) 3).
  refine (bool_decide_unpack _ _). vm_compute. exact I.
Defined.

(** ** generate_prediction on a genome longer than max_length *)

Lemma foldM_mask_row_inv (us : list nat) (X X' : list (list npfloat)) (n : nat) :
  foldM (fun X unk => mask_row X (Z.of_nat unk) n) X us = Ok X' ->
  Forall (fun unk => unk < length X)%nat us.
Proof.
  revert X. induction us as [|unk us IH]; intros X Hrun; [constructor|].
  cbn in Hrun. apply bind_Ok in Hrun as (X1 & HX1 & Hrun).
  apply mask_row_insert in HX1 as (row & Hrow & _ & ->).
  constructor; [by eapply lookup_lt_Some|].
  apply IH in Hrun. by rewrite length_insert in Hrun.
Qed.

(** X26: the positions of the unknown genes are taken from the sequence as
    given, the matrix from the sequence cut to [max_length]: when a gene at
    a position from [max_length] on has category 0, [generate_prediction]
    does not return a matrix, whatever the other arguments. *)
Theorem generate_prediction_unknown_beyond_max_length (sequence : list Z)
    (features : list (list npfloat)) (num_functions n_features max_length : nat)
    (i : nat) :
  (max_length <= i)%nat ->
  sequence !! i = Some 0 ->
  ~ is_Ok (generate_prediction sequence features num_functions n_features
             max_length).
Proof.
  intros Hi Hzero [Xs Hrun]. unfold generate_prediction in Hrun.
  apply bind_Ok in Hrun as (padded & Hpadded & Hrun).
  apply bind_Ok in Hrun as (X0 & HX0 & Hrun).
  apply bind_Ok in Hrun as (X1 & HX1 & Hrun).
  apply bind_Ok in Hrun as (X2 & HX2 & _).
  apply pad_sequences_post_length in Hpadded.
  destruct (one_hot_encode_width _ _ _ HX0) as [HX0len HX0width].
  apply astype_float64_width in HX0width.
  destruct (encode_features_rows _ _ _ _ _ HX0width HX1) as (HX1len & _).
  apply foldM_mask_row_inv in HX2. rewrite Forall_forall in HX2.
  specialize (HX2 i (proj2 (elem_of_occurrences 0 sequence i) Hzero)).
  cbn in HX2. rewrite HX1len in HX2. unfold astype_float64 in HX2.
  rewrite length_fmap in HX2. lia.
Qed.

Lemma generate_prediction_unknown_beyond_max_length_witness :
  ~ is_Ok (generate_prediction [1; 2; 0] [] 3 4 2).
Proof.
  apply (generate_prediction_unknown_beyond_max_length [1; 2; 0] [] 3 4 2 2).
  - lia.
  - reflexivity.
Defined.

(** X27: when [generate_prediction] does return for a genome longer than
    [max_length], the masks are misplaced: row [r] of the matrix holds gene
    [r + (len - max_length)], since the leading genes are cut off, but it is
    zeroed exactly when gene [r] of the uncut sequence is unknown. *)
Theorem generate_prediction_truncated (sequence : list Z)
    (features : list (list npfloat)) (num_functions n_features max_length : nat)
    (X : list (list npfloat)) :
  (0 < max_length < length sequence)%nat ->
  Forall (fun v => 0 <= v < Z.of_nat num_functions) sequence ->
  (num_functions <= n_features)%nat ->
  generate_prediction sequence features num_functions n_features max_length
  = Ok [X] ->
  length X = max_length /\
  forall r row, X !! r = Some row ->
    (category_block_zero num_functions row <-> sequence !! r = Some 0) /\
    (forall v, sequence !! (r + (length sequence - max_length))%nat = Some v ->
       sequence !! r <> Some 0 ->
       take num_functions row = of_int <$> spec_one_hot num_functions v).
Proof.
  intros Hlen Hrange Hnf Hrun. unfold generate_prediction in Hrun.
  rewrite (pad_sequences_post_long _ _ Hlen) in Hrun.
  cbn [mbind result_bind] in Hrun.
  set (shift := (length sequence - max_length)%nat) in *.
  assert (Forall (fun v => 0 <= v < Z.of_nat num_functions)
                 (drop shift sequence)) as Hpadded by by apply Forall_drop.
  apply bind_Ok in Hrun as (X0 & HX0 & Hrun).
  apply bind_Ok in Hrun as (X1 & HX1 & Hrun).
  apply bind_Ok in Hrun as (X2 & HX2 & [= <-]).
  apply (one_hot_encode_nonneg _ num_functions) in HX0 as ->; [|done..].
  apply encode_features_imap in HX1 as ->.
  apply foldM_mask_row in HX2 as ->.
  split.
  { rewrite !length_imap. unfold astype_float64.
    rewrite !length_fmap, length_drop. lia. }
  intros r row. rewrite !list_lookup_imap. unfold astype_float64.
  rewrite !list_lookup_fmap, lookup_drop.
  destruct (sequence !! (shift + r)%nat) as [w|] eqn:Hw; [|discriminate].
  cbn [fmap option_fmap option_map].
  assert (0 <= w < Z.of_nat num_functions) as Hwr.
  { rewrite Forall_lookup in Hrange. by apply (Hrange _ _ Hw). }
  destruct (decide (r ∈ occurrences 0 sequence)) as [Hin|Hnin];
    intros [= <-].
  - apply elem_of_occurrences in Hin. split.
    + split; [done|]. intros _. apply replicate_zero_block, zero_block_take.
    + by intros v _ Hne.
  - rewrite elem_of_occurrences in Hnin. split.
    + split; [|done]. intros Hblock.
      apply (spec_one_hot_not_zero num_functions w) in Hblock; [done..|].
      by apply take_encoded_row.
    + intros v Hv _. rewrite Nat.add_comm in Hv.
      assert (v = w) as -> by congruence. by apply take_encoded_row.
Qed.

Lemma generate_prediction_truncated_witness :
  let X := [of_int <$> [0; 0; 0; 0]; of_int <$> [0; 0; 1; 0]] in
  length X = 2%nat /\
  forall r row, X !! r = Some row ->
    (category_block_zero 3 row <-> [0; 1; 2] !! r = Some 0) /\
    (forall v, [0; 1; 2] !! (r + (length [0; 1; 2] - 2))%nat = Some v ->
       [0; 1; 2] !! r <> Some 0 ->
       take 3 row = of_int <$> spec_one_hot 3 v).
Proof.
  apply (generate_prediction_truncated [0; 1; 2] [] 3 4 2).
  - cbn. lia.
  - repeat constructor; lia.
  - lia.
  - reflexivity.
Defined.
